(** * Hotel booking chatbot: intent classifier, entity extractor, date
      normalizer and dialogue controller

    A shallow embedding of [nlp_utils.py], [models.py] and [app.py].

    Modelling conventions.
    - Utterances are Python [str] values restricted to 7-bit ASCII: a
      [string] is a sequence of [ascii] characters, and every character
      class ([\d], [\s], [\w], [str.lower], [str.strip], ...) is the ASCII
      restriction of the Unicode class Python uses.  Characters above 127
      are treated as caseless symbols.
    - Regular expressions are kept as syntax trees ([regex]) and run by a
      backtracking matcher with the priorities of Python's [re] module
      (leftmost match, first alternative first, greedy repetition).
    - [datetime] values carry their UTC offset when they are aware (the
      date library returns aware values for a text that names a time
      zone) and none when they are naive, with the proleptic Gregorian
      arithmetic of CPython's [datetime] module; an order comparison of a
      naive with an aware value raises.
    - An exception that leaves a function is a result [None] of its
      embedding.  The exceptions of the program's own operations are
      modelled: [int] on more than 4300 digits, [timedelta] and date
      overflow, the comparison of a naive with an aware datetime, and an
      integer that does not fit an SQLite column, and [.strip()] on a
      message that is not a string.  A request body is taken as parsed, a
      JSON object: [handle_message] is the view on a body whose [message]
      entry is a string or absent, [handle_request] adds the other JSON
      types of that entry; the [session_id] entry is a string or absent.
    - The spaCy pipeline and the [dateparser] library are collaborators
      of the program, not part of it: they are section variables.
    - The SQL table [bookings] is a finite map from primary key to row. *)

From Stdlib Require Import ZArith String Ascii List Bool Lia.
From stdpp Require Import base option gmap.
Import ListNotations.

Local Open Scope string_scope.
Local Open Scope Z_scope.

(** ** Characters and the [str] methods the program calls *)

Module Str.

Definition code (c : ascii) : Z := Z.of_N (N_of_ascii c).

Definition in_range (lo hi : Z) (c : ascii) : bool :=
  (lo <=? code c) && (code c <=? hi).

Definition is_digit : ascii -> bool := in_range 48 57.
Definition is_upper : ascii -> bool := in_range 65 90.
Definition is_lower : ascii -> bool := in_range 97 122.
Definition is_alpha (c : ascii) : bool := is_upper c || is_lower c.

(** [\w]: letters, digits and the underscore. *)
Definition is_word (c : ascii) : bool :=
  is_alpha c || is_digit c || (code c =? 95).

(** [str.isspace] and [\s]: tab, LF, VT, FF, CR, the separators
    FS, GS, RS, US, and the space. *)
Definition is_space (c : ascii) : bool :=
  in_range 9 13 c || in_range 28 31 c || (code c =? 32).

Definition lower_char (c : ascii) : ascii :=
  if is_upper c then ascii_of_N (Z.to_N (code c + 32)) else c.

Definition upper_char (c : ascii) : ascii :=
  if is_lower c then ascii_of_N (Z.to_N (code c - 32)) else c.

Fixpoint map_chars (f : ascii -> ascii) (s : string) : string :=
  match s with
  | EmptyString => EmptyString
  | String c t => String (f c) (map_chars f t)
  end.

(** [s.lower()] *)
Definition lower : string -> string := map_chars lower_char.

Fixpoint lstrip (s : string) : string :=
  match s with
  | String c t => if is_space c then lstrip t else s
  | EmptyString => EmptyString
  end.

Fixpoint rstrip (s : string) : string :=
  match s with
  | EmptyString => EmptyString
  | String c t =>
      match rstrip t with
      | EmptyString => if is_space c then EmptyString else String c EmptyString
      | t' => String c t'
      end
  end.

(** [s.strip()] *)
Definition strip (s : string) : string := rstrip (lstrip s).

(** Truth value of a [str]: non-empty. *)
Definition truthy (s : string) : bool :=
  match s with EmptyString => false | _ => true end.

(** [s.capitalize()]: first character upper-cased, the rest lower-cased. *)
Definition capitalize (s : string) : string :=
  match s with
  | EmptyString => EmptyString
  | String c t => String (upper_char c) (lower t)
  end.

(** [s.title()]: a cased character is upper-cased when the character
    before it is uncased, and lower-cased otherwise. *)
Fixpoint title_from (prev_cased : bool) (s : string) : string :=
  match s with
  | EmptyString => EmptyString
  | String c t =>
      if is_alpha c
      then String (if prev_cased then lower_char c else upper_char c)
                  (title_from true t)
      else String c (title_from false t)
  end.

Definition title : string -> string := title_from false.

(** [s.startswith(p)], returning what follows the prefix. *)
Fixpoint drop_prefix (p s : string) : option string :=
  match p, s with
  | EmptyString, _ => Some s
  | String a p', String b s' =>
      if Ascii.eqb a b then drop_prefix p' s' else None
  | String _ _, EmptyString => None
  end.

Definition startswith (p s : string) : bool :=
  match drop_prefix p s with Some _ => true | None => false end.

(** [sub in s] *)
Fixpoint contains (sub s : string) : bool :=
  startswith sub s ||
  match s with
  | EmptyString => false
  | String _ t => contains sub t
  end.

Fixpoint existsb_chars (p : ascii -> bool) (s : string) : bool :=
  match s with
  | EmptyString => false
  | String c t => p c || existsb_chars p t
  end.

Fixpoint filter_chars (p : ascii -> bool) (s : string) : string :=
  match s with
  | EmptyString => EmptyString
  | String c t => if p c then String c (filter_chars p t) else filter_chars p t
  end.

(** [sep.join(parts)] *)
Fixpoint join (sep : string) (parts : list string) : string :=
  match parts with
  | [] => EmptyString
  | [x] => x
  | x :: rest => x ++ sep ++ join sep rest
  end.

(** [s.replace(a, b)] for single characters. *)
Definition replace_char (a b : ascii) : string -> string :=
  map_chars (fun c => if Ascii.eqb c a then b else c).

(** Decimal digits to an integer, as [int(s)] on a string of digits. *)
Fixpoint int_acc (acc : Z) (s : string) : Z :=
  match s with
  | EmptyString => acc
  | String c t => int_acc (10 * acc + (code c - 48)) t
  end.

(** [sys.get_int_max_str_digits()]: CPython's [int] refuses a longer run
    of digits. *)
Definition MAX_STR_DIGITS : nat := 4300.

(** [int(s)] on a text without sign, blank or underscore: fails
    (ValueError) unless [s] is a non-empty run of at most 4300 digits. *)
Definition int_of (s : string) : option Z :=
  match s with
  | EmptyString => None
  | _ => if existsb_chars (fun c => negb (is_digit c)) s then None
         else if (MAX_STR_DIGITS <? String.length s)%nat then None
         else Some (int_acc 0 s)
  end.

Definition digit_char (d : Z) : ascii := ascii_of_N (Z.to_N (48 + d)).

(** The decimal numeral of [n], zero-padded to [width] digits. *)
Fixpoint zfill (width : nat) (n : Z) : string :=
  match width with
  | O => EmptyString
  | S w => zfill w (n / 10) ++ String (digit_char (n mod 10)) EmptyString
  end.

End Str.

(** ** Regular expressions: the fragment of Python's [re] the program uses *)

Module Re.

Inductive regex : Type :=
| Eps                                   (* the empty pattern *)
| Lit (s : string)                      (* literal text *)
| Cls (p : ascii -> bool)               (* one character of a class *)
| Cat (r1 r2 : regex)                   (* r1 r2 *)
| Alt (r1 r2 : regex)                   (* r1|r2 *)
| Star (r : regex)                      (* r*, greedy *)
| Grp (i : nat) (r : regex)             (* capturing group number i *)
| Bol                                   (* ^ *)
| WordB.                                (* \b *)

(** A position of the matcher: the character before it (none at the start
    of the text), the text after it, and the groups captured so far. *)
Record mstate : Type := MState {
  prev : option ascii;
  rest : string;
  caps : list (nat * string)
}.

Definition wordish (o : option ascii) : bool :=
  match o with Some c => Str.is_word c | None => false end.

Definition next_char (s : string) : option ascii :=
  match s with String c _ => Some c | EmptyString => None end.

(** [\b] holds where exactly one side is a word character. *)
Definition at_boundary (st : mstate) : bool :=
  xorb (wordish (prev st)) (wordish (next_char (rest st))).

(** Character equality, folded to lower case under [re.I].  This is the
    folding of Python's [re] on ASCII text; on other text [re.I] also lets
    the long s (U+017F) match [s] and the Kelvin sign (U+212A) match [k],
    which the ASCII strings of this development cannot hold. *)
Definition char_eq (ic : bool) (a b : ascii) : bool :=
  if ic then Ascii.eqb (Str.lower_char a) (Str.lower_char b) else Ascii.eqb a b.

Definition cls_ok (ic : bool) (p : ascii -> bool) (c : ascii) : bool :=
  if ic then p c || p (Str.lower_char c) || p (Str.upper_char c) else p c.

(** Consume the literal [lit] at the position, if it is there. *)
Fixpoint eat (ic : bool) (lit : string) (pv : option ascii) (s : string)
  : option (option ascii * string) :=
  match lit with
  | EmptyString => Some (pv, s)
  | String a lit' =>
      match s with
      | String b s' => if char_eq ic a b then eat ic lit' (Some b) s' else None
      | EmptyString => None
      end
  end.

(** The first [n] characters of [s]. *)
Fixpoint take (n : nat) (s : string) : string :=
  match n, s with
  | S n', String c t => String c (take n' t)
  | _, _ => EmptyString
  end.

(** The text between two positions of one scan. *)
Definition consumed (before after : mstate) : string :=
  take (String.length (rest before) - String.length (rest after))%nat (rest before).

(** The loop of a greedy [r*]: [m] matches one more [r]; an iteration must
    consume text, and when no further iteration leads to a match the loop
    continues with [k] from where it stands. *)
Fixpoint star_loop (m : mstate -> (mstate -> option mstate) -> option mstate)
  (k : mstate -> option mstate) (fuel : nat) (st0 : mstate) : option mstate :=
  match fuel with
  | O => k st0
  | S fuel' =>
      match m st0 (fun st' =>
               if (String.length (rest st') <? String.length (rest st0))%nat
               then star_loop m k fuel' st' else None) with
      | Some res => Some res
      | None => k st0
      end
  end.

Section Matcher.
Variable ic : bool.   (* re.IGNORECASE *)

(** [mre r st k]: match [r] at [st] and continue with [k]; alternatives
    are tried in priority order and the first overall success wins. *)
Fixpoint mre (r : regex) (st : mstate) (k : mstate -> option mstate)
  : option mstate :=
  match r with
  | Eps => k st
  | Lit s =>
      match eat ic s (prev st) (rest st) with
      | Some (pv, s') => k (MState pv s' (caps st))
      | None => None
      end
  | Cls p =>
      match rest st with
      | String c t =>
          if cls_ok ic p c then k (MState (Some c) t (caps st)) else None
      | EmptyString => None
      end
  | Cat r1 r2 => mre r1 st (fun st' => mre r2 st' k)
  | Alt r1 r2 =>
      match mre r1 st k with
      | Some res => Some res
      | None => mre r2 st k
      end
  | Star r1 => star_loop (mre r1) k (String.length (rest st)) st
  | Grp i r1 =>
      mre r1 st (fun st' =>
        k (MState (prev st') (rest st') ((i, consumed st st') :: caps st')))
  | Bol => match prev st with None => k st | Some _ => None end
  | WordB => if at_boundary st then k st else None
  end.

(** [re.match] at one position. *)
Definition match_at (r : regex) (pv : option ascii) (s : string)
  : option mstate :=
  mre r (MState pv s []) Some.

(** [re.search]: the leftmost position where the pattern matches. *)
Fixpoint search_from (r : regex) (pv : option ascii) (s : string)
  : option mstate :=
  match match_at r pv s with
  | Some m => Some m
  | None =>
      match s with
      | EmptyString => None
      | String c t => search_from r (Some c) t
      end
  end.

Definition search (r : regex) (s : string) : option mstate :=
  search_from r None s.

Definition found (r : regex) (s : string) : bool :=
  match search r s with Some _ => true | None => false end.

(** [re.findall] for a pattern without groups that never matches the
    empty string: the successive non-overlapping matches. *)
Fixpoint findall_from (fuel : nat) (r : regex) (pv : option ascii)
  (s : string) : list string :=
  match fuel with
  | O => []
  | S fuel' =>
      match match_at r pv s with
      | Some m =>
          match s with
          | EmptyString => []
          | String c t =>
              if (String.length (rest m) <? String.length s)%nat
              then take (String.length s - String.length (rest m)) s
                     :: findall_from fuel' r (prev m) (rest m)
              else findall_from fuel' r (Some c) t
          end
      | None =>
          match s with
          | EmptyString => []
          | String c t => findall_from fuel' r (Some c) t
          end
      end
  end.

Definition findall (r : regex) (s : string) : list string :=
  findall_from (S (String.length s)) r None s.
End Matcher.

(** [m.group(i)] *)
Fixpoint lookup_group (i : nat) (cs : list (nat * string)) : option string :=
  match cs with
  | [] => None
  | (j, s) :: cs' => if Nat.eqb i j then Some s else lookup_group i cs'
  end.

Definition group (i : nat) (m : mstate) : option string :=
  lookup_group i (caps m).

(** Derived forms. *)
Definition Plus (r : regex) : regex := Cat r (Star r).          (* r+ *)
Definition Opt (r : regex) : regex := Alt r Eps.                (* r? *)

Fixpoint Times (n : nat) (r : regex) : regex :=                 (* r{n} *)
  match n with O => Eps | S n' => Cat r (Times n' r) end.

Fixpoint UpTo (n : nat) (r : regex) : regex :=                  (* r{0,n} *)
  match n with O => Eps | S n' => Opt (Cat r (UpTo n' r)) end.

Definition Rep (lo hi : nat) (r : regex) : regex :=             (* r{lo,hi} *)
  Cat (Times lo r) (UpTo (hi - lo) r).

Fixpoint AltLits (ws : list string) : regex :=                  (* w1|w2|... *)
  match ws with
  | [] => Lit EmptyString
  | [w] => Lit w
  | w :: ws' => Alt (Lit w) (AltLits ws')
  end.

Definition Word (r : regex) : regex := Cat WordB (Cat r WordB). (* \b r \b *)

Definition Seq (rs : list regex) : regex := fold_right Cat Eps rs.

Definition digit : regex := Cls Str.is_digit.                   (* \d *)
Definition space : regex := Cls Str.is_space.                   (* \s *)

End Re.

(** ** [datetime] values and the calendar arithmetic behind them *)

Module Datetime.

(** A [datetime]: its calendar and clock fields and, for an aware value,
    [dt.utcoffset()] in microseconds; a naive value has no offset.  The
    time zone of an aware value is a fixed offset, as the date library
    attaches it. *)
Record datetime : Type := mk_datetime_tz {
  year : Z;
  month : Z;
  day : Z;
  hour : Z;
  minute : Z;
  second : Z;
  microsecond : Z;
  utcoffset : option Z
}.

(** [datetime(y, m, d, h, mi, s, us)]: a naive value. *)
Definition mk_datetime (y m d h mi s us : Z) : datetime :=
  mk_datetime_tz y m d h mi s us None.

Definition MINYEAR : Z := 1.
Definition MAXYEAR : Z := 9999.
Definition MAXORDINAL : Z := 3652059.   (* date(9999, 12, 31).toordinal() *)

Definition is_leap (y : Z) : bool :=
  (y mod 4 =? 0) && (negb (y mod 100 =? 0) || (y mod 400 =? 0)).

Definition days_before_year (y : Z) : Z :=
  let y1 := y - 1 in y1 * 365 + y1 / 4 - y1 / 100 + y1 / 400.

(** The table [_DAYS_IN_MONTH]. *)
Definition DAYS_IN_MONTH (m : Z) : Z :=
  match m with
  | 1 => 31 | 2 => 28 | 3 => 31 | 4 => 30 | 5 => 31 | 6 => 30
  | 7 => 31 | 8 => 31 | 9 => 30 | 10 => 31 | 11 => 30 | 12 => 31
  | _ => -1
  end.

(** The table [_DAYS_BEFORE_MONTH]. *)
Definition DAYS_BEFORE_MONTH (m : Z) : Z :=
  match m with
  | 1 => 0 | 2 => 31 | 3 => 59 | 4 => 90 | 5 => 120 | 6 => 151
  | 7 => 181 | 8 => 212 | 9 => 243 | 10 => 273 | 11 => 304 | 12 => 334
  | _ => -1
  end.

Definition days_in_month (y m : Z) : Z :=
  if (m =? 2) && is_leap y then 29 else DAYS_IN_MONTH m.

Definition days_before_month (y m : Z) : Z :=
  DAYS_BEFORE_MONTH m + (if (2 <? m) && is_leap y then 1 else 0).

Definition ymd2ord (y m d : Z) : Z :=
  days_before_year y + days_before_month y m + d.

(** [_ord2ymd]: the inverse of [ymd2ord], by 400-, 100-, 4- and 1-year
    cycles, then an estimate of the month corrected downwards. *)
Definition ord2ymd (n0 : Z) : Z * Z * Z :=
  let n := n0 - 1 in
  let n400 := n / 146097 in
  let n := n mod 146097 in
  let n100 := n / 36524 in
  let n := n mod 36524 in
  let n4 := n / 1461 in
  let n := n mod 1461 in
  let n1 := n / 365 in
  let n := n mod 365 in
  let y := n400 * 400 + 1 + n100 * 100 + n4 * 4 + n1 in
  if (n1 =? 4) || (n100 =? 4) then (y - 1, 12, 31)
  else
    let leapyear := (n1 =? 3) && (negb (n4 =? 24) || (n100 =? 3)) in
    let m := Z.shiftr (n + 50) 5 in
    let preceding :=
      DAYS_BEFORE_MONTH m + (if (2 <? m) && leapyear then 1 else 0) in
    if n <? preceding
    then
      let m' := m - 1 in
      let preceding' :=
        preceding
        - (DAYS_IN_MONTH m' + (if (m' =? 2) && leapyear then 1 else 0)) in
      (y, m', n - preceding' + 1)
    else (y, m, n - preceding + 1).

(** The checks of the [datetime(...)] constructor (ValueError otherwise). *)
Definition valid_date (y m d : Z) : bool :=
  (MINYEAR <=? y) && (y <=? MAXYEAR) && (1 <=? m) && (m <=? 12)
  && (1 <=? d) && (d <=? days_in_month y m).

Definition valid_time (h mi s us : Z) : bool :=
  (0 <=? h) && (h <=? 23) && (0 <=? mi) && (mi <=? 59)
  && (0 <=? s) && (s <=? 59) && (0 <=? us) && (us <=? 999999).

Definition valid_datetime (dt : datetime) : bool :=
  valid_date (year dt) (month dt) (day dt)
  && valid_time (hour dt) (minute dt) (second dt) (microsecond dt).

(** [datetime(year=.., month=.., ..)] *)
Definition make_datetime (y m d h mi s us : Z) : option datetime :=
  if valid_date y m d && valid_time h mi s us
  then Some (mk_datetime y m d h mi s us) else None.

(** [dt.toordinal()], also [dt.date().toordinal()]. *)
Definition toordinal (dt : datetime) : Z :=
  ymd2ord (year dt) (month dt) (day dt).

(** [(a.date() - b.date()).days] *)
Definition days_between (a b : datetime) : Z := toordinal a - toordinal b.

(** Microseconds of the time of day. *)
Definition time_us (dt : datetime) : Z :=
  ((hour dt * 60 + minute dt) * 60 + second dt) * 1000000 + microsecond dt.

(** [a - b] as a whole number of microseconds.  [total_seconds()] divides
    this by 10^6 in floating point; for the spans compared here (under
    three years, below 2^53 microseconds) the quotients order exactly as
    the integers do. *)
Definition diff_us (a b : datetime) : Z :=
  (toordinal a - toordinal b) * 86400000000 + (time_us a - time_us b).

(** Field-wise comparison, as [datetime.__lt__] does. *)
Definition fields (dt : datetime) : list Z :=
  [year dt; month dt; day dt; hour dt; minute dt; second dt; microsecond dt].

Fixpoint lex_compare (a b : list Z) : comparison :=
  match a, b with
  | x :: a', y :: b' =>
      match x ?= y with
      | Eq => lex_compare a' b'
      | c => c
      end
  | [], [] => Eq
  | [], _ :: _ => Lt
  | _ :: _, [] => Gt
  end.

Definition dt_compare (a b : datetime) : comparison :=
  lex_compare (fields a) (fields b).

Definition dt_ltb (a b : datetime) : bool :=
  match dt_compare a b with Lt => true | _ => false end.

Definition dt_leb (a b : datetime) : bool := negb (dt_ltb b a).

(** The instant of an aware value, in microseconds on the UTC time line. *)
Definition instant_us (dt : datetime) (offset : Z) : Z :=
  toordinal dt * 86400000000 + time_us dt - offset.

(** [a < b] as the program evaluates it: two naive values, or two aware
    values with the same offset, compare field by field; two aware values
    with different offsets compare as instants; [None] is the TypeError of
    comparing a naive with an aware value. *)
Definition dt_lt (a b : datetime) : option bool :=
  match utcoffset a, utcoffset b with
  | None, None => Some (dt_ltb a b)
  | Some oa, Some ob =>
      Some (if oa =? ob then dt_ltb a b
            else instant_us a oa <? instant_us b ob)
  | _, _ => None
  end.

(** [dt + timedelta(days=n)], with the time zone of [dt]; [None] is the
    OverflowError raised when the day count or the resulting date is out
    of range. *)
Definition add_days (dt : datetime) (n : Z) : option datetime :=
  if 999999999 <? Z.abs n then None
  else
    let o := toordinal dt + n in
    if (0 <? o) && (o <=? MAXORDINAL)
    then
      let '(y, m, d) := ord2ymd o in
      Some (mk_datetime_tz y m d (hour dt) (minute dt) (second dt)
              (microsecond dt) (utcoffset dt))
    else None.

(** The UTC offset as [isoformat] prints it: [+HH:MM], with the seconds
    and the microseconds when they are not zero. *)
Definition format_offset (offset : Z) : string :=
  let a := Z.abs offset in
  let us := a mod 1000000 in
  let s := (a / 1000000) mod 60 in
  let mi := (a / 60000000) mod 60 in
  let h := a / 3600000000 in
  ((if (offset <? 0)%Z then "-" else "+")
   ++ Str.zfill 2 h ++ ":" ++ Str.zfill 2 mi
   ++ (if (s =? 0)%Z && (us =? 0)%Z then EmptyString
       else ":" ++ Str.zfill 2 s
            ++ (if (us =? 0)%Z then EmptyString
                else "." ++ Str.zfill 6 us)))%string.

(** [dt.isoformat()] *)
Definition isoformat (dt : datetime) : string :=
  (Str.zfill 4 (year dt) ++ "-" ++ Str.zfill 2 (month dt) ++ "-"
   ++ Str.zfill 2 (day dt) ++ "T" ++ Str.zfill 2 (hour dt) ++ ":"
   ++ Str.zfill 2 (minute dt) ++ ":" ++ Str.zfill 2 (second dt)
   ++ (if (microsecond dt =? 0)%Z then EmptyString
       else "." ++ Str.zfill 6 (microsecond dt))
   ++ match utcoffset dt with
      | Some offset => format_offset offset
      | None => EmptyString
      end)%string.

(** What an SQLite [DateTime] column keeps of a value: the fields, without
    the time zone. *)
Definition as_stored (dt : datetime) : datetime :=
  mk_datetime (year dt) (month dt) (day dt) (hour dt) (minute dt)
    (second dt) (microsecond dt).

End Datetime.

(** ** [nlp_utils.py] *)

Import Re Datetime.

Inductive intent : Type := confirm | cancel | book | greet | unknown.

Definition CONFIRM_WORDS : list regex :=
  [Word (Lit "confirm"); Word (Lit "yes"); Word (Lit "yep");
   Word (Lit "sure"); Word (Lit "ok"); Word (Lit "all set");
   Lit "that's fine"; Lit "that works"; Lit "looks good"].

Definition CANCEL_WORDS : list regex :=
  [Word (Lit "cancel"); Word (Lit "forget"); Word (Lit "no longer");
   Word (Lit "never mind")].

Definition BOOK_WORDS : list regex :=
  [Word (Lit "book"); Word (Lit "reserve"); Word (Lit "reservation");
   Word (Lit "stay"); Word (Lit "booking")].

Definition GREET_WORDS : list regex :=
  [Seq [Bol; Lit "hi"; WordB]; Seq [Bol; Lit "hello"; WordB];
   Seq [Bol; Lit "hey"; WordB];
   Cat (Lit "good ") (Grp 1 (AltLits ["morning"; "afternoon"; "evening"]))].

Definition _match_any_word (list_patterns : list regex) (text : string) : bool :=
  if negb (Str.truthy text) then false
  else
    let t := Str.lower text in
    existsb (fun pat => found false pat t) list_patterns.

Definition detect_intent (text : string) : intent :=
  if negb (Str.truthy text) || negb (Str.truthy (Str.strip text)) then unknown
  else if _match_any_word CONFIRM_WORDS text then confirm
  else if _match_any_word CANCEL_WORDS text then cancel
  else if _match_any_word BOOK_WORDS text then book
  else if _match_any_word GREET_WORDS text then greet
  else
    let t := Str.lower text in
    (* heuristic: numbers + booking related words *)
    if found false digit t
       && (Str.contains "night" t || Str.contains "guest" t
           || Str.contains "people" t || Str.contains "from" t
           || Str.contains "to" t)
    then book
    else unknown.

(** [\b(20\d{2})\b] *)
Definition EXPLICIT_YEAR : regex :=
  Word (Grp 1 (Cat (Lit "20") (Times 2 digit))).

(** [min(xs, key=key)] on a non-empty list: the first element whose key is
    minimal. *)
Definition min_by {A : Type} (key : A -> Z) (x : A) (xs : list A) : A :=
  fold_left (fun best c => if key c <? key best then c else best) xs x.

Section DateNormalizer.
(** [datetime.now()] *)
Variable today : datetime.

(** The candidate for year [y]: [dt]'s month, day, hour, minute and
    second; the constructor is not given the microsecond, which is 0. *)
Definition candidate (dt : datetime) (y : Z) : option datetime :=
  make_datetime y (month dt) (day dt) (hour dt) (minute dt) (second dt) 0.

Definition candidates (dt : datetime) : list datetime :=
  omap (candidate dt) [year today - 1; year today; year today + 1].

(** [abs((c - today).total_seconds())], in microseconds. *)
Definition distance (c : datetime) : Z := Z.abs (diff_us c today).

Definition _closest_year_for_month_day (dt : datetime) (matched_text : string)
  : datetime :=
  (* If user included a year explicitly, keep it. *)
  if found false EXPLICIT_YEAR matched_text then dt
  else
    match candidates dt with
    | [] => dt
    | c :: cs => min_by distance c cs
    end.
End DateNormalizer.

(** [[0-9/\\\-:]] *)
Definition structured_char (c : ascii) : bool :=
  Str.is_digit c || Str.existsb_chars (Ascii.eqb c) "/\-:".

Definition directives : list string :=
  ["from"; "to"; "next"; "for"; "night"; "nights"; "guest"; "guests";
   "booking"; "book"; "checkin"; "checkout"; "payment"; "breakfast"].

Definition mem (s : string) (l : list string) : bool :=
  existsb (String.eqb s) l.

Definition looks_like_name_response (text : string) : bool :=
  if negb (Str.truthy text) || negb (Str.truthy (Str.strip text)) then false
  else
    let s := Str.strip text in
    (* quick reject: contains digits or slashes *)
    if found false (Cls structured_char) s then false
    else
      (* alphabetic tokens only *)
      let tokens := findall false (Plus (Cls Str.is_alpha)) s in
      let n := Z.of_nat (List.length tokens) in
      if negb ((1 <=? n) && (n <=? 3)) then false
      else
        let low_tokens := map Str.lower tokens in
        if existsb (fun t => mem t directives) low_tokens then false
        else true.

(** *** The entity extractor *)

(** One entity of [doc.ents]: its text and its label. *)
Record entity : Type := Entity { ent_text : string; label_ : string }.

(** The [settings] argument of the date parser. *)
Inductive settings : Type := Default_settings | Prefer_future.

(** The mapping [extract_entities] returns.  A key that is absent and a key
    bound to [None] are both [None] here: the callers only read the mapping
    with [.get] and with ["checkin" not in extracted], and [checkin] is
    never bound to [None]. *)
Record Extracted : Type := mk_extracted {
  x_name : option string;
  x_guests : option Z;
  x_breakfast : option string;
  x_payment_method : option string;
  x_checkin : option datetime;
  x_checkout : option datetime;
  x_nights : option Z
}.

Definition no_entities : Extracted :=
  mk_extracted None None None None None None None.

Definition set_dates (e : Extracted) (ci co : datetime) (n : Z) : Extracted :=
  mk_extracted (x_name e) (x_guests e) (x_breakfast e) (x_payment_method e)
    (Some ci) (Some co) (Some n).

Definition set_checkin (e : Extracted) (ci : datetime) : Extracted :=
  mk_extracted (x_name e) (x_guests e) (x_breakfast e) (x_payment_method e)
    (Some ci) (x_checkout e) (x_nights e).

(** The name phrase: [(?:i am|i'm|my name is|this is)\s+] followed by group 1,
    [[A-Z][a-z]+] and then any number of [\s[A-Z][a-z]+]. *)
Definition NAME_PHRASE : regex :=
  let cap_word := Cat (Cls Str.is_upper) (Plus (Cls Str.is_lower)) in
  Seq [AltLits ["i am"; "i'm"; "my name is"; "this is"]; Plus space;
       Grp 1 (Cat cap_word (Star (Cat space cap_word)))].

(** [(\d+)\s*(?:guest|guests|person|people)] *)
Definition GUESTS_PHRASE : regex :=
  Seq [Grp 1 (Plus digit); Star space;
       AltLits ["guest"; "guests"; "person"; "people"]].

(** [[:\s-]] *)
Definition sep_char (c : ascii) : bool :=
  Str.is_space c || Str.existsb_chars (Ascii.eqb c) ":-".

(** [breakfast[:\s-]*(yes|no|included|with|without|continental|American|buffet|full english|full|english|none)] *)
Definition BREAKFAST_TOKEN : regex :=
  Seq [Lit "breakfast"; Star (Cls sep_char);
       Grp 1 (AltLits ["yes"; "no"; "included"; "with"; "without";
                       "continental"; "American"; "buffet"; "full english";
                       "full"; "english"; "none"])].

Definition PAYMENT_WORDS : list string :=
  ["visa"; "mastercard"; "paypal"; "cash"; "card"; "debit"; "credit";
   "american express"; "amex"; "crypto"; "bitcoin"; "btc"].

(** [payment[:\s-]*(visa|mastercard|paypal|cash|card|debit|credit|amex|american express|crypto|bitcoin|btc)] *)
Definition PAYMENT_SCOPED : regex :=
  Seq [Lit "payment"; Star (Cls sep_char);
       Grp 1 (AltLits ["visa"; "mastercard"; "paypal"; "cash"; "card";
                       "debit"; "credit"; "amex"; "american express";
                       "crypto"; "bitcoin"; "btc"])].

Definition payment_mapping : list (string * string) :=
  [("visa", "Visa"); ("mastercard", "Mastercard"); ("paypal", "PayPal");
   ("cash", "Cash"); ("card", "Card"); ("debit", "Card"); ("credit", "Card");
   ("american express", "Amex"); ("amex", "Amex"); ("crypto", "Crypto");
   ("bitcoin", "Crypto"); ("btc", "Crypto")].

(** [mapping.get(key)] *)
Fixpoint dict_get (key : string) (d : list (string * string)) : option string :=
  match d with
  | [] => None
  | (k, v) :: d' => if String.eqb key k then Some v else dict_get key d'
  end.

(** [for\s+(\d+)\s+night] *)
Definition FOR_NIGHTS : regex :=
  Seq [Lit "for"; Plus space; Grp 1 (Plus digit); Plus space; Lit "night"].

(** [[A-Za-z0-9 ,\/\-]] *)
Definition phrase_char (c : ascii) : bool :=
  Str.is_alpha c || Str.is_digit c || Str.existsb_chars (Ascii.eqb c) " ,/-".

(** [(?:to|until|through|-)\s*([A-Za-z0-9 ,\/\-]+)] *)
Definition TRAILING_DATE : regex :=
  Seq [AltLits ["to"; "until"; "through"; "-"]; Star space;
       Grp 1 (Plus (Cls phrase_char))].

(** [[\/\-]] *)
Definition slash_or_dash (c : ascii) : bool :=
  Str.existsb_chars (Ascii.eqb c) "/-".

(** One side of the range pattern:
    [[A-Za-z]{3,9}\s*\d{1,2}(?:,?\s*\d{4})?|\d{1,2}[\/\-]\d{1,2}(?:[\/\-]\d{2,4})?] *)
Definition RANGE_SIDE : regex :=
  Alt (Seq [Rep 3 9 (Cls Str.is_alpha); Star space; Rep 1 2 digit;
            Opt (Seq [Opt (Lit ","); Star space; Times 4 digit])])
      (Seq [Rep 1 2 digit; Cls slash_or_dash; Rep 1 2 digit;
            Opt (Seq [Cls slash_or_dash; Rep 2 4 digit])]).

(** The two sides around a hyphen or an en dash (the latter as its three
    UTF-8 bytes). *)
Definition DATE_RANGE : regex :=
  Seq [Grp 1 RANGE_SIDE; Star space; Alt (Lit "-") (Lit "–"); Star space;
       Grp 2 RANGE_SIDE].

(** [\b(i am|i'm|my name|name)\b] *)
Definition NAME_CUE : regex :=
  Word (Grp 1 (AltLits ["i am"; "i'm"; "my name"; "name"])).

(** [m.group(i)] of a group that took part in the match. *)
Definition group_text (i : nat) (m : mstate) : string :=
  match group i m with Some s => s | None => EmptyString end.

(** The breakfast token found in the text, before normalization. *)
Definition breakfast_token (text : string) : option string :=
  if found true (Word (Lit "breakfast")) text then
    match search true BREAKFAST_TOKEN text with
    | Some m => Some (group_text 1 m)
    | None =>
        (* flexible keyword checks *)
        if found true (Seq [AltLits ["include"; "included"; "with"];
                            Plus space; Lit "breakfast"]) text
        then Some "included"
        else if found true (Seq [AltLits ["no"; "without"; "none"];
                                 Plus space; Lit "breakfast"]) text
        then Some "no"
        else if found true (Lit "continental") text then Some "continental"
        else if found true (Lit "buffet") text then Some "buffet"
        else if found true (Alt (Seq [Lit "full"; Plus space; Lit "english"])
                             (Alt (Lit "fullenglish") (Lit "full english")))
                  text
        then Some "full english"
        else Some "unspecified"
    end
  else None.

Definition normalize_breakfast (br : string) : string :=
  let br_norm := Str.lower br in
  if mem br_norm ["yes"; "with"; "included"; "include"] then "Included"
  else if mem br_norm ["no"; "none"; "without"] then "No"
  else if Str.contains "continental" br_norm then "Continental"
  else if Str.contains "buffet" br_norm then "Buffet"
  else if Str.contains "full" br_norm || Str.contains "english" br_norm
  then "Full English"
  else (* fallback: capitalize nicely *) Str.capitalize br.

Definition extract_breakfast (text : string) : option string :=
  match breakfast_token text with
  | Some br => if Str.truthy br then Some (normalize_breakfast br) else None
  | None => None
  end.

(** The payment token found in the text, before normalization. *)
Definition payment_token (text : string) : option string :=
  let pay :=
    match search true (Word (Grp 1 (AltLits PAYMENT_WORDS))) text with
    | Some pay_m => Some (group_text 1 pay_m)
    | None => None
    end in
  if found true (Word (Lit "payment")) text
     && negb (match pay with Some p => Str.truthy p | None => false end)
  then
    match search true PAYMENT_SCOPED text with
    | Some m2 => Some (group_text 1 m2)
    | None => pay
    end
  else pay.

Definition normalize_payment (pay : string) : string :=
  let pm := Str.lower pay in
  match dict_get pm payment_mapping with
  | Some v => v
  | None => Str.title pay
  end.

Definition extract_payment (text : string) : option string :=
  match payment_token text with
  | Some pay => if Str.truthy pay then Some (normalize_payment pay) else None
  | None => None
  end.

Section Extractor.
(** The spaCy pipeline: the entities of [nlp(text).ents], in order. *)
Variable nlp : string -> list entity.
(** [dateparser.search.search_dates(text, settings={'PREFER_DATES_FROM': 'future'})]:
    [None], or the date phrases found with their parsed values. *)
Variable search_dates : string -> option (list (string * datetime)).
(** [dateparser.parse(s, settings=...)] *)
Variable parse_date : settings -> string -> option datetime.
(** [datetime.now()], read once for the whole turn. *)
Variable today : datetime.

Definition ents_with (label : string) (text : string) : list string :=
  map ent_text (List.filter (fun e => String.eqb (label_ e) label) (nlp text)).

(** NAME via spaCy PERSON or phrasing like "I'm X". *)
Definition extract_name (text : string) : option string :=
  match ents_with "PERSON" text with
  | p :: _ => Some (Str.strip p)
  | [] =>
      match search false NAME_PHRASE text with
      | Some m => Some (Str.strip (group_text 1 m))
      | None => None
      end
  end.

(** The first cardinal that [int] reads once non-digits are stripped;
    [int] raises on the others (no digit left, or more than 4300) and the
    loop moves on. *)
Fixpoint first_cardinal (cardinals : list string) : option Z :=
  match cardinals with
  | [] => None
  | c :: cs =>
      match Str.int_of (Str.filter_chars Str.is_digit c) with
      | Some val => Some val
      | None => first_cardinal cs
      end
  end.

(** Truth value of an optional integer: set and non-zero. *)
Definition truthy_int (o : option Z) : bool :=
  match o with Some n => negb (n =? 0) | None => false end.

(** GUESTS via CARDINAL or explicit phrase.  The [int] of the phrase is
    not guarded: [None] is its ValueError. *)
Definition extract_guests (text : string) : option (option Z) :=
  let guests := first_cardinal (ents_with "CARDINAL" text) in
  if negb (truthy_int guests) then
    match search true GUESTS_PHRASE text with
    | Some m =>
        match Str.int_of (group_text 1 m) with
        | Some val => Some (Some val)
        | None => None
        end
    | None => Some guests
    end
  else Some guests.

Definition normalize_all (dates : option (list (string * datetime)))
  : list (string * datetime) :=
  match dates with
  | Some l =>
      map (fun d => (fst d, _closest_year_for_month_day today (snd d) (fst d))) l
  | None => []
  end.

(** Lines 193-231: the dates found by [search_dates].  [None] is an
    exception: the TypeError of comparing a naive with an aware datetime,
    the ValueError of [int], or the OverflowError of
    [checkin + timedelta(days=nights)]. *)
Definition extract_found_dates (text : string) (extracted : Extracted)
  : option Extracted :=
  let normalized := normalize_all (search_dates text) in
  match map snd normalized with
  | [] => Some extracted
  | d0 :: d1 :: _ =>
      match dt_lt d1 d0 with
      | Some swap =>
          let checkin := if swap then d1 else d0 in
          let checkout := if swap then d0 else d1 in
          Some (set_dates extracted checkin checkout
                  (Z.max 1 (days_between checkout checkin)))
      | None => None
      end
  | [checkin] =>
      (* "for X nights" *)
      match search true FOR_NIGHTS text with
      | Some m =>
          match Str.int_of (group_text 1 m) with
          | Some nights =>
              match add_days checkin nights with
              | Some checkout =>
                  Some (set_dates extracted checkin checkout nights)
              | None => None
              end
          | None => None
          end
      | None =>
          (* Try to parse a trailing "to <date>" after the first date *)
          match search false TRAILING_DATE text with
          | Some m2 =>
              match parse_date Prefer_future (group_text 1 m2) with
              | Some second_candidate =>
                  let second_candidate :=
                    _closest_year_for_month_day today second_candidate
                      (group_text 1 m2) in
                  (* ensure reasonable ordering *)
                  match dt_lt second_candidate checkin with
                  | Some before =>
                      let second_candidate :=
                        if before
                        then _closest_year_for_month_day today
                               second_candidate (group_text 1 m2)
                        else second_candidate in
                      Some (set_dates extracted checkin second_candidate
                              (Z.max 1 (days_between second_candidate checkin)))
                  | None => None
                  end
              | None => Some (set_checkin extracted checkin)
              end
          | None => Some (set_checkin extracted checkin)
          end
      end
  end.

(** Lines 233-251: the fallback for a direct range like "Jan 12-15".
    [None] is the TypeError of comparing a naive with an aware datetime. *)
Definition extract_range (text : string) (extracted : Extracted)
  : option Extracted :=
  match search false DATE_RANGE text, x_checkin extracted with
  | Some range_m, None =>
      match parse_date Default_settings (group_text 1 range_m),
            parse_date Default_settings (group_text 2 range_m) with
      | Some d1, Some d2 =>
          let d1 :=
            if negb (found false EXPLICIT_YEAR (group_text 1 range_m))
            then _closest_year_for_month_day today d1 (group_text 1 range_m)
            else d1 in
          let d2 :=
            if negb (found false EXPLICIT_YEAR (group_text 2 range_m))
            then _closest_year_for_month_day today d2 (group_text 2 range_m)
            else d2 in
          match dt_lt d2 d1 with
          | Some swap =>
              let lo := if swap then d2 else d1 in
              let hi := if swap then d1 else d2 in
              Some (set_dates extracted lo hi (Z.max 1 (days_between hi lo)))
          | None => None
          end
      | _, _ => Some extracted
      end
  | _, _ => Some extracted
  end.

(** [extract_entities(text)]; [None] stands for an exception that leaves
    the function. *)
Definition extract_entities (text : string) : option Extracted :=
  if negb (Str.truthy text) then Some no_entities
  else
    match extract_guests text with
    | None => None
    | Some guests =>
        let extracted :=
          mk_extracted (extract_name text) guests (extract_breakfast text)
            (extract_payment text) None None None in
        (* DATES: skip date parsing if the whole message appears to be a
           name *)
        if looks_like_name_response text && negb (found true NAME_CUE text)
        then Some extracted
        else
          match extract_found_dates text extracted with
          | Some extracted' => extract_range text extracted'
          | None => None
          end
    end.
End Extractor.

(** ** [models.py]: the [bookings] table *)

Record Booking : Type := mk_booking {
  id : Z;
  session_id : string;          (* to map pending booking to user session *)
  guest_name : option string;
  checkin : option datetime;
  checkout : option datetime;
  nights : option Z;
  guests : option Z;
  breakfast : option string;
  payment_method : option string;
  confirmed : bool;
  notes : option string;
  created_at : datetime
}.

(** The table, keyed by the primary key [id]. *)
Abbreviation DB := (gmap Z Booking).

Definition set_guest_name (v : option string) (b : Booking) : Booking :=
  mk_booking (id b) (session_id b) v (checkin b) (checkout b) (nights b)
    (guests b) (breakfast b) (payment_method b) (confirmed b) (notes b)
    (created_at b).

Definition set_checkin_b (v : option datetime) (b : Booking) : Booking :=
  mk_booking (id b) (session_id b) (guest_name b) v (checkout b) (nights b)
    (guests b) (breakfast b) (payment_method b) (confirmed b) (notes b)
    (created_at b).

Definition set_checkout_b (v : option datetime) (b : Booking) : Booking :=
  mk_booking (id b) (session_id b) (guest_name b) (checkin b) v (nights b)
    (guests b) (breakfast b) (payment_method b) (confirmed b) (notes b)
    (created_at b).

Definition set_nights (v : option Z) (b : Booking) : Booking :=
  mk_booking (id b) (session_id b) (guest_name b) (checkin b) (checkout b) v
    (guests b) (breakfast b) (payment_method b) (confirmed b) (notes b)
    (created_at b).

Definition set_guests (v : option Z) (b : Booking) : Booking :=
  mk_booking (id b) (session_id b) (guest_name b) (checkin b) (checkout b)
    (nights b) v (breakfast b) (payment_method b) (confirmed b) (notes b)
    (created_at b).

Definition set_breakfast (v : option string) (b : Booking) : Booking :=
  mk_booking (id b) (session_id b) (guest_name b) (checkin b) (checkout b)
    (nights b) (guests b) v (payment_method b) (confirmed b) (notes b)
    (created_at b).

Definition set_payment_method (v : option string) (b : Booking) : Booking :=
  mk_booking (id b) (session_id b) (guest_name b) (checkin b) (checkout b)
    (nights b) (guests b) (breakfast b) v (confirmed b) (notes b)
    (created_at b).

Definition set_confirmed (v : bool) (b : Booking) : Booking :=
  mk_booking (id b) (session_id b) (guest_name b) (checkin b) (checkout b)
    (nights b) (guests b) (breakfast b) (payment_method b) v (notes b)
    (created_at b).

Definition set_notes (v : option string) (b : Booking) : Booking :=
  mk_booking (id b) (session_id b) (guest_name b) (checkin b) (checkout b)
    (nights b) (guests b) (breakfast b) (payment_method b) (confirmed b) v
    (created_at b).

(** [db.add(b); db.commit(); db.refresh(b)]: the row is written under its
    primary key and read back unchanged. *)
Definition commit (b : Booking) (db : DB) : DB := <[id b := b]> db.

(** [db.query(Booking).filter_by(id=bid).first()] *)
Definition find_by_id (bid : Z) (db : DB) : option Booking := db !! bid.

(** The next primary key: one more than the largest in the table. *)
Definition next_id (db : DB) : Z :=
  1 + foldr Z.max 0 (map fst (map_to_list db)).

(** The later of two rows by [created_at]; the earlier-listed row wins a
    tie (SQL leaves the order of ties open). *)
Definition later (best b : Booking) : Booking :=
  if dt_ltb (created_at best) (created_at b) then b else best.

(** [.order_by(Booking.created_at.desc()).first()] *)
Definition latest (rows : list Booking) : option Booking :=
  match rows with
  | [] => None
  | b :: rest => Some (fold_left later rest b)
  end.

(** [filter_by(session_id=session, confirmed=False)] *)
Definition is_pending_for (session : string) (b : Booking) : bool :=
  String.eqb (session_id b) session && negb (confirmed b).

Definition find_pending (session : string) (db : DB) : option Booking :=
  latest (List.filter (is_pending_for session) (map snd (map_to_list db))).

(** ** [app.py] *)

(** The JSON object [booking_to_dict] builds. *)
Record booking_dict : Type := mk_booking_dict {
  d_id : Z;
  d_session_id : string;
  d_guest_name : option string;
  d_checkin : option string;
  d_checkout : option string;
  d_nights : option Z;
  d_guests : option Z;
  d_breakfast : option string;
  d_payment_method : option string;
  d_confirmed : bool;
  d_notes : option string
}.

Definition booking_to_dict (b : Booking) : booking_dict :=
  mk_booking_dict (id b) (session_id b) (guest_name b)
    (option_map isoformat (checkin b)) (option_map isoformat (checkout b))
    (nights b) (guests b) (breakfast b) (payment_method b) (confirmed b)
    (notes b).

(** What a view returns. *)
Inductive response : Type :=
| Error_response (status : Z) (error : string) (booking : option booking_dict)
| Turn_response (reply : string) (booking : booking_dict)
    (all_required_present : bool)
| Booking_response (booking : booking_dict)
| Unhandled_exception.

(** Truth values of the optional columns. *)
Definition truthy_str (o : option string) : bool :=
  match o with Some s => Str.truthy s | None => false end.

Definition truthy_num (o : option Z) : bool :=
  match o with Some n => negb (n =? 0) | None => false end.

Definition is_set {A : Type} (o : option A) : bool :=
  match o with Some _ => true | None => false end.

(** [a or ""] *)
Definition or_empty (o : option string) : string :=
  match o with Some s => s | None => EmptyString end.

Definition newline : string := String (ascii_of_nat 10) EmptyString.

(** An [Integer] column of SQLite holds a signed 64-bit value: binding a
    larger [int] raises OverflowError at [db.commit()]. *)
Definition sqlite_int_ok (o : option Z) : bool :=
  match o with
  | Some n => (- 2 ^ 63 <=? n) && (n <? 2 ^ 63)
  | None => true
  end.

Definition compute_missing (b : Booking) : list string :=
  ((if negb (truthy_str (guest_name b)) then ["name"] else [])
   ++ (if negb (is_set (checkin b)
                && (is_set (checkout b) || truthy_num (nights b)))
       then ["dates"] else [])
   ++ (if negb (truthy_num (guests b)) then ["number of guests"] else []))%list.

(** One [if extracted.get(key): booking.field = extracted[key];
    changed_fields.append(field)] of the merge. *)
Definition merge_field {A : Type} (present : option A -> bool) (v : option A)
  (set : option A -> Booking -> Booking) (field : string)
  (acc : Booking * list string) : Booking * list string :=
  if present v then (set v (fst acc), (snd acc ++ [field])%list) else acc.

(** Lines 86-111: merge extracted into booking where present, as the
    draft reads after [db.commit()] and [db.refresh(booking)]: a
    [DateTime] column comes back without its time zone. *)
Definition merge_extracted (extracted : Extracted) (booking : Booking)
  : Booking * list string :=
  let acc := (booking, []) in
  let acc := merge_field truthy_str (x_name extracted) set_guest_name "guest_name" acc in
  let acc := merge_field truthy_num (x_guests extracted) set_guests "guests" acc in
  let acc := merge_field is_set (option_map as_stored (x_checkin extracted))
               set_checkin_b "checkin" acc in
  let acc := merge_field is_set (option_map as_stored (x_checkout extracted))
               set_checkout_b "checkout" acc in
  let acc := merge_field truthy_num (x_nights extracted) set_nights "nights" acc in
  let acc := merge_field truthy_str (x_breakfast extracted) set_breakfast "breakfast" acc in
  merge_field truthy_str (x_payment_method extracted) set_payment_method
    "payment_method" acc.

(** A JSON value of the request body, as far as the view tells values
    apart: a string, or a value of another type with its truth value
    ([null], [false], [0] and the empty list and object are falsy). *)
Inductive json_value : Type :=
| J_string (s : string)
| J_other (truthy : bool).

(** [data.get("message") or ""], before [.strip()] is called on it: a
    string, or [None] for the AttributeError that [.strip()] raises on a
    truthy value that is not a string. *)
Definition message_text (message : option json_value)
  : option (option string) :=
  match message with
  | None => Some None
  | Some (J_string s) => Some (Some s)
  | Some (J_other false) => Some None
  | Some (J_other true) => None
  end.

Section App.
Variable nlp : string -> list entity.
Variable search_dates : string -> option (list (string * datetime)).
Variable parse_date : settings -> string -> option datetime.
(** [datetime.now()] and [datetime.utcnow()] at the time of the request. *)
Variable today : datetime.
Variable utcnow : datetime.

Definition get_or_create_pending (session : string) (db : DB)
  : Booking * DB :=
  match find_pending session db with
  | Some pending => (pending, db)
  | None =>
      let pending :=
        mk_booking (next_id db) session None None None None None None None
          false None utcnow in
      (pending, commit pending db)
  end.

(** The normal conversational flow, lines 134-168. *)
Definition conversational_reply (booking : Booking)
  (changed_fields : list string) : string * bool :=
  let missing := compute_missing booking in
  let all_required_present := (List.length missing =? 0)%nat in
  let reply :=
    match changed_fields with
    | [] => EmptyString
    | _ =>
        "Got it — I updated: "
        ++ Str.join ", " (map (Str.replace_char "_" " ") changed_fields)
        ++ ". "
    end in
  if all_required_present then
    if existsb (fun f => mem f ["breakfast"; "payment_method"]) changed_fields
    then
      (Str.strip
         (reply ++ "Would you like to confirm this booking now? Reply 'confirm' to finish, or change breakfast/payment if needed."),
       true)
    else
      (Str.strip
         (reply ++ "I have the full booking details. Would you like to add breakfast or a payment method before confirming? "
                ++ "Reply 'breakfast: Continental, American or English' or 'payment: card, cash, crypto etc', or reply 'confirm' to finish."),
       true)
  else
    (* missing required fields: ask for the first one *)
    let first := match missing with f :: _ => f | [] => EmptyString end in
    let follow :=
      if Str.contains "name" first
      then "What's the name for the reservation?"
      else if Str.contains "dates" first
      then "When would you like to check in and check out? (e.g., 'June 10 to June 13' or 'next Monday for 3 nights')"
      else if Str.contains "number of guests" first
      then "How many guests will stay?"
      else "Could you provide that?" in
    (Str.strip
       (reply ++ "I still need " ++ Str.join ", " missing ++ ". " ++ follow),
     false).

(** Lines 58-111 of [handle_message]: resolve the draft, take the name
    reply or run the extractor, merge and persist.  The result is the
    table and, unless the extractor or the commit of the merge raised, the
    post-merge draft with the names of the changed fields.  An exception
    leaves the table as the draft lookup left it. *)
Definition merge_turn (text session : string) (db : DB)
  : DB * option (Booking * list string) :=
  let '(booking, db) := get_or_create_pending session db in
  (* If booking is missing a name and the reply looks like a name, set it
     directly (avoid date parser stealing it) *)
  let missing_now := compute_missing booking in
  if mem "name" missing_now && Str.truthy text
     && looks_like_name_response text
  then
    let booking := set_guest_name (Some text) booking in
    let db := commit booking db in
    (* treat as an update without running extract_entities further *)
    let '(booking, changed_fields) := merge_extracted no_entities booking in
    (commit booking db, Some (booking, changed_fields))
  else
    match extract_entities nlp search_dates parse_date today text with
    | None => (db, None)
    | Some extracted =>
        if sqlite_int_ok (x_guests extracted)
           && sqlite_int_ok (x_nights extracted)
        then
          let '(booking, changed_fields) :=
            merge_extracted extracted booking in
          (commit booking db, Some (booking, changed_fields))
        else (db, None)
    end.

(** Lines 113-168 of [handle_message]: the branch on the intent. *)
Definition respond (intent_ : intent) (booking : Booking)
  (changed_fields : list string) (db : DB) : DB * response :=
  match intent_ with
  | confirm =>
      let missing := compute_missing booking in
      match missing with
      | _ :: _ =>
          (db,
           Turn_response
             ("I need a few more details before I can confirm: "
              ++ Str.join ", " missing ++ ". Could you provide them?")
             (booking_to_dict booking) false)
      | [] =>
          let booking := set_confirmed true booking in
          let booking :=
            set_notes
              (Some (or_empty (notes booking) ++ newline
                     ++ "Confirmed at " ++ isoformat utcnow))
              booking in
          (commit booking db,
           Turn_response
             ("Thanks " ++ or_empty (guest_name booking)
              ++ "! Your booking is confirmed.")
             (booking_to_dict booking) true)
      end
  | cancel =>
      let booking :=
        set_notes
          (Some (or_empty (notes booking) ++ newline
                 ++ "Cancelled by user at " ++ isoformat utcnow))
          booking in
      (commit booking db,
       Turn_response
         "Okay — I have canceled the current booking draft. If you'd like to start again, say 'I want to book'."
         (booking_to_dict booking) false)
  | _ =>
      let '(reply, all_required_present) :=
        conversational_reply booking changed_fields in
      (db, Turn_response reply (booking_to_dict booking) all_required_present)
  end.

(** [handle_message], from the parsed request body: the [message] and
    [session_id] entries of the JSON object, which are strings ([None]
    when absent or null).  [Unhandled_exception] is an exception that
    leaves the view. *)
Definition handle_message (message session_id : option string) (db : DB)
  : DB * response :=
  let text := Str.strip (or_empty message) in
  if negb (truthy_str session_id)
  then (db, Error_response 400 "session_id required" None)
  else
    match merge_turn text (or_empty session_id) db with
    | (db, None) => (db, Unhandled_exception)
    | (db, Some (booking, changed_fields)) =>
        respond (detect_intent text) booking changed_fields db
    end.

(** The view on a body whose [message] entry is of any JSON type: the
    text is read, and [.strip()] called on it, before the session id is
    looked at and before anything is read from the table. *)
Definition handle_request (message : option json_value)
  (session_id : option string) (db : DB) : DB * response :=
  match message_text message with
  | Some message => handle_message message session_id db
  | None => (db, Unhandled_exception)
  end.

Definition confirm_booking (bid : Z) (db : DB) : DB * response :=
  match find_by_id bid db with
  | None => (db, Error_response 404 "booking not found" None)
  | Some b =>
      if negb (truthy_str (guest_name b)) || negb (is_set (checkin b))
         || negb (truthy_num (guests b))
      then (db, Error_response 400 "Booking missing required fields"
                  (Some (booking_to_dict b)))
      else
        let b := set_confirmed true b in
        (commit b db,
         Turn_response "Booking confirmed. Thank you!" (booking_to_dict b)
           true)
  end.

Definition get_booking (bid : Z) (db : DB) : DB * response :=
  match find_by_id bid db with
  | None => (db, Error_response 404 "booking not found" None)
  | Some b => (db, Booking_response (booking_to_dict b))
  end.
End App.

(** ** Definitions for the statements *)

(** *** The classifier in the words of the specification *)

(** [P] holds at some position of the text: [pv] is the character before
    the position and the string is what follows it. *)
Fixpoint any_pos (P : option ascii -> string -> bool) (pv : option ascii)
  (s : string) : bool :=
  P pv s ||
  match s with
  | EmptyString => false
  | String c t => any_pos P (Some c) t
  end.

(** The word [w] starts here, with no word character right before it and
    none right after it. *)
Definition word_here (w : string) (pv : option ascii) (s : string) : bool :=
  negb (wordish pv)
  && match Str.drop_prefix w s with
     | Some after => negb (wordish (next_char after))
     | None => false
     end.

(** [w] occurs in [s] as a word of its own. *)
Definition has_word (w s : string) : bool := any_pos (word_here w) None s.

(** [s] begins with the word [w]. *)
Definition starts_with_word (w s : string) : bool :=
  match Str.drop_prefix w s with
  | Some after => negb (wordish (next_char after))
  | None => false
  end.

(** Every character of [s] is of class [p]. *)
Fixpoint all_chars (p : ascii -> bool) (s : string) : bool :=
  match s with
  | EmptyString => true
  | String c t => p c && all_chars p t
  end.

(** A text of 7-bit ASCII characters. *)
Definition ascii_text (s : string) : bool :=
  all_chars (fun c => Str.code c <? 128) s.

(** The vocabularies. *)
Definition confirm_words : list string :=
  ["confirm"; "yes"; "yep"; "sure"; "ok"; "all set"].
Definition confirm_phrases : list string :=
  ["that's fine"; "that works"; "looks good"].
Definition cancel_words : list string :=
  ["cancel"; "forget"; "no longer"; "never mind"].
Definition book_words : list string :=
  ["book"; "reserve"; "reservation"; "stay"; "booking"].
Definition greet_openers : list string := ["hi"; "hello"; "hey"].
Definition greet_phrases : list string :=
  ["good morning"; "good afternoon"; "good evening"].
Definition booking_cues : list string :=
  ["night"; "guest"; "people"; "from"; "to"].

(** The ordered precedence of the specification, on the lower-cased
    utterance.  [bounded_phrases] chooses how the three confirm phrases are
    matched: at word boundaries like the six confirm words, or anywhere in
    the text. *)
Definition classify (bounded_phrases : bool) (text : string) : intent :=
  if all_chars Str.is_space text then unknown
  else
    let t := Str.lower text in
    if existsb (fun w => has_word w t) confirm_words
       || existsb (fun p => if bounded_phrases then has_word p t
                            else Str.contains p t) confirm_phrases
    then confirm
    else if existsb (fun w => has_word w t) cancel_words then cancel
    else if existsb (fun w => has_word w t) book_words then book
    else if existsb (fun w => starts_with_word w t) greet_openers
            || existsb (fun p => Str.contains p t) greet_phrases
    then greet
    else if Str.existsb_chars Str.is_digit t
            && existsb (fun k => Str.contains k t) booking_cues
    then book
    else unknown.

(** The last character of [w], or [pv] when [w] is empty. *)
Fixpoint last_char (pv : option ascii) (w : string) : option ascii :=
  match w with
  | EmptyString => pv
  | String c w' => last_char (Some c) w'
  end.

(** A word that begins and ends with a word character. *)
Definition word_edged (w : string) : bool :=
  wordish (next_char w) && wordish (last_char None w).

(** The pattern matches at this position. *)
Definition hit (r : regex) (pv : option ascii) (s : string) : bool :=
  is_set (match_at false r pv s).

(** *** Name-likeness in the words of the specification *)

(** The maximal runs of characters of class [p] in [s], in order; [cur] is
    the run being read. *)
Fixpoint runs (p : ascii -> bool) (cur : string) (s : string) : list string :=
  match s with
  | EmptyString => if Str.truthy cur then [cur] else []
  | String c t =>
      if p c then runs p (cur ++ String c EmptyString) t
      else (if Str.truthy cur then [cur] else []) ++ runs p EmptyString t
  end%list.

(** The alphabetic tokens of [s]. *)
Definition alpha_tokens (s : string) : list string :=
  runs Str.is_alpha EmptyString s.

(** An utterance looks like a name iff, once stripped, it is not empty, has
    no digit, slash, backslash, hyphen or colon, has one to three
    alphabetic tokens, and none of them is a directive word in any case. *)
Definition looks_like_name (text : string) : bool :=
  let s := Str.strip text in
  Str.truthy s
  && negb (Str.existsb_chars structured_char s)
  && (1 <=? Z.of_nat (List.length (alpha_tokens s)))
  && (Z.of_nat (List.length (alpha_tokens s)) <=? 3)
  && negb (existsb (fun t => mem (Str.lower t) directives) (alpha_tokens s)).

(** Where a greedy run of class [p] ends. *)
Fixpoint skip_run (p : ascii -> bool) (pv : option ascii) (s : string)
  : option ascii * string :=
  match s with
  | String c t => if p c then skip_run p (Some c) t else (pv, s)
  | EmptyString => (pv, s)
  end.

(** *** Well-formed tables *)

(** Every row is stored under its own primary key. *)
Definition wf_db (db : DB) : Prop :=
  forall k b, db !! k = Some b -> id b = k.

(** The columns no merge touches. *)
Definition same_row_identity (b0 b : Booking) : Prop :=
  id b = id b0 /\ session_id b = session_id b0 /\ confirmed b = confirmed b0
  /\ notes b = notes b0 /\ created_at b = created_at b0.

(** *** Snapshots *)

(** The columns the extractor can fill, apart from the guest name. *)
Definition same_extracted_columns (d1 d2 : booking_dict) : Prop :=
  d_checkin d1 = d_checkin d2 /\ d_checkout d1 = d_checkout d2
  /\ d_nights d1 = d_nights d2 /\ d_guests d1 = d_guests d2
  /\ d_breakfast d1 = d_breakfast d2
  /\ d_payment_method d1 = d_payment_method d2.

(** *** The breakfast cues *)

(** The cue patterns of the breakfast stage all fail on the text. *)
Definition no_preference_cue (text : string) : bool :=
  negb (is_set (search true BREAKFAST_TOKEN text))
  && negb (found true (Seq [AltLits ["include"; "included"; "with"];
                            Plus space; Lit "breakfast"]) text)
  && negb (found true (Seq [AltLits ["no"; "without"; "none"];
                            Plus space; Lit "breakfast"]) text)
  && negb (found true (Lit "continental") text)
  && negb (found true (Lit "buffet") text)
  && negb (found true (Alt (Seq [Lit "full"; Plus space; Lit "english"])
                         (Alt (Lit "fullenglish") (Lit "full english")))
             text).

(** None of the words [ws] occurs in the text, in any case and at any
    place (inside a longer word too). *)
Definition none_occurs (ws : list string) (text : string) : bool :=
  forallb (fun w => negb (Str.contains w (Str.lower text))) ws.

(** The cues C10 lists. *)
Definition claimed_breakfast_cues : list string :=
  ["yes"; "no"; "included"; "without"; "continental"; "buffet";
   "full english"; "full-english"].

(** The cues the breakfast stage reacts to: every token and keyword of its
    patterns has one of these in it ("none" has "no", "included" has
    "include", "without" has "with", "full english" has "full"). *)
Definition breakfast_cues : list string :=
  ["yes"; "no"; "include"; "with"; "continental"; "american"; "buffet";
   "full"; "english"].

(** C10 as stated: the standalone word "breakfast" without any of the
    listed cues always gives "Unspecified". *)
Definition breakfast_fallback_as_claimed : Prop :=
  forall nlp search_dates parse_date today text e,
    has_word "breakfast" (Str.lower text) = true ->
    none_occurs claimed_breakfast_cues text = true ->
    extract_entities nlp search_dates parse_date today text = Some e ->
    x_breakfast e = Some "Unspecified".

(** The columns the date stages leave alone. *)
Definition same_non_date_fields (e1 e2 : Extracted) : Prop :=
  x_name e1 = x_name e2 /\ x_guests e1 = x_guests e2
  /\ x_breakfast e1 = x_breakfast e2
  /\ x_payment_method e1 = x_payment_method e2.

(** *** The normalizer rule *)

(** The three years tried around the current one. *)
Definition nearby_years (today : datetime) : list Z :=
  [year today - 1; year today; year today + 1].

(** The rule as the specification words it: with an explicit year the date
    is returned unchanged; otherwise the result is one of the valid
    year-substituted dates and none of them is nearer to now. *)
Definition normalizer_rule_as_specified (today d : datetime) (t : string)
  : Prop :=
  let r := _closest_year_for_month_day today d t in
  (found false EXPLICIT_YEAR t = true -> r = d)
  /\ (found false EXPLICIT_YEAR t = false ->
      (exists y, In y (nearby_years today) /\ candidate d y = Some r)
      /\ forall y c, In y (nearby_years today) -> candidate d y = Some c ->
           distance today r <= distance today c).

(** *** Calendar order *)

(** The extra day of a leap year. *)
Definition leap_days (y : Z) : Z := if is_leap y then 1 else 0.

(** Calendar order of two dates. *)
Definition date_lt (y1 m1 d1 y2 m2 d2 : Z) : Prop :=
  y1 < y2 \/ (y1 = y2 /\ (m1 < m2 \/ (m1 = m2 /\ d1 < d2))).

(** The month and day of the [n]-th day (from 0) of a year, as [ord2ymd]
    computes them. *)
Definition month_day (leapyear : bool) (n : Z) : Z * Z :=
  let m := Z.shiftr (n + 50) 5 in
  let preceding :=
    DAYS_BEFORE_MONTH m + (if (2 <? m) && leapyear then 1 else 0) in
  if n <? preceding
  then
    let m' := m - 1 in
    let preceding' :=
      preceding
      - (DAYS_IN_MONTH m' + (if (m' =? 2) && leapyear then 1 else 0)) in
    (m', n - preceding' + 1)
  else (m, n - preceding + 1).

(** The date part of [d] is a calendar date of the years 1 to 9999. *)
Definition valid_day (d : datetime) : bool :=
  valid_date (year d) (month d) (day d).

(** *** Date ordering and the draft invariant *)

(** [checkout >= checkin and nights == max(1, days between them)] *)
Definition dates_ok (ci co : datetime) (n : option Z) : bool :=
  dt_leb ci co
  && match n with
     | Some k => k =? Z.max 1 (days_between co ci)
     | None => false
     end.

(** The property of C1 on an extracted mapping with both dates. *)
Definition extracted_dates_ok (e : Extracted) : bool :=
  match x_checkin e, x_checkout e with
  | Some ci, Some co => dates_ok ci co (x_nights e)
  | _, _ => true
  end.

(** The invariant of C3 on a stored draft with both dates. *)
Definition date_invariant (b : Booking) : bool :=
  match checkin b, checkout b with
  | Some ci, Some co => dates_ok ci co (nights b)
  | _, _ => true
  end.

(** [P] holds of every stored row. *)
Definition all_rows (P : Booking -> bool) (db : DB) : Prop :=
  forall k b, db !! k = Some b -> P b = true.

(** An extraction that says nothing about the stay, or gives check-in,
    check-out and nights together and consistently. *)
Definition dates_all_or_none (e : Extracted) : bool :=
  match x_checkin e, x_checkout e with
  | None, None => negb (truthy_num (x_nights e))
  | Some ci, Some co => dates_ok ci co (x_nights e)
  | _, _ => false
  end.

(** The invariant as C3 states it: kept by every turn. *)
Definition invariant_kept_by_every_turn : Prop :=
  forall nlp search_dates parse_date today utcnow message session_id db,
    all_rows date_invariant db ->
    all_rows date_invariant
      (fst (handle_message nlp search_dates parse_date today utcnow
              message session_id db)).

(** *** Cancelling *)

(** The cancel branch as C7 states it: in every turn whose utterance
    classifies as cancel, the stored draft gets the cancellation note
    after its previous notes, the completeness flag is false and the
    draft stays unconfirmed. *)
Definition cancel_always_appends : Prop :=
  forall nlp search_dates parse_date today utcnow message sid db,
    Str.truthy sid = true ->
    detect_intent (Str.strip (or_empty message)) = cancel ->
    let b0 := fst (get_or_create_pending utcnow sid db) in
    exists db' reply bd b',
      handle_message nlp search_dates parse_date today utcnow
        message (Some sid) db
      = (db', Turn_response reply bd false)
      /\ db' !! id b0 = Some b'
      /\ notes b'
         = Some (or_empty (notes b0) ++ newline ++ "Cancelled by user at "
                 ++ isoformat utcnow)
      /\ confirmed b' = false.

(** *** The table and the dialogue *)

(** At most one unconfirmed draft per session. *)
Definition one_pending_per_session (db : DB) : Prop :=
  forall k1 k2 b1 b2,
    db !! k1 = Some b1 -> db !! k2 = Some b2 ->
    session_id b1 = session_id b2 ->
    confirmed b1 = false -> confirmed b2 = false -> k1 = k2.

(** The two invariants of the table. *)
Definition table_ok (db : DB) : Prop := wf_db db /\ one_pending_per_session db.

(** [b'] takes the place of [b]: same key, same session, and not reopened. *)
Definition same_slot (b b' : Booking) : Prop :=
  id b' = id b /\ session_id b' = session_id b
  /\ (confirmed b' = false -> confirmed b = false).

(** The draft a new session starts with. *)
Definition empty_draft (k : Z) (session : string) (now : datetime) : Booking :=
  mk_booking k session None None None None None None None false None now.

(** Name, dates and guests are all on the snapshot. *)
Definition snapshot_complete (d : booking_dict) : bool :=
  truthy_str (d_guest_name d)
  && (is_set (d_checkin d) && (is_set (d_checkout d) || truthy_num (d_nights d)))
  && truthy_num (d_guests d).

(** What a merge keeps of the three required slots: a slot that is
    filled stays filled. *)
Definition slots_kept (b b' : Booking) : Prop :=
  (truthy_str (guest_name b) = true -> truthy_str (guest_name b') = true)
  /\ (is_set (checkin b) && (is_set (checkout b) || truthy_num (nights b))
      = true ->
      is_set (checkin b') && (is_set (checkout b') || truthy_num (nights b'))
      = true)
  /\ (truthy_num (guests b) = true -> truthy_num (guests b') = true).

(** *** The reach of the normalizer *)

(** One day, in microseconds. *)
Definition DAY_US : Z := 86400000000.

(** *** What a match tells about the text *)

(** [reaches ic r st st']: the pattern [r] can take the matcher from the
    position [st] to the position [st']. *)
Fixpoint reaches (ic : bool) (r : regex) (st st' : mstate) : Prop :=
  match r with
  | Eps => st' = st
  | Lit s =>
      eat ic s (prev st) (rest st) = Some (prev st', rest st')
      /\ caps st' = caps st
  | Cls p =>
      exists c, rest st = String c (rest st') /\ cls_ok ic p c = true
                /\ prev st' = Some c /\ caps st' = caps st
  | Cat r1 r2 => exists mid, reaches ic r1 st mid /\ reaches ic r2 mid st'
  | Alt r1 r2 => reaches ic r1 st st' \/ reaches ic r2 st st'
  | Star r1 => rtc (reaches ic r1) st st'
  | Grp i r1 =>
      exists st1, reaches ic r1 st st1
                  /\ st' = MState (prev st1) (rest st1)
                             ((i, consumed st st1) :: caps st1)
  | Bol => prev st = None /\ st' = st
  | WordB => at_boundary st = true /\ st' = st
  end.

(** Patterns without a capturing group. *)
Fixpoint groupless (r : regex) : bool :=
  match r with
  | Cat r1 r2 | Alt r1 r2 => groupless r1 && groupless r2
  | Star r1 => groupless r1
  | Grp _ _ => false
  | _ => true
  end.

(** A non-empty run of decimal digits: what [int] accepts. *)
Definition is_number (s : string) : bool :=
  Str.truthy s && all_chars Str.is_digit s.

(** The values the breakfast and payment entries can take. *)
Definition breakfast_values : list string :=
  ["Included"; "No"; "Continental"; "Buffet"; "Full English"; "American";
   "Unspecified"].
Definition payment_values : list string :=
  ["Visa"; "Mastercard"; "PayPal"; "Cash"; "Card"; "Amex"; "Crypto"].

(** *** Well-formed stored values *)

(** [p] holds of the value, when there is one. *)
Definition when_set {A : Type} (p : A -> bool) (o : option A) : bool :=
  match o with Some x => p x | None => true end.

(** A stored row whose values are all meaningful: a non-empty name,
    positive counts, and option values from the fixed lists. *)
Definition values_ok (b : Booking) : bool :=
  when_set Str.truthy (guest_name b)
  && when_set (Z.ltb 0) (guests b)
  && when_set (Z.ltb 0) (nights b)
  && when_set (fun v => mem v breakfast_values) (breakfast b)
  && when_set (fun v => mem v payment_values) (payment_method b).

(** What the extractor hands to the merge: counts that are not negative and
    option values from the fixed lists. *)
Definition extracted_values_ok (e : Extracted) : bool :=
  when_set (Z.leb 0) (x_guests e)
  && when_set (Z.leb 0) (x_nights e)
  && when_set (fun v => mem v breakfast_values) (x_breakfast e)
  && when_set (fun v => mem v payment_values) (x_payment_method e).

(** *** Data for the examples *)

(** Stand-ins for the collaborators, used to run the program on examples. *)
Definition nlp_none (text : string) : list entity := [].
Definition search_dates_none (text : string)
  : option (list (string * datetime)) := None.
Definition parse_date_none (st : settings) (s : string) : option datetime :=
  None.
Definition clock_example : datetime := mk_datetime 2026 11 3 10 22 0 0.

Definition draft_example : Booking :=
  mk_booking 1 "s1" (Some "Dana") (Some (mk_datetime 2026 6 10 0 0 0 0))
    (Some (mk_datetime 2026 6 13 0 0 0 0)) (Some 3) (Some 2) None None false
    (Some "seen") (mk_datetime 2026 11 1 9 0 0 0).

Definition draft_no_guests : Booking :=
  mk_booking 1 "s1" (Some "Dana") (Some (mk_datetime 2026 6 10 0 0 0 0))
    (Some (mk_datetime 2026 6 13 0 0 0 0)) (Some 3) None None None false
    None (mk_datetime 2026 11 1 9 0 0 0).

Definition draft_no_name : Booking :=
  mk_booking 1 "s1" None (Some (mk_datetime 2026 6 10 0 0 0 0))
    (Some (mk_datetime 2026 6 13 0 0 0 0)) (Some 3) (Some 2) None None false
    None (mk_datetime 2026 11 1 9 0 0 0).

Definition leap_day_2024 : datetime := mk_datetime 2024 2 29 0 0 0 0.

(** The date library on "December 20 to 5", early in November 2026: the
    search reports the one phrase "December 20", and the bare day number
    "5" parses to the 5th of the current month. *)
Definition search_dates_dec20 (text : string)
  : option (list (string * datetime)) :=
  if String.eqb text "December 20 to 5"
  then Some [("December 20", mk_datetime 2026 12 20 0 0 0 0)]
  else None.

Definition parse_date_day5 (st : settings) (s : string) : option datetime :=
  if String.eqb s "5" then Some (mk_datetime 2026 11 5 0 0 0 0) else None.

(** The date library on "June 10 for 0 nights": one phrase, "June 10". *)
Definition search_dates_june10 (text : string)
  : option (list (string * datetime)) :=
  if String.eqb text "June 10 for 0 nights"
  then Some [("June 10", mk_datetime 2027 6 10 0 0 0 0)]
  else None.

(** The date library on "make it July 1": one phrase, "July 1". *)
Definition search_dates_july1 (text : string)
  : option (list (string * datetime)) :=
  if String.eqb text "make it July 1"
  then Some [("July 1", mk_datetime 2027 7 1 0 0 0 0)]
  else None.

Definition draft_continental : Booking :=
  set_breakfast (Some "Continental") draft_example.

(** The collaborators on the three utterances of a short dialogue. *)
Definition nlp_dialogue (text : string) : list entity :=
  if String.eqb text "I want to book a room for 2 guests from June 10 to June 13"
  then [Entity "2" "CARDINAL"; Entity "June 10 to June 13" "DATE"]
  else if String.eqb text "My name is Dana" then [Entity "Dana" "PERSON"]
  else [].

Definition search_dates_dialogue (text : string)
  : option (list (string * datetime)) :=
  if String.eqb text "I want to book a room for 2 guests from June 10 to June 13"
  then Some [("June 10", mk_datetime 2027 6 10 0 0 0 0);
             ("June 13", mk_datetime 2027 6 13 0 0 0 0)]
  else None.

(** One request of the dialogue, keeping the table. *)
Definition dialogue_turn (message : string) (db : DB) : DB * response :=
  handle_message nlp_dialogue search_dates_dialogue parse_date_none
    clock_example clock_example (Some message) (Some "s1") db.

(** The date library on a stay too long for the calendar. *)
Definition search_dates_long_stay (text : string)
  : option (list (string * datetime)) :=
  if String.eqb text "June 10 for 99999999999 nights"
  then Some [("June 10", mk_datetime 2027 6 10 0 0 0 0)]
  else None.

(** The date library on a cancellation that names such a stay. *)
Definition search_dates_cancel_long_stay (text : string)
  : option (list (string * datetime)) :=
  if String.eqb text "cancel, June 10 for 99999999999 nights"
  then Some [("June 10", mk_datetime 2027 6 10 0 0 0 0)]
  else None.

(** The date library on "June 10 for 3 nights": one phrase, "June 10". *)
Definition search_dates_stay (text : string)
  : option (list (string * datetime)) :=
  if String.eqb text "June 10 for 3 nights"
  then Some [("June 10", mk_datetime 2027 6 10 0 0 0 0)]
  else None.

(** The date parser on the two sides of "Jan 15 - Jan 12". *)
Definition parse_date_january (st : settings) (s : string) : option datetime :=
  if String.eqb s "Jan 12" then Some (mk_datetime 2026 1 12 0 0 0 0)
  else if String.eqb s "Jan 15" then Some (mk_datetime 2026 1 15 0 0 0 0)
  else None.

(** The match of the "for N nights" phrase in "June 10 for 3 nights". *)
Definition for_3_nights_match : mstate :=
  MState (Some "t"%char) "s" [(1%nat, "3")].

(** * Properties *)

(** ** The model on examples *)

Example re_word_ok :
  Re.found false (Re.Word (Re.Lit "ok")) "is that ok?" = true.
Proof. reflexivity. Qed.

Example re_word_inside :
  Re.found false (Re.Word (Re.Lit "ok")) "token" = false.
Proof. reflexivity. Qed.

Example re_group_greedy :
  option_map (Re.group 1)
    (Re.search true
       (Re.Seq [Re.Lit "for"; Re.Plus Re.space; Re.Grp 1 (Re.Plus Re.digit);
                Re.Plus Re.space; Re.Lit "night"])
       "a room For  12 nights") = Some (Some "12").
Proof. reflexivity. Qed.

Example re_findall_tokens :
  Re.findall false (Re.Plus (Re.Cls Str.is_alpha)) "John  O'Brien!"
  = ["John"; "O"; "Brien"].
Proof. reflexivity. Qed.

Example ordinal_2024_02_29 : Datetime.ymd2ord 2024 2 29 = 738945.
Proof. reflexivity. Qed.

Example ord2ymd_2024_02_29 : Datetime.ord2ymd 738945 = (2024, 2, 29).
Proof. reflexivity. Qed.

Example ord2ymd_last : Datetime.ord2ymd 3652059 = (9999, 12, 31).
Proof. reflexivity. Qed.

Example isoformat_example :
  Datetime.isoformat (Datetime.mk_datetime 2026 6 10 9 5 0 0)
  = "2026-06-10T09:05:00".
Proof. reflexivity. Qed.

Example detect_intent_book :
  detect_intent "I want a room for 2 guests" = book.
Proof. reflexivity. Qed.

Example looks_like_name_john : looks_like_name_response "John Carter" = true.
Proof. reflexivity. Qed.

Example looks_like_name_date : looks_like_name_response "June 10" = false.
Proof. reflexivity. Qed.

Example closest_year_example :
  _closest_year_for_month_day (mk_datetime 2026 11 3 10 0 0 0)
    (mk_datetime 2027 1 5 0 0 0 0) "Jan 5"
  = mk_datetime 2027 1 5 0 0 0 0.
Proof. reflexivity. Qed.

Example two_dates_three_nights :
  option_map (fun e => (x_checkin e, x_checkout e, x_nights e, x_guests e))
    (extract_entities nlp_dialogue search_dates_dialogue parse_date_none
       clock_example
       "I want to book a room for 2 guests from June 10 to June 13")
  = Some (Some (mk_datetime 2026 6 10 0 0 0 0),
          Some (mk_datetime 2026 6 13 0 0 0 0), Some 3, Some 2).
Proof. vm_compute. reflexivity. Qed.

Example dialogue_ends_confirmed :
  let db1 :=
    fst (dialogue_turn
           "I want to book a room for 2 guests from June 10 to June 13" ∅) in
  let db2 := fst (dialogue_turn "My name is Dana" db1) in
  exists db3 bd,
    dialogue_turn "confirm" db2
    = (db3, Turn_response "Thanks Dana! Your booking is confirmed." bd true)
    /\ d_confirmed bd = true /\ d_guests bd = Some 2
    /\ d_nights bd = Some 3.
Proof. do 2 eexists. split; [vm_compute; reflexivity|]. repeat split. Qed.

(** ** The intent classifier (C4) *)

Lemma eat_drop_prefix w pv s :
  eat false w pv s
  = match Str.drop_prefix w s with
    | Some after => Some (last_char pv w, after)
    | None => None
    end.
Proof.
  revert pv s. induction w as [|a w IH]; intros pv s; simpl; [reflexivity|].
  destruct s as [|b s]; [reflexivity|].
  unfold char_eq. destruct (Ascii.eqb_spec a b) as [->|Hne].
  - apply IH.
  - reflexivity.
Qed.

Lemma drop_prefix_next w s after :
  Str.drop_prefix w s = Some after -> w <> EmptyString ->
  next_char s = next_char w.
Proof.
  destruct w as [|a w]; [congruence|]. destruct s as [|b s]; simpl; [discriminate|].
  destruct (Ascii.eqb_spec a b) as [->|]; [reflexivity | discriminate].
Qed.

Lemma found_any_pos r s : found false r s = any_pos (hit r) None s.
Proof.
  unfold found, search. generalize (@None ascii) as pv.
  induction s as [|c s IH]; intros pv; simpl; unfold hit.
  - destruct (match_at false r pv EmptyString); reflexivity.
  - destruct (match_at false r pv (String c s)); simpl; [reflexivity|].
    apply IH.
Qed.

Lemma any_pos_ext P Q pv s :
  (forall pv s, P pv s = Q pv s) -> any_pos P pv s = any_pos Q pv s.
Proof.
  intros H. revert pv. induction s as [|c s IH]; intros pv; simpl.
  - by rewrite H.
  - by rewrite H, IH.
Qed.

Lemma any_pos_or P Q pv s :
  any_pos (fun pv s => P pv s || Q pv s) pv s
  = any_pos P pv s || any_pos Q pv s.
Proof.
  revert pv. induction s as [|c s IH]; intros pv; simpl.
  - by rewrite !orb_false_r.
  - rewrite IH. destruct (P pv _), (Q pv _); simpl; try reflexivity;
      by rewrite ?orb_true_r.
Qed.

Lemma contains_any_pos p pv s :
  Str.contains p s = any_pos (fun _ s => Str.startswith p s) pv s.
Proof.
  revert pv. induction s as [|c s IH]; intros pv; simpl; [reflexivity|].
  by rewrite (IH (Some c)).
Qed.

Lemma hit_word w pv s :
  word_edged w = true -> hit (Word (Lit w)) pv s = word_here w pv s.
Proof.
  intros Hw. unfold hit, match_at, Word, word_here. cbn [mre prev rest caps].
  rewrite eat_drop_prefix. unfold word_edged in Hw.
  apply andb_true_iff in Hw as [Hfirst Hlast].
  unfold at_boundary. cbn [prev rest].
  destruct (Str.drop_prefix w s) as [after|] eqn:Hd.
  - assert (Hne : w <> EmptyString) by (intros ->; discriminate Hfirst).
    rewrite (drop_prefix_next _ _ _ Hd Hne), Hfirst.
    assert (Hl : wordish (last_char pv w) = true).
    { destruct w as [|a w]; [done|]. exact Hlast. }
    rewrite Hl. destruct (wordish pv); simpl; [reflexivity|].
    destruct (wordish (next_char after)); reflexivity.
  - destruct (xorb _ _); [|by rewrite andb_false_r].
    by rewrite andb_false_r.
Qed.

Lemma found_word w s :
  word_edged w = true -> found false (Word (Lit w)) s = has_word w s.
Proof.
  intros Hw. rewrite found_any_pos. unfold has_word.
  apply any_pos_ext. intros. by apply hit_word.
Qed.

Lemma hit_lit p pv s : hit (Lit p) pv s = Str.startswith p s.
Proof.
  unfold hit, match_at, Str.startswith. cbn [mre prev rest caps].
  rewrite eat_drop_prefix. destruct (Str.drop_prefix p s); reflexivity.
Qed.

Lemma found_lit p s : found false (Lit p) s = Str.contains p s.
Proof.
  rewrite found_any_pos, (contains_any_pos p None).
  apply any_pos_ext. intros. apply hit_lit.
Qed.

Lemma drop_prefix_app a b s :
  Str.drop_prefix (a ++ b) s
  = match Str.drop_prefix a s with
    | Some after => Str.drop_prefix b after
    | None => None
    end.
Proof.
  revert s. induction a as [|c a IH]; intros s; simpl; [reflexivity|].
  destruct s as [|d s]; [reflexivity|].
  destruct (Ascii.eqb c d); [apply IH | reflexivity].
Qed.

Lemma startswith_app a b s :
  Str.startswith (a ++ b) s
  = match Str.drop_prefix a s with
    | Some after => Str.startswith b after
    | None => false
    end.
Proof.
  unfold Str.startswith. rewrite drop_prefix_app.
  destruct (Str.drop_prefix a s); reflexivity.
Qed.

Lemma hit_opener w pv s :
  wordish (last_char None w) = true -> w <> EmptyString ->
  hit (Seq [Bol; Lit w; WordB]) pv s
  = match pv with
    | None => starts_with_word w s
    | Some _ => false
    end.
Proof.
  intros Hlast Hne. unfold hit, match_at, Seq, starts_with_word.
  cbn [fold_right mre prev rest caps].
  destruct pv as [c|]; [reflexivity|].
  rewrite eat_drop_prefix.
  destruct (Str.drop_prefix w s) as [after|]; [|reflexivity].
  unfold at_boundary. cbn [prev rest]. rewrite Hlast.
  destruct (wordish (next_char after)); reflexivity.
Qed.

Lemma any_pos_false P pv s :
  (forall pv s, P (Some pv) s = false) ->
  any_pos P (Some pv) s = false.
Proof.
  intros H. revert pv. induction s as [|c s IH]; intros pv; simpl.
  - by rewrite H.
  - by rewrite H, IH.
Qed.

Lemma found_opener w s :
  wordish (last_char None w) = true -> w <> EmptyString ->
  found false (Seq [Bol; Lit w; WordB]) s = starts_with_word w s.
Proof.
  intros Hlast Hne. rewrite found_any_pos.
  destruct s as [|c s]; cbn [any_pos].
  - rewrite hit_opener by assumption. by rewrite orb_false_r.
  - rewrite hit_opener by assumption.
    rewrite any_pos_false; [by rewrite orb_false_r|].
    intros. by rewrite hit_opener.
Qed.

Lemma hit_good pv s :
  hit (Cat (Lit "good ")
           (Grp 1 (AltLits ["morning"; "afternoon"; "evening"]))) pv s
  = Str.startswith "good morning" s || Str.startswith "good afternoon" s
    || Str.startswith "good evening" s.
Proof.
  change "good morning" with ("good " ++ "morning")%string.
  change "good afternoon" with ("good " ++ "afternoon")%string.
  change "good evening" with ("good " ++ "evening")%string.
  rewrite !startswith_app.
  unfold hit, match_at, AltLits. cbn [mre prev rest caps].
  rewrite eat_drop_prefix.
  destruct (Str.drop_prefix "good " s) as [after|]; [|reflexivity].
  cbn [prev rest caps]. rewrite !eat_drop_prefix. unfold Str.startswith.
  destruct (Str.drop_prefix "morning" after); [reflexivity|].
  destruct (Str.drop_prefix "afternoon" after); [reflexivity|].
  destruct (Str.drop_prefix "evening" after); reflexivity.
Qed.

Lemma found_good s :
  found false (Cat (Lit "good ")
                 (Grp 1 (AltLits ["morning"; "afternoon"; "evening"]))) s
  = Str.contains "good morning" s || Str.contains "good afternoon" s
    || Str.contains "good evening" s.
Proof.
  rewrite found_any_pos.
  rewrite (contains_any_pos "good morning" None),
    (contains_any_pos "good afternoon" None),
    (contains_any_pos "good evening" None).
  rewrite <- !any_pos_or. apply any_pos_ext. intros. apply hit_good.
Qed.

Lemma found_digit s : found false digit s = Str.existsb_chars Str.is_digit s.
Proof.
  rewrite found_any_pos. generalize (@None ascii) as pv.
  induction s as [|c s IH]; intros pv; simpl; [reflexivity|].
  rewrite IH. unfold hit at 1, match_at, digit. cbn [mre rest cls_ok].
  destruct (Str.is_digit c); reflexivity.
Qed.

Lemma lstrip_blank s : all_chars Str.is_space s = true -> Str.lstrip s = EmptyString.
Proof.
  induction s as [|c s IH]; simpl; [reflexivity|].
  destruct (Str.is_space c); simpl; [exact IH | discriminate].
Qed.

Lemma rstrip_empty s : Str.rstrip s = EmptyString -> all_chars Str.is_space s = true.
Proof.
  induction s as [|c s IH]; simpl; [reflexivity|].
  destruct (Str.rstrip s) eqn:Hr; [|discriminate].
  destruct (Str.is_space c); [intros _; by apply IH | discriminate].
Qed.

Lemma lstrip_cases s :
  Str.lstrip s = EmptyString /\ all_chars Str.is_space s = true
  \/ exists c t, Str.lstrip s = String c t /\ Str.is_space c = false.
Proof.
  induction s as [|c s IH]; simpl; [by left|].
  destruct (Str.is_space c) eqn:Hc; simpl; [exact IH|].
  right. by exists c, s.
Qed.

Lemma strip_blank s :
  negb (Str.truthy s) || negb (Str.truthy (Str.strip s))
  = all_chars Str.is_space s.
Proof.
  destruct (all_chars Str.is_space s) eqn:Hall.
  - unfold Str.strip. rewrite (lstrip_blank _ Hall). simpl.
    by rewrite orb_true_r.
  - destruct s as [|c s]; [discriminate Hall|]. cbn [Str.truthy negb orb].
    unfold Str.strip.
    destruct (lstrip_cases (String c s)) as [[_ H]|(c' & t & Hl & Hc')];
      [congruence|].
    rewrite Hl.
    destruct (Str.rstrip (String c' t)) eqn:Hr; [|reflexivity].
    apply rstrip_empty in Hr. simpl in Hr. rewrite Hc' in Hr. discriminate.
Qed.

(** C4 as stated fails: the three confirm phrases are matched anywhere in
    the text, so "that works" inside "that workshop" makes the utterance a
    confirm, where matching at word boundaries finds no vocabulary. *)
Lemma confirm_phrase_inside_word :
  detect_intent "that workshop" = confirm
  /\ classify true "that workshop" = unknown
  /\ detect_intent "that workshop" <> classify true "that workshop".
Proof. repeat split. discriminate. Qed.

(** C4, amended.  The classifier follows the ordered precedence: a blank
    utterance is unknown; otherwise, on the lower-cased utterance, confirm
    if one of confirm, yes, yep, sure, ok, all set occurs as a word of its
    own or one of that's fine, that works, looks good occurs anywhere;
    else cancel, then book, by their words at word boundaries; else greet
    if the utterance begins with the word hi, hello or hey or contains
    good morning, good afternoon or good evening; else book if it has a
    digit and one of night, guest, people, from, to; else unknown.
    "Yes!" and "OK" are confirms. *)
Theorem detect_intent_precedence (text : string) :
  detect_intent text = classify false text
  /\ detect_intent "Yes!" = confirm
  /\ detect_intent "OK" = confirm.
Proof.
  split; [|split; reflexivity].
  unfold detect_intent, classify. rewrite strip_blank.
  destruct (all_chars Str.is_space text) eqn:Hblank; [reflexivity|].
  assert (Ht : Str.truthy text = true)
    by (destruct text; [discriminate Hblank | reflexivity]).
  unfold _match_any_word. rewrite Ht. cbn [negb].
  unfold CONFIRM_WORDS, CANCEL_WORDS, BOOK_WORDS, GREET_WORDS, confirm_words,
    confirm_phrases, cancel_words, book_words, greet_openers, greet_phrases,
    booking_cues.
  cbn [existsb].
  rewrite !found_word by reflexivity.
  rewrite !found_lit, !found_opener by (reflexivity || discriminate).
  rewrite found_good, found_digit.
  rewrite !orb_false_r, !orb_assoc.
  reflexivity.
Qed.

(** ** Name-likeness *)

Lemma skip_run_length p pv s :
  (String.length (snd (skip_run p pv s)) <= String.length s)%nat.
Proof.
  revert pv. induction s as [|c s IH]; intros pv; simpl; [lia|].
  destruct (p c); simpl; [|lia]. specialize (IH (Some c)). lia.
Qed.

Lemma mre_cls ic p st k :
  mre ic (Cls p) st k
  = match rest st with
    | String c t =>
        if cls_ok ic p c then k (MState (Some c) t (caps st)) else None
    | EmptyString => None
    end.
Proof. reflexivity. Qed.

Lemma star_class p fuel pv s cs :
  (String.length s <= fuel)%nat ->
  star_loop (mre false (Cls p)) Some fuel (MState pv s cs)
  = Some (MState (fst (skip_run p pv s)) (snd (skip_run p pv s)) cs).
Proof.
  revert pv s. induction fuel as [|fuel IH]; intros pv s Hlen.
  - destruct s; [reflexivity | simpl in Hlen; lia].
  - set (M := mre false (Cls p)) in *. cbn [star_loop].
    unfold M at 1. rewrite mre_cls. cbn [rest caps cls_ok].
    destruct s as [|c t]; [reflexivity|].
    cbn [skip_run]. destruct (p c); [|reflexivity].
    cbn [rest String.length].
    assert (Hlt : (String.length t <? S (String.length t))%nat = true)
      by (apply Nat.ltb_lt; lia).
    rewrite Hlt. rewrite IH by (simpl in Hlen; lia). reflexivity.
Qed.

Lemma match_plus_class p pv s :
  match_at false (Plus (Cls p)) pv s
  = match s with
    | String c t =>
        if p c
        then Some (MState (fst (skip_run p (Some c) t))
                     (snd (skip_run p (Some c) t)) [])
        else None
    | EmptyString => None
    end.
Proof.
  unfold match_at, Plus.
  change (mre false (Cat (Cls p) (Star (Cls p))) (MState pv s []) Some)
    with (mre false (Cls p) (MState pv s [])
            (fun st' => star_loop (mre false (Cls p)) Some
                          (String.length (rest st')) st')).
  rewrite mre_cls. cbn [rest caps cls_ok].
  destruct s as [|c t]; [reflexivity|].
  destruct (p c); [|reflexivity].
  by rewrite star_class.
Qed.

Lemma append_cons x (a b : string) :
  (String x a ++ b)%string = String x (a ++ b).
Proof. reflexivity. Qed.

Lemma append_nil_l (b : string) : (EmptyString ++ b)%string = b.
Proof. reflexivity. Qed.

Lemma append_assoc_char (a : string) c b :
  ((a ++ String c EmptyString) ++ b = a ++ String c b)%string.
Proof.
  induction a as [|x a IH]; [reflexivity|].
  by rewrite !append_cons, IH.
Qed.

Lemma append_empty_r (a : string) : (a ++ EmptyString)%string = a.
Proof.
  induction a as [|x a IH]; [reflexivity|]. by rewrite append_cons, IH.
Qed.

(** Reading a run with the accumulator: the run found by [skip_run] is
    appended to [cur], and the scan goes on after it. *)
Lemma runs_skip p cur s pv :
  let s' := snd (skip_run p pv s) in
  let r := take (String.length s - String.length s') s in
  runs p cur s
  = match s' with
    | EmptyString => if Str.truthy (cur ++ r) then [(cur ++ r)%string] else []
    | String c t =>
        ((if Str.truthy (cur ++ r) then [(cur ++ r)%string] else [])
         ++ runs p EmptyString t)%list
    end.
Proof.
  revert cur pv. induction s as [|c s IH]; intros cur pv.
  - simpl. by rewrite append_empty_r.
  - cbn [skip_run runs]. destruct (p c) eqn:Hc.
    + cbn zeta in IH. rewrite (IH (cur ++ String c EmptyString)%string (Some c)).
      pose proof (skip_run_length p (Some c) s) as Hl.
      replace (String.length (String c s)
               - String.length (snd (skip_run p (Some c) s)))%nat
        with (S (String.length s
                 - String.length (snd (skip_run p (Some c) s))))
        by (simpl; lia).
      cbn [take]. by rewrite append_assoc_char.
    + cbn [snd]. rewrite Nat.sub_diag. cbn [take].
      by rewrite append_empty_r.
Qed.

Lemma findall_runs p fuel pv s :
  (String.length s < fuel)%nat ->
  findall_from false fuel (Plus (Cls p)) pv s = runs p EmptyString s.
Proof.
  revert pv s. induction fuel as [|fuel IH]; intros pv s Hlen; [lia|].
  cbn [findall_from]. rewrite match_plus_class.
  destruct s as [|c t]; [reflexivity|].
  destruct (p c) eqn:Hc.
  - cbn [rest prev].
    pose proof (skip_run_length p (Some c) t) as Hl.
    assert (Hlt : (String.length (snd (skip_run p (Some c) t))
                   <? String.length (String c t))%nat = true)
      by (apply Nat.ltb_lt; simpl; lia).
    rewrite Hlt.
    rewrite (runs_skip p EmptyString (String c t) pv).
    cbn [skip_run]. rewrite Hc. cbn zeta.
    rewrite IH by (simpl in Hlen; lia).
    set (s' := snd (skip_run p (Some c) t)) in *.
    set (r := take (String.length (String c t) - String.length s') (String c t)).
    assert (Hr : Str.truthy (EmptyString ++ r) = true).
    { subst r. replace (String.length (String c t) - String.length s')%nat
        with (S (String.length t - String.length s')) by (simpl; lia).
      reflexivity. }
    rewrite Hr, append_nil_l.
    destruct s' as [|c' t'] eqn:Hs'; [reflexivity|].
    cbn [app]. f_equal.
    (* the character after a run is not of the class *)
    assert (Hc' : p c' = false).
    { clear -Hs'. subst s'. revert Hs'. generalize (Some c) as pv.
      induction t as [|x t IHt]; intros pv; simpl; [discriminate|].
      destruct (p x) eqn:Hx; [apply IHt|]. simpl. intros [= -> _]. exact Hx. }
    cbn [runs]. rewrite Hc'. reflexivity.
  - cbn [runs]. rewrite Hc. cbn [Str.truthy app].
    apply IH. simpl in Hlen. lia.
Qed.

Lemma findall_alpha_tokens s :
  findall false (Plus (Cls Str.is_alpha)) s = alpha_tokens s.
Proof. unfold findall, alpha_tokens. apply findall_runs. lia. Qed.

Lemma found_class p s :
  found false (Cls p) s = Str.existsb_chars p s.
Proof.
  unfold found, search. generalize (@None ascii) as pv.
  induction s as [|c s IH]; intros pv; [reflexivity|].
  cbn [search_from Str.existsb_chars]. unfold match_at at 1.
  rewrite mre_cls. cbn [rest cls_ok].
  destruct (p c); [reflexivity|]. apply IH.
Qed.

Lemma existsb_map_lower (f : string -> bool) l :
  existsb f (map Str.lower l) = existsb (fun t => f (Str.lower t)) l.
Proof. induction l as [|x l IH]; simpl; [reflexivity | by rewrite IH]. Qed.

Lemma strip_empty_text text :
  Str.truthy text = false -> Str.truthy (Str.strip text) = false.
Proof. destruct text; [reflexivity | discriminate]. Qed.

(** The function of the source decides exactly the name-likeness of the
    specification. *)
Lemma looks_like_name_response_spec text :
  looks_like_name_response text = looks_like_name text.
Proof.
  unfold looks_like_name_response, looks_like_name.
  destruct (Str.truthy (Str.strip text)) eqn:Hs.
  - assert (Ht : Str.truthy text = true).
    { destruct (Str.truthy text) eqn:Ht; [reflexivity|].
      apply strip_empty_text in Ht. congruence. }
    rewrite Ht. cbn [negb orb andb].
    rewrite found_class, findall_alpha_tokens, existsb_map_lower.
    destruct (Str.existsb_chars structured_char (Str.strip text));
      [reflexivity|].
    cbn [negb andb].
    destruct (1 <=? Z.of_nat (List.length (alpha_tokens (Str.strip text))));
      [|reflexivity].
    destruct (Z.of_nat (List.length (alpha_tokens (Str.strip text))) <=? 3);
      [|reflexivity].
    cbn [negb andb]. destruct (existsb _ _); reflexivity.
  - rewrite orb_true_r. reflexivity.
Qed.

(** ** A directive word keeps the name guard off *)

Lemma rstrip_cons c t :
  Str.rstrip (String c t)
  = match Str.rstrip t with
    | EmptyString => if Str.is_space c then EmptyString else String c EmptyString
    | t' => String c t'
    end.
Proof. reflexivity. Qed.

Lemma rstrip_idempotent s : Str.rstrip (Str.rstrip s) = Str.rstrip s.
Proof.
  induction s as [|c s IH]; [reflexivity|]. rewrite rstrip_cons.
  destruct (Str.rstrip s) as [|c' s'] eqn:Hr.
  - destruct (Str.is_space c) eqn:Hc; [reflexivity|].
    rewrite rstrip_cons. cbn [Str.rstrip]. by rewrite Hc.
  - rewrite rstrip_cons, IH. reflexivity.
Qed.

Lemma rstrip_head c s :
  Str.is_space c = false ->
  exists t, Str.rstrip (String c s) = String c t.
Proof.
  intros Hc. rewrite rstrip_cons. destruct (Str.rstrip s); rewrite ?Hc; eauto.
Qed.

Lemma truthy_append_char a c : Str.truthy (a ++ String c EmptyString) = true.
Proof. destruct a; reflexivity. Qed.

Lemma strip_idempotent s : Str.strip (Str.strip s) = Str.strip s.
Proof.
  unfold Str.strip.
  destruct (lstrip_cases s) as [[-> _]|(c & t & -> & Hc)]; [reflexivity|].
  destruct (rstrip_head c t Hc) as [t' Ht']. rewrite Ht'.
  cbn [Str.lstrip]. rewrite Hc, <- Ht'. apply rstrip_idempotent.
Qed.

(** A character that lower-cases to a lower-case letter is a letter. *)
Lemma lower_char_alpha c :
  Str.is_lower (Str.lower_char c) = true -> Str.is_alpha c = true.
Proof.
  destruct c as [[] [] [] [] [] [] [] []]; vm_compute; intros H;
    first [reflexivity | discriminate H].
Qed.

Lemma alpha_is_word c : Str.is_alpha c = true -> Str.is_word c = true.
Proof. unfold Str.is_word. by intros ->. Qed.

(** What a case-insensitive literal of lower-case letters consumes: a run
    of letters that lower-cases to the literal; the character before the
    position reached is then a letter. *)
Lemma eat_ci_letters w pv s pv' after :
  all_chars Str.is_lower w = true ->
  Str.lower w = w ->
  eat true w pv s = Some (pv', after) ->
  exists occ,
    s = (occ ++ after)%string /\ Str.lower occ = w
    /\ all_chars Str.is_alpha occ = true
    /\ (w <> EmptyString -> wordish pv' = true).
Proof.
  revert pv s. induction w as [|a w IH]; intros pv s Hw Hl.
  - intros [= _ <-]. exists EmptyString. repeat split. congruence.
  - cbn [eat]. destruct s as [|b s]; [discriminate|].
    cbn [all_chars] in Hw. apply andb_true_iff in Hw as [Ha Hw].
    injection Hl as Hla Hlw.
    unfold char_eq.
    destruct (Ascii.eqb_spec (Str.lower_char a) (Str.lower_char b))
      as [Hab|]; [|discriminate].
    assert (Hb : Str.is_alpha b = true)
      by (apply lower_char_alpha; rewrite <- Hab, Hla; exact Ha).
    intros He.
    destruct (IH (Some b) s Hw Hlw He) as (occ & -> & Hocc & Halpha & Hpv).
    exists (String b occ). repeat split.
    + cbn [Str.lower Str.map_chars]. fold (Str.lower occ).
      rewrite Hocc, <- Hab, Hla. reflexivity.
    + cbn [all_chars]. by rewrite Halpha, Hb.
    + intros _. destruct w as [|a' w'].
      * injection He as <- _. simpl. by apply alpha_is_word.
      * apply Hpv. discriminate.
Qed.

Lemma runs_emit p cur occ after :
  all_chars p occ = true ->
  wordish (next_char after) = false ->
  (forall c, p c = true -> Str.is_word c = true) ->
  occ <> EmptyString ->
  In (cur ++ occ)%string (runs p cur (occ ++ after)).
Proof.
  intros Hocc Hnext Hp. revert cur.
  induction occ as [|c occ IH]; intros cur Hne; [congruence|].
  cbn [all_chars] in Hocc. apply andb_true_iff in Hocc as [Hc Hocc].
  rewrite append_cons. cbn [runs]. rewrite Hc.
  destruct occ as [|c' occ'].
  - rewrite append_nil_l.
    destruct after as [|x after]; cbn [runs].
    + rewrite truthy_append_char. by left.
    + assert (Hx : p x = false).
      { destruct (p x) eqn:Hx; [|reflexivity].
        apply Hp in Hx. simpl in Hnext. congruence. }
      rewrite Hx, truthy_append_char. by left.
  - rewrite <- append_assoc_char. apply IH; [exact Hocc | discriminate].
Qed.

(** A lower-case word found at word boundaries, in any case, is one of the
    alphabetic tokens of the text once lower-cased. *)
Lemma word_is_token w :
  all_chars Str.is_lower w = true -> Str.lower w = w -> w <> EmptyString ->
  forall s pv cur,
    (wordish pv = false -> cur = EmptyString) ->
    is_set (search_from true (Word (Lit w)) pv s) = true ->
    exists t, In t (runs Str.is_alpha cur s) /\ Str.lower t = w.
Proof.
  intros Hw Hl Hne. induction s as [|c s IH]; intros pv cur Hcur Hs.
  - exfalso. revert Hs. cbn [search_from]. unfold match_at, Word.
    cbn [mre prev rest caps]. destruct (at_boundary _); [|discriminate].
    destruct w as [|a w']; [intros _; by apply Hne | discriminate].
  - cbn [search_from] in Hs.
    destruct (match_at true (Word (Lit w)) pv (String c s)) as [m|] eqn:Hm.
    + clear Hs IH. revert Hm. unfold match_at, Word.
      cbn [mre prev rest caps].
      destruct (at_boundary (MState pv (String c s) [])) eqn:Hb1;
        [|discriminate].
      destruct (eat true w pv (String c s)) as [[pv' after]|] eqn:He;
        [|discriminate].
      destruct (at_boundary (MState pv' after [])) eqn:Hb2; [|discriminate].
      intros _.
      destruct (eat_ci_letters w pv _ pv' after Hw Hl He)
        as (occ & Hocc & Hlow & Halpha & Hpv').
      assert (Hocc_ne : occ <> EmptyString).
      { intros ->. apply Hne. symmetry. exact Hlow. }
      unfold at_boundary in Hb1, Hb2. cbn [prev rest] in Hb1, Hb2.
      rewrite (Hpv' Hne) in Hb2.
      assert (Hafter : wordish (next_char after) = false)
        by (destruct (wordish (next_char after)); [discriminate | reflexivity]).
      assert (Hfirst : wordish (next_char (String c s)) = true).
      { rewrite Hocc. destruct occ as [|x occ]; [congruence|].
        cbn [all_chars] in Halpha. apply andb_true_iff in Halpha as [Hx _].
        simpl. by apply alpha_is_word. }
      rewrite Hfirst in Hb1.
      assert (Hpv : wordish pv = false)
        by (destruct (wordish pv); [discriminate | reflexivity]).
      rewrite (Hcur Hpv), Hocc. exists occ. split; [|exact Hlow].
      rewrite <- (append_nil_l occ) at 1.
      apply runs_emit; try assumption. intros x. apply alpha_is_word.
    + cbn [runs]. destruct (Str.is_alpha c) eqn:Hc.
      * apply (IH (Some c)); [|exact Hs].
        simpl. rewrite (alpha_is_word c Hc). discriminate.
      * destruct (IH (Some c) EmptyString (fun _ => eq_refl) Hs)
          as (t & Hin & Ht).
        exists t. split; [|exact Ht]. apply in_or_app. by right.
Qed.

(** A stripped utterance with a directive word in it, in any case and at
    word boundaries, does not look like a name. *)
Lemma directive_word_not_a_name w msg :
  let text := Str.strip msg in
  all_chars Str.is_lower w = true -> Str.lower w = w -> w <> EmptyString ->
  mem w directives = true ->
  found true (Word (Lit w)) text = true ->
  looks_like_name_response text = false.
Proof.
  intros text Hw Hl Hne Hmem Hfound.
  rewrite looks_like_name_response_spec. unfold looks_like_name.
  unfold text. rewrite strip_idempotent. fold text.
  assert (Hs : is_set (search_from true (Word (Lit w)) None text) = true).
  { unfold found, search in Hfound. unfold is_set.
    destruct (search_from _ _ _ _); [reflexivity | discriminate]. }
  destruct (word_is_token w Hw Hl Hne text None EmptyString (fun _ => eq_refl) Hs)
    as (t & Hin & Ht).
  assert (He : existsb (fun t => mem (Str.lower t) directives)
                 (alpha_tokens text) = true).
  { apply existsb_exists. exists t. split; [exact Hin|]. by rewrite Ht. }
  rewrite He. cbn [negb]. apply andb_false_r.
Qed.

(** ** The table and the merge *)

Lemma wf_db_empty : wf_db ∅.
Proof. intros k b H. rewrite lookup_empty in H. discriminate. Qed.

Lemma wf_db_commit b db : wf_db db -> wf_db (commit b db).
Proof.
  intros Hwf k b' H. unfold commit in H.
  destruct (decide (id b = k)) as [Heq|Hne].
  - subst k. rewrite lookup_insert_eq in H. congruence.
  - rewrite lookup_insert_ne in H by done. eauto.
Qed.

Lemma lookup_commit b db : commit b db !! id b = Some b.
Proof. apply lookup_insert_eq. Qed.

Lemma lookup_commit_ne b db k : id b <> k -> commit b db !! k = db !! k.
Proof. intros H. unfold commit. by rewrite lookup_insert_ne. Qed.

Lemma fold_later_in rows b : In (fold_left later rows b) (b :: rows).
Proof.
  revert b. induction rows as [|r rows IH]; intros b; simpl.
  - by left.
  - assert (later b r = b \/ later b r = r) as [E|E]
      by (unfold later; destruct (dt_ltb _ _); auto);
      specialize (IH (later b r)); rewrite E in IH |- *; simpl in IH |- *; tauto.
Qed.

Lemma latest_in rows b : latest rows = Some b -> In b rows.
Proof.
  destruct rows as [|r rows]; simpl; [discriminate|].
  intros [= <-]. apply fold_later_in.
Qed.

Lemma find_pending_spec session db b :
  find_pending session db = Some b ->
  (exists k, db !! k = Some b)
  /\ session_id b = session /\ confirmed b = false.
Proof.
  unfold find_pending. intros H. apply latest_in in H.
  apply filter_In in H as [Hin Hp].
  apply in_map_iff in Hin as [[k b'] [Heq Hin]]. simpl in Heq. subst b'.
  apply list_elem_of_In in Hin. apply elem_of_map_to_list in Hin.
  unfold is_pending_for in Hp. apply andb_true_iff in Hp as [Hs Hc].
  apply String.eqb_eq in Hs. apply negb_true_iff in Hc. eauto.
Qed.

(** The merge touches the seven extracted columns only. *)
Lemma merge_field_frame {A : Type} (present : option A -> bool) v set field acc
  (P : Booking -> Prop) :
  (forall x b, P b -> P (set x b)) ->
  P (fst acc) -> P (fst (merge_field present v set field acc)).
Proof. intros Hset HP. unfold merge_field. destruct (present v); simpl; auto. Qed.

Lemma merge_extracted_identity e b :
  same_row_identity b (fst (merge_extracted e b)).
Proof.
  unfold merge_extracted.
  repeat (apply merge_field_frame;
          [intros x b' Hb'; exact Hb' |]).
  simpl. repeat split.
Qed.

Lemma merge_no_entities b : merge_extracted no_entities b = (b, []).
Proof. reflexivity. Qed.

(** ** Direct draft access (C8) *)



(** ** The per-turn controller (C2, C5, C7) *)

Lemma name_missing_iff b :
  mem "name" (compute_missing b) = negb (truthy_str (guest_name b)).
Proof.
  unfold compute_missing.
  destruct (truthy_str (guest_name b)),
    (is_set (checkin b) && (is_set (checkout b) || truthy_num (nights b))),
    (truthy_num (guests b)); reflexivity.
Qed.

(** The intent branch always answers with a reply, and the snapshot it
    returns has the extracted columns of the draft it was given. *)
Lemma respond_keeps_columns utcnow i b changed db :
  exists db' reply bd flag,
    respond utcnow i b changed db = (db', Turn_response reply bd flag)
    /\ d_guest_name bd = guest_name b
    /\ same_extracted_columns bd (booking_to_dict b).
Proof.
  unfold respond. destruct i.
  - destruct (compute_missing b); do 4 eexists;
      (split; [reflexivity|]); repeat split.
  - do 4 eexists; (split; [reflexivity|]); repeat split.
  - destruct (conversational_reply b changed); do 4 eexists;
      (split; [reflexivity|]); repeat split.
  - destruct (conversational_reply b changed); do 4 eexists;
      (split; [reflexivity|]); repeat split.
  - destruct (conversational_reply b changed); do 4 eexists;
      (split; [reflexivity|]); repeat split.
Qed.

Section Controller.
Variable nlp : string -> list entity.
Variable search_dates : string -> option (list (string * datetime)).
Variable parse_date : settings -> string -> option datetime.
Variable today : datetime.
Variable utcnow : datetime.

Local Abbreviation merge_turn' := (merge_turn nlp search_dates parse_date today utcnow).
Local Abbreviation handle_message' :=
  (handle_message nlp search_dates parse_date today utcnow).

Lemma get_or_create_pending_open session db b db0 :
  get_or_create_pending utcnow session db = (b, db0) ->
  confirmed b = false /\ session_id b = session.
Proof.
  unfold get_or_create_pending.
  destruct (find_pending session db) as [p|] eqn:Hf; intros [= <- <-].
  - apply find_pending_spec in Hf. tauto.
  - split; reflexivity.
Qed.

(** The three ways the first half of a turn can go: the name guard takes
    the utterance; the extractor or the commit of the merge raises, and
    the table stays as the draft lookup left it; or the extraction is
    merged and stored. *)
Lemma merge_turn_cases text session db :
  let b0 := fst (get_or_create_pending utcnow session db) in
  let db0 := snd (get_or_create_pending utcnow session db) in
  let guard := mem "name" (compute_missing b0) && Str.truthy text
               && looks_like_name_response text in
  let extraction := extract_entities nlp search_dates parse_date today text in
  (guard = true
   /\ merge_turn' text session db
      = (commit (set_guest_name (Some text) b0) db0,
         Some (set_guest_name (Some text) b0, [])))
  \/ (guard = false
      /\ merge_turn' text session db = (db0, None)
      /\ (extraction = None
          \/ exists e, extraction = Some e
                       /\ sqlite_int_ok (x_guests e)
                          && sqlite_int_ok (x_nights e) = false))
  \/ (guard = false
      /\ exists e, extraction = Some e
                   /\ sqlite_int_ok (x_guests e)
                      && sqlite_int_ok (x_nights e) = true
                   /\ merge_turn' text session db
                      = (commit (fst (merge_extracted e b0)) db0,
                         Some (merge_extracted e b0))).
Proof.
  unfold merge_turn.
  destruct (get_or_create_pending utcnow session db) as [b0 db0].
  cbn [fst snd].
  destruct (mem "name" (compute_missing b0) && Str.truthy text
            && looks_like_name_response text).
  - left. split; [reflexivity|]. rewrite merge_no_entities.
    unfold commit. by rewrite insert_insert_eq.
  - right.
    destruct (extract_entities nlp search_dates parse_date today text)
      as [e|]; [|left; auto].
    destruct (sqlite_int_ok (x_guests e) && sqlite_int_ok (x_nights e))
      eqn:Hfit.
    + right. split; [reflexivity|]. exists e.
      split; [reflexivity|]. split; [exact Hfit|].
      by destruct (merge_extracted e b0).
    + left. split; [reflexivity|]. split; [reflexivity|]. right. eauto.
Qed.

(** What the first half of a turn leaves behind: the post-merge draft is
    the resolved draft with some of the extracted columns replaced, and it
    is the row stored under its key. *)
Lemma merge_turn_stored text session db db1 b changed :
  merge_turn' text session db = (db1, Some (b, changed)) ->
  same_row_identity (fst (get_or_create_pending utcnow session db)) b
  /\ db1 !! id b = Some b.
Proof.
  destruct (merge_turn_cases text session db)
    as [[_ ->]|[(_ & -> & _)|(_ & e & _ & _ & ->)]].
  - intros [= <- <- <-]. split; [repeat split | apply lookup_commit].
  - discriminate.
  - pose proof (merge_extracted_identity e
                  (fst (get_or_create_pending utcnow session db))) as Hid.
    destruct (merge_extracted e _) as [b' ch]. cbn [fst] in *.
    intros [= <- <- <-]. split; [exact Hid | apply lookup_commit].
Qed.

Lemma merge_turn_open text session db db1 b changed :
  merge_turn' text session db = (db1, Some (b, changed)) ->
  confirmed b = false.
Proof.
  intros H. apply merge_turn_stored in H as [(_ & _ & Hc & _) _].
  rewrite Hc.
  destruct (get_or_create_pending utcnow session db) as [b0 db0] eqn:Hg.
  apply get_or_create_pending_open in Hg. tauto.
Qed.

(** C2.  Confirm blocks an incomplete draft.  In a turn with a session id
    whose utterance classifies as confirm, if the post-merge draft [b]
    lacks a required field ([compute_missing b] is not empty), the turn
    answers with the reply that lists the missing fields, reports
    completeness false, stores nothing after the merge, and the stored
    draft is still unconfirmed. *)
Theorem confirm_blocks_incomplete (message : option string) (sid : string)
  (db db1 : DB) (b : Booking) (changed : list string) :
  let text := Str.strip (or_empty message) in
  Str.truthy sid = true ->
  merge_turn' text sid db = (db1, Some (b, changed)) ->
  detect_intent text = confirm ->
  compute_missing b <> [] ->
  handle_message' message (Some sid) db
  = (db1,
     Turn_response
       ("I need a few more details before I can confirm: "
        ++ Str.join ", " (compute_missing b) ++ ". Could you provide them?")
       (booking_to_dict b) false)
  /\ confirmed b = false
  /\ d_confirmed (booking_to_dict b) = false
  /\ db1 !! id b = Some b.
Proof.
  intros text Hsid Hmerge Hintent Hmissing.
  pose proof (merge_turn_open _ _ _ _ _ _ Hmerge) as Hopen.
  pose proof (merge_turn_stored _ _ _ _ _ _ Hmerge) as [_ Hstored].
  repeat split; try assumption.
  unfold handle_message. cbn [truthy_str or_empty]. rewrite Hsid. cbn [negb].
  fold text. rewrite Hmerge, Hintent. unfold respond.
  destruct (compute_missing b); [contradiction | reflexivity].
Qed.

(** C7 as stated fails: "cancel, June 10 for 99999999999 nights"
    classifies as cancel, but the extractor runs before the intent is
    looked at and its [checkin + timedelta(days=nights)] overflows: the
    request ends in the exception and no note is written. *)
Lemma cancel_turn_ends_in_exception : ~ cancel_always_appends.
Proof.
  intros H.
  destruct (H nlp_none search_dates_cancel_long_stay parse_date_none
              clock_example clock_example
              (Some "cancel, June 10 for 99999999999 nights") "s1"
              (commit draft_example ∅) eq_refl eq_refl)
    as (db' & reply & bd & b' & Hh & _).
  vm_compute in Hh. discriminate Hh.
Qed.

(** C7, amended.  Cancel.  In a turn with a session id whose utterance
    classifies as cancel, with [b0] the draft resolved at the start of the
    turn, one of two things happens.  Either the name guard does not take
    the utterance and the extractor raises, or an extracted count does not
    fit the integer column: then the request ends in that exception and
    the table is as the draft lookup left it, without a note.  Or the
    merge is stored, giving the post-merge draft [b], and then the stored
    draft becomes [b] with notes equal to the previous notes (empty when
    there were none) followed by a newline, "Cancelled by user at " and the
    UTC timestamp, every other column as in [b]; the completeness flag is
    false whatever fields are present; the draft is unconfirmed and is
    still in the table under its key. *)
Theorem cancel_appends_note (message : option string) (sid : string)
  (db : DB) :
  let text := Str.strip (or_empty message) in
  let b0 := fst (get_or_create_pending utcnow sid db) in
  let db0 := snd (get_or_create_pending utcnow sid db) in
  let extraction := extract_entities nlp search_dates parse_date today text in
  let note := or_empty (notes b0) ++ newline ++ "Cancelled by user at "
              ++ isoformat utcnow in
  Str.truthy sid = true ->
  detect_intent text = cancel ->
  (handle_message' message (Some sid) db = (db0, Unhandled_exception)
   /\ mem "name" (compute_missing b0) && Str.truthy text
      && looks_like_name_response text = false
   /\ (extraction = None
       \/ exists e, extraction = Some e
                    /\ sqlite_int_ok (x_guests e)
                       && sqlite_int_ok (x_nights e) = false))
  \/ (exists db1 b changed,
        let b' :=
          mk_booking (id b0) sid (guest_name b) (checkin b) (checkout b)
            (nights b) (guests b) (breakfast b) (payment_method b) false
            (Some note) (created_at b0) in
        merge_turn' text sid db = (db1, Some (b, changed))
        /\ handle_message' message (Some sid) db
           = (commit b' db1,
              Turn_response
                "Okay — I have canceled the current booking draft. If you'd like to start again, say 'I want to book'."
                (booking_to_dict b') false)
        /\ commit b' db1 !! id b0 = Some b'
        /\ String.prefix (or_empty (notes b0)) note = true).
Proof.
  intros text b0 db0 extraction note Hsid Hintent.
  assert (Hh : handle_message' message (Some sid) db
               = match merge_turn' text sid db with
                 | (db1, None) => (db1, Unhandled_exception)
                 | (db1, Some (b, ch)) => respond utcnow cancel b ch db1
                 end).
  { unfold handle_message. cbn [truthy_str or_empty]. rewrite Hsid.
    cbn [negb]. fold text. rewrite Hintent. reflexivity. }
  assert (Hprefix : String.prefix (or_empty (notes b0)) note = true).
  { subst note. generalize (newline ++ "Cancelled by user at "
                            ++ isoformat utcnow) as stamp.
    generalize (or_empty (notes b0)) as s. intros s stamp.
    induction s as [|c s IH]; simpl.
    - destruct stamp; reflexivity.
    - destruct (ascii_dec c c) as [_|Hne]; [exact IH | contradiction]. }
  assert (Hstored : forall db1 b ch,
             merge_turn' text sid db = (db1, Some (b, ch)) ->
             set_notes
               (Some (or_empty (notes b) ++ newline ++ "Cancelled by user at "
                      ++ isoformat utcnow)) b
             = mk_booking (id b0) sid (guest_name b) (checkin b) (checkout b)
                 (nights b) (guests b) (breakfast b) (payment_method b) false
                 (Some note) (created_at b0)).
  { intros db1 b ch Hm.
    pose proof (merge_turn_open _ _ _ _ _ _ Hm) as Hopen.
    pose proof (merge_turn_stored _ _ _ _ _ _ Hm)
      as [(Hid & Hs & _ & Hnotes & Hcr) _].
    fold b0 in Hid, Hs, Hnotes, Hcr.
    destruct (get_or_create_pending_open sid db b0 db0) as [_ Hsess];
      [apply surjective_pairing|].
    unfold set_notes, note.
    by rewrite Hid, Hs, Hsess, Hopen, Hnotes, Hcr. }
  destruct (merge_turn_cases text sid db)
    as [[Hg Hm]|[(Hg & Hm & Hcause)|(Hg & e & He & Hfit & Hm)]].
  - right. do 3 eexists. cbv zeta.
    split; [exact Hm|]. rewrite Hh, Hm. unfold respond.
    rewrite (Hstored _ _ _ Hm).
    split; [reflexivity|]. split; [|exact Hprefix].
    match goal with |- commit ?x ?d !! _ = _ => exact (lookup_commit x d) end.
  - left. split; [|split].
    + rewrite Hh, Hm. reflexivity.
    + exact Hg.
    + exact Hcause.
  - right. fold b0 db0 in Hm.
    destruct (merge_extracted e b0) as [b ch] eqn:Hme. cbn [fst] in Hm.
    exists (commit b db0), b, ch. cbv zeta.
    split; [exact Hm|]. rewrite Hh, Hm. unfold respond.
    rewrite (Hstored _ _ _ Hm).
    split; [reflexivity|]. split; [|exact Hprefix].
    match goal with |- commit ?x ?d !! _ = _ => exact (lookup_commit x d) end.
Qed.

(** C5.  The name guard.  When the resolved draft [b0] has no guest name
    and the non-empty stripped utterance looks like a name (no digit,
    slash, backslash, hyphen or colon; one to three alphabetic tokens; no
    token a directive word in any case), the turn
    stores [b0] with guest_name set to the utterance and every other
    column as it was, records no changed field, and goes to the intent
    branch with that draft.  Nothing of the entity extractor enters the
    result: it is the same for every pipeline, date searcher, date parser
    and clock. *)
Theorem name_guard_assigns_directly (message : option string) (sid : string)
  (db : DB) :
  let text := Str.strip (or_empty message) in
  let b0 := fst (get_or_create_pending utcnow sid db) in
  let db0 := snd (get_or_create_pending utcnow sid db) in
  let b1 := set_guest_name (Some text) b0 in
  Str.truthy sid = true ->
  truthy_str (guest_name b0) = false ->
  Str.truthy text = true ->
  looks_like_name text = true ->
  merge_turn' text sid db = (commit b1 db0, Some (b1, []))
  /\ handle_message' message (Some sid) db
     = respond utcnow (detect_intent text) b1 [] (commit b1 db0)
  /\ (forall nlp2 search_dates2 parse_date2 today2,
        handle_message nlp2 search_dates2 parse_date2 today2 utcnow
          message (Some sid) db
        = handle_message' message (Some sid) db)
  /\ (exists db' reply bd flag,
        handle_message' message (Some sid) db
        = (db', Turn_response reply bd flag)
        /\ d_guest_name bd = Some text
        /\ same_extracted_columns bd (booking_to_dict b0)).
Proof.
  intros text b0 db0 b1 Hsid Hname Htext Hlooks.
  rewrite <- looks_like_name_response_spec in Hlooks.
  assert (Hm : forall n s p t,
             merge_turn n s p t utcnow text sid db
             = (commit b1 db0, Some (b1, []))).
  { intros n s p t. unfold merge_turn. subst b1 b0 db0.
    destruct (get_or_create_pending utcnow sid db) as [b0 db0]. simpl in *.
    rewrite name_missing_iff, Hname, Htext, Hlooks. simpl.
    unfold commit. by rewrite insert_insert_eq. }
  assert (Hh : forall n s p t,
             handle_message n s p t utcnow message (Some sid) db
             = respond utcnow (detect_intent text) b1 [] (commit b1 db0)).
  { intros n s p t. unfold handle_message.
    cbn [truthy_str or_empty]. rewrite Hsid. cbn [negb]. fold text.
    by rewrite Hm. }
  split; [apply Hm|]. split; [apply Hh|].
  split; [intros; by rewrite !Hh|].
  rewrite Hh.
  destruct (respond_keeps_columns utcnow (detect_intent text) b1 []
              (commit b1 db0)) as (db' & reply & bd & flag & Heq & Hn & Hc).
  exists db', reply, bd, flag. rewrite Heq. repeat split; try apply Hc.
  exact Hn.
Qed.
End Controller.

Lemma confirm_blocks_incomplete_witness :
  Str.truthy "s1" = true
  /\ detect_intent (Str.strip "confirm please") = confirm
  /\ compute_missing draft_no_guests = ["number of guests"]
  /\ handle_message nlp_none search_dates_none parse_date_none clock_example
       clock_example (Some "confirm please") (Some "s1")
       (commit draft_no_guests ∅)
     = (commit draft_no_guests ∅,
        Turn_response
          "I need a few more details before I can confirm: number of guests. Could you provide them?"
          (booking_to_dict draft_no_guests) false).
Proof.
  split; [reflexivity|]. split; [reflexivity|]. split; [reflexivity|].
  refine (proj1 (confirm_blocks_incomplete nlp_none search_dates_none
                   parse_date_none clock_example clock_example
                   (Some "confirm please") "s1" (commit draft_no_guests ∅)
                   (commit draft_no_guests ∅) draft_no_guests []
                   eq_refl _ eq_refl _)).
  - vm_compute. reflexivity.
  - discriminate.
Defined.

Lemma cancel_appends_note_witness :
  exists db' b',
    fst (handle_message nlp_none search_dates_none parse_date_none
           clock_example clock_example (Some "cancel") (Some "s1")
           (commit draft_example ∅)) = db'
    /\ db' !! 1 = Some b'
    /\ notes b'
       = Some ("seen" ++ newline ++ "Cancelled by user at 2026-11-03T10:22:00")
    /\ guest_name b' = Some "Dana"
    /\ confirmed b' = false.
Proof.
  destruct (cancel_appends_note nlp_none search_dates_none parse_date_none
              clock_example clock_example (Some "cancel") "s1"
              (commit draft_example ∅) eq_refl eq_refl)
    as [[Hh _]|(db1 & b & ch & Hm & Hh & Hl & _)].
  - vm_compute in Hh. discriminate Hh.
  - vm_compute in Hm. injection Hm as <- <- <-.
    do 2 eexists. rewrite Hh. cbn [fst].
    split; [reflexivity|]. split; [exact Hl|]. repeat split.
Defined.

Lemma name_guard_assigns_directly_witness :
  looks_like_name (Str.strip "John Carter") = true
  /\ exists db' reply bd flag,
       handle_message nlp_none search_dates_none parse_date_none clock_example
         clock_example (Some "John Carter") (Some "s1")
         (commit draft_no_name ∅)
       = (db', Turn_response reply bd flag)
       /\ d_guest_name bd = Some "John Carter"
       /\ d_checkin bd = Some "2026-06-10T00:00:00".
Proof.
  split; [reflexivity|].
  destruct (name_guard_assigns_directly nlp_none search_dates_none
              parse_date_none clock_example clock_example
              (Some "John Carter") "s1" (commit draft_no_name ∅))
    as (_ & _ & _ & db' & reply & bd & flag & Heq & Hn & Hc & _).
  - reflexivity.
  - vm_compute. reflexivity.
  - reflexivity.
  - reflexivity.
  - exists db', reply, bd, flag. split; [exact Heq|]. split; [exact Hn|].
    rewrite Hc. vm_compute. reflexivity.
Defined.

(** ** What a match tells about the text *)

Lemma lower_char_idempotent c :
  Str.lower_char (Str.lower_char c) = Str.lower_char c.
Proof. destruct c as [[] [] [] [] [] [] [] []]; reflexivity. Qed.

Lemma lower_char_space c : Str.is_space (Str.lower_char c) = Str.is_space c.
Proof. destruct c as [[] [] [] [] [] [] [] []]; reflexivity. Qed.

Lemma lower_idempotent s : Str.lower (Str.lower s) = Str.lower s.
Proof.
  induction s as [|c s IH]; [reflexivity|].
  cbn [Str.lower Str.map_chars]. fold (Str.lower s).
  fold (Str.lower (Str.lower s)). by rewrite lower_char_idempotent, IH.
Qed.

Lemma lower_blank s :
  all_chars Str.is_space (Str.lower s) = all_chars Str.is_space s.
Proof.
  induction s as [|c s IH]; [reflexivity|].
  cbn [Str.lower Str.map_chars all_chars]. fold (Str.lower s).
  by rewrite lower_char_space, IH.
Qed.

Lemma truthy_lower s : Str.truthy (Str.lower s) = Str.truthy s.
Proof. by destruct s. Qed.

Lemma star_loop_sound ic r1 k :
  (forall st k res, mre ic r1 st k = Some res ->
     exists st', reaches ic r1 st st' /\ k st' = Some res) ->
  forall fuel st res,
    star_loop (mre ic r1) k fuel st = Some res ->
    exists st', rtc (reaches ic r1) st st' /\ k st' = Some res.
Proof.
  intros IH fuel. induction fuel as [|fuel IHf]; intros st res; cbn [star_loop].
  - intros Hk. exists st. split; [constructor|exact Hk].
  - destruct (mre ic r1 st _) as [res'|] eqn:Hm.
    + intros [= <-]. apply IH in Hm as (mid & Hr & Hk).
      destruct (_ <? _)%nat; [|discriminate].
      apply IHf in Hk as (st' & Hrtc & Hk).
      exists st'. split; [|exact Hk]. by eapply rtc_l.
    + intros Hk. exists st. split; [constructor|exact Hk].
Qed.

(** The matcher only succeeds along a path the pattern allows. *)
Lemma mre_sound ic r :
  forall st k res, mre ic r st k = Some res ->
    exists st', reaches ic r st st' /\ k st' = Some res.
Proof.
  induction r as [|s|p|r1 IH1 r2 IH2|r1 IH1 r2 IH2|r1 IH1|i r1 IH1| |];
    intros st k res; cbn [mre reaches].
  - intros Hk. by exists st.
  - destruct (eat ic s (prev st) (rest st)) as [[pv s']|] eqn:He; [|discriminate].
    intros Hk. by exists (MState pv s' (caps st)).
  - destruct (rest st) as [|c t] eqn:Hr; [discriminate|].
    destruct (cls_ok ic p c) eqn:Hc; [|discriminate].
    intros Hk. exists (MState (Some c) t (caps st)). split; [|exact Hk].
    by exists c.
  - intros Hm. apply IH1 in Hm as (mid & H1 & Hm).
    apply IH2 in Hm as (st' & H2 & Hk). exists st'. split; [|exact Hk].
    by exists mid.
  - destruct (mre ic r1 st k) as [res'|] eqn:Hm.
    + intros [= <-]. apply IH1 in Hm as (st' & H1 & Hk). exists st'. auto.
    + intros Hm2. apply IH2 in Hm2 as (st' & H2 & Hk). exists st'. auto.
  - apply star_loop_sound. exact IH1.
  - intros Hm. apply IH1 in Hm as (st1 & H1 & Hk).
    eexists. split; [|exact Hk]. by exists st1.
  - destruct (prev st) eqn:Hp; [discriminate|]. intros Hk. by exists st.
  - destruct (at_boundary st) eqn:Hb; [|discriminate]. intros Hk. by exists st.
Qed.

Lemma search_from_sound ic r s :
  forall pv m, search_from ic r pv s = Some m ->
    exists pv' s', match_at ic r pv' s' = Some m.
Proof.
  induction s as [|c t IH]; intros pv m; cbn [search_from].
  - destruct (match_at ic r pv "") eqn:Hm; [|discriminate].
    intros [= <-]. eauto.
  - destruct (match_at ic r pv (String c t)) eqn:Hm.
    + intros [= <-]. eauto.
    + apply IH.
Qed.

(** A successful search ends where the pattern leads from some position
    without captures. *)
Lemma search_sound ic r text m :
  search ic r text = Some m ->
  exists st, caps st = [] /\ reaches ic r st m.
Proof.
  unfold search. intros Hs. apply search_from_sound in Hs as (pv & s & Hm).
  unfold match_at in Hm. apply mre_sound in Hm as (st' & Hr & [= ->]).
  by exists (MState pv s []).
Qed.

Lemma reaches_groupless ic r :
  groupless r = true ->
  forall st st', reaches ic r st st' -> caps st' = caps st.
Proof.
  induction r as [|s|p|r1 IH1 r2 IH2|r1 IH1 r2 IH2|r1 IH1|i r1 IH1| |];
    cbn [groupless reaches]; intros Hg st st'.
  - by intros ->.
  - by intros [_ ?].
  - by intros (c & _ & _ & _ & ?).
  - apply andb_true_iff in Hg as [H1 H2]. intros (mid & Ha & Hb).
    rewrite (IH2 H2 _ _ Hb). by apply IH1.
  - apply andb_true_iff in Hg as [H1 H2]. intros [Ha|Hb]; auto.
  - intros Hrtc. induction Hrtc as [|x y z Hxy _ IH]; [done|].
    rewrite IH. by apply IH1.
  - discriminate.
  - by intros [_ ->].
  - by intros [_ ->].
Qed.

Lemma take_app_length (w r : string) :
  take (String.length (w ++ r) - String.length r) (w ++ r) = w.
Proof.
  induction w as [|c w IH].
  - rewrite append_nil_l. rewrite Nat.sub_diag. by destruct r.
  - rewrite append_cons. cbn [String.length].
    assert (Hlen : (String.length r <= String.length (w ++ r))%nat).
    { clear. induction w as [|c w IH]; [by rewrite append_nil_l|].
      rewrite append_cons. cbn [String.length]. lia. }
    rewrite Nat.sub_succ_l by exact Hlen. cbn [take]. by rewrite IH.
Qed.

Lemma consumed_app st st' w :
  rest st = (w ++ rest st')%string -> consumed st st' = w.
Proof. unfold consumed. intros ->. apply take_app_length. Qed.

(** A run of one class. *)
Lemma reaches_class_run ic p st st' :
  rtc (reaches ic (Cls p)) st st' ->
  exists w, rest st = (w ++ rest st')%string
            /\ all_chars (cls_ok ic p) w = true.
Proof.
  induction 1 as [x|x y z Hxy _ (w & Hw & Hall)].
  - exists EmptyString. by rewrite append_nil_l.
  - destruct Hxy as (c & Hr & Hc & _ & _).
    exists (String c w). rewrite append_cons, Hr, Hw. split; [done|].
    cbn [all_chars]. by rewrite Hc, Hall.
Qed.

Lemma reaches_plus_class ic p st st' :
  reaches ic (Plus (Cls p)) st st' ->
  exists w, rest st = (w ++ rest st')%string
            /\ Str.truthy w = true /\ all_chars (cls_ok ic p) w = true.
Proof.
  intros (mid & (c & Hr & Hc & _ & _) & Hrun).
  apply reaches_class_run in Hrun as (w & Hw & Hall).
  exists (String c w). rewrite append_cons, Hr, Hw. repeat split.
  cbn [all_chars]. by rewrite Hc, Hall.
Qed.

Lemma cls_ok_digit ic c : cls_ok ic Str.is_digit c = Str.is_digit c.
Proof.
  destruct ic; [|done]. unfold cls_ok.
  destruct c as [[] [] [] [] [] [] [] []]; vm_compute; reflexivity.
Qed.

Lemma all_chars_ext p q s :
  (forall c, p c = q c) -> all_chars p s = all_chars q s.
Proof. intros E. induction s as [|c t IH]; [done|]. cbn. by rewrite E, IH. Qed.

(** What the group [(\d+)] captures. *)
Lemma reaches_number_group ic i st st' :
  reaches ic (Grp i (Plus digit)) st st' ->
  exists w, caps st' = (i, w) :: caps st /\ is_number w = true.
Proof.
  intros (st1 & Hplus & ->).
  assert (Hcaps : caps st1 = caps st)
    by (by apply (reaches_groupless ic (Plus digit))).
  apply reaches_plus_class in Hplus as (w & Hw & Ht & Hall).
  exists w. cbn [caps]. rewrite (consumed_app _ _ _ Hw), Hcaps.
  split; [done|]. unfold is_number.
  rewrite Ht, <- (all_chars_ext _ _ _ (cls_ok_digit ic)). by rewrite Hall.
Qed.

Lemma int_acc_nonneg s :
  forall acc, 0 <= acc -> all_chars Str.is_digit s = true ->
    0 <= Str.int_acc acc s.
Proof.
  induction s as [|c t IH]; intros acc Hacc; cbn [all_chars Str.int_acc];
    [done|].
  intros [Hc Ht]%andb_true_iff. apply IH; [|exact Ht].
  unfold Str.is_digit, Str.in_range in Hc. lia.
Qed.

(** [int] on a run of digits: it raises exactly when the run is longer
    than the limit, and the number read is not negative. *)
Lemma is_number_int s :
  is_number s = true ->
  Str.int_of s
  = (if (Str.MAX_STR_DIGITS <? String.length s)%nat then None
     else Some (Str.int_acc 0 s))
  /\ 0 <= Str.int_acc 0 s.
Proof.
  unfold is_number. intros [Ht Hd]%andb_true_iff. split.
  - unfold Str.int_of. destruct s as [|c t]; [discriminate|].
    assert (Hex : Str.existsb_chars (fun c => negb (Str.is_digit c))
                    (String c t) = false).
    { clear Ht. revert Hd. generalize (String c t). intros s.
      induction s as [|a s IH]; [done|]. cbn.
      intros [-> Hs]%andb_true_iff. by rewrite IH. }
    by rewrite Hex.
  - by apply int_acc_nonneg.
Qed.

Lemma int_of_nonneg s n : Str.int_of s = Some n -> 0 <= n.
Proof.
  unfold Str.int_of. destruct s as [|c t]; [discriminate|].
  destruct (Str.existsb_chars _ _) eqn:Hex; [discriminate|].
  destruct (_ <? _)%nat; [discriminate|]. intros [= <-].
  change (0 <= Str.int_acc 0 (String c t)).
  apply int_acc_nonneg; [lia|].
  revert Hex. generalize (String c t). intros s.
  induction s as [|a s IH]; [done|]. cbn.
  destruct (Str.is_digit a); [|discriminate]. exact IH.
Qed.

Lemma int_of_value s n : Str.int_of s = Some n -> n = Str.int_acc 0 s.
Proof.
  unfold Str.int_of. destruct s as [|c t]; [discriminate|].
  destruct (Str.existsb_chars _ _); [discriminate|].
  destruct (_ <? _)%nat; [discriminate|]. by intros [= <-].
Qed.

Lemma guests_phrase_number text m :
  search true GUESTS_PHRASE text = Some m -> is_number (group_text 1 m) = true.
Proof.
  intros Hs. apply search_sound in Hs as (st & Hc0 & Hr).
  destruct Hr as (m1 & Hg & m2 & Hsp & m3 & Hw & ->).
  apply reaches_number_group in Hg as (w & Hc & Hnum).
  apply (reaches_groupless true (Star space)) in Hsp; [|done].
  apply (reaches_groupless true
           (AltLits ["guest"; "guests"; "person"; "people"])) in Hw; [|done].
  unfold group_text, group. rewrite Hw, Hsp, Hc. exact Hnum.
Qed.

Lemma for_nights_number text m :
  search true FOR_NIGHTS text = Some m -> is_number (group_text 1 m) = true.
Proof.
  intros Hs. apply search_sound in Hs as (st & Hc0 & Hr).
  destruct Hr as (m1 & Hf & m2 & Hsp & m3 & Hg & m4 & Hsp2 & m5 & Hl & ->).
  apply reaches_number_group in Hg as (w & Hc & Hnum).
  apply (reaches_groupless true (Lit "night")) in Hl; [|done].
  apply (reaches_groupless true (Plus space)) in Hsp2; [|done].
  unfold group_text, group. rewrite Hl, Hsp2, Hc. exact Hnum.
Qed.

(** What a literal consumes under [re.I] is the literal up to case. *)
Lemma eat_ci_text lit :
  forall pv s pv' s', eat true lit pv s = Some (pv', s') ->
    exists c, s = (c ++ s')%string /\ Str.lower c = Str.lower lit.
Proof.
  induction lit as [|a lit IH]; intros pv s pv' s'; cbn [eat].
  - intros [= _ <-]. exists EmptyString. by rewrite append_nil_l.
  - destruct s as [|b s0]; [discriminate|].
    destruct (char_eq true a b) eqn:Hc; [|discriminate].
    intros He. apply IH in He as (c & -> & Hl).
    exists (String b c). rewrite append_cons. split; [done|].
    cbn [Str.lower Str.map_chars]. fold (Str.lower c) (Str.lower lit).
    unfold char_eq in Hc. apply Ascii.eqb_eq in Hc. by rewrite Hl, Hc.
Qed.

Lemma reaches_alt_lits ic ws st st' :
  ws <> [] -> reaches ic (AltLits ws) st st' ->
  exists w, In w ws /\ reaches ic (Lit w) st st'.
Proof.
  induction ws as [|w ws IH]; [done|]. intros _.
  destruct ws as [|w' ws].
  - cbn [AltLits]. intros H. exists w. split; [by left|exact H].
  - change (AltLits (w :: w' :: ws)) with (Alt (Lit w) (AltLits (w' :: ws))).
    intros [H|H].
    + exists w. split; [by left|exact H].
    + apply IH in H as (w0 & Hin & H); [|done].
      exists w0. split; [by right|exact H].
Qed.

(** What a group of alternative words captures under [re.I]. *)
Lemma reaches_word_group i ws st st' :
  ws <> [] -> reaches true (Grp i (AltLits ws)) st st' ->
  exists c w, In w ws /\ Str.lower c = Str.lower w
              /\ caps st' = (i, c) :: caps st.
Proof.
  intros Hne (st1 & Hr & ->).
  apply reaches_alt_lits in Hr as (w & Hin & He & Hc); [|exact Hne].
  apply eat_ci_text in He as (c & Hs & Hl).
  exists c, w. cbn [caps]. by rewrite (consumed_app _ _ _ Hs), Hc.
Qed.

Lemma upper_lower_char c :
  Str.upper_char (Str.lower_char c) = Str.upper_char c.
Proof. destruct c as [[] [] [] [] [] [] [] []]; reflexivity. Qed.

Lemma normalize_breakfast_lower br :
  normalize_breakfast (Str.lower br) = normalize_breakfast br.
Proof.
  unfold normalize_breakfast. rewrite lower_idempotent.
  destruct br as [|c t]; [reflexivity|].
  cbn [Str.lower Str.map_chars Str.capitalize]. fold (Str.lower t).
  fold (Str.lower (Str.lower t)).
  by rewrite upper_lower_char, lower_idempotent.
Qed.

Lemma normalize_payment_lower pay v :
  dict_get (Str.lower pay) payment_mapping = Some v ->
  normalize_payment pay = v.
Proof. unfold normalize_payment. by intros ->. Qed.

Ltac each_word H :=
  repeat (destruct H as [<-|H]; [vm_compute; tauto|]); destruct H.

Lemma breakfast_token_values text br :
  breakfast_token text = Some br -> In (normalize_breakfast br) breakfast_values.
Proof.
  unfold breakfast_token.
  destruct (found true (Word (Lit "breakfast")) text); [|discriminate].
  destruct (search true BREAKFAST_TOKEN text) as [m|] eqn:Hs.
  - intros [= <-]. apply search_sound in Hs as (st & Hc0 & Hr).
    destruct Hr as (m1 & Hl & m2 & Hsp & m3 & Hg & ->).
    apply reaches_word_group in Hg as (c & w & Hin & Hlow & Hc); [|done].
    unfold group_text, group. rewrite Hc. cbn [lookup_group Nat.eqb].
    rewrite <- normalize_breakfast_lower, Hlow. clear -Hin.
    each_word Hin.
  - repeat match goal with
           | |- (if ?b then _ else _) = _ -> _ => destruct b
           end; intros [= <-]; vm_compute; tauto.
Qed.

Lemma payment_word_mapped c w :
  In w PAYMENT_WORDS -> Str.lower c = Str.lower w ->
  exists v, dict_get (Str.lower c) payment_mapping = Some v
            /\ In v payment_values.
Proof.
  intros Hin ->. unfold PAYMENT_WORDS in Hin.
  repeat (destruct Hin as [<-|Hin];
          [eexists; split; [vm_compute; reflexivity|vm_compute; tauto]|]).
  destruct Hin.
Qed.

(** The payment token is always a key of the mapping, up to case. *)
Lemma payment_token_word text pay :
  payment_token text = Some pay ->
  exists w, In w PAYMENT_WORDS /\ Str.lower pay = Str.lower w.
Proof.
  unfold payment_token.
  destruct (search true (Word (Grp 1 (AltLits PAYMENT_WORDS))) text)
    as [pay_m|] eqn:Hs.
  - apply search_sound in Hs as (st & Hc0 & Hr).
    destruct Hr as (m1 & [_ ->] & m2 & Hg & [_ ->]).
    apply reaches_word_group in Hg as (c & w & Hin & Hlow & Hc); [|done].
    assert (Hg1 : group_text 1 m2 = c).
    { unfold group_text, group. by rewrite Hc. }
    rewrite Hg1.
    destruct (found true (Word (Lit "payment")) text && negb (Str.truthy c)).
    + destruct (search true PAYMENT_SCOPED text) as [m2'|] eqn:Hs2.
      * intros [= <-]. apply search_sound in Hs2 as (st2 & _ & Hr2).
        destruct Hr2 as (n1 & _ & n2 & _ & n3 & Hg2 & ->).
        apply reaches_word_group in Hg2 as (c2 & w2 & Hin2 & Hlow2 & Hc2);
          [|done].
        unfold group_text, group. rewrite Hc2. cbn [lookup_group Nat.eqb].
        exists w2. split; [|exact Hlow2]. clear -Hin2.
        unfold PAYMENT_WORDS. cbn in Hin2 |- *. tauto.
      * intros [= <-]. eauto.
    + intros [= <-]. eauto.
  - destruct (found true (Word (Lit "payment")) text && negb false);
      [|discriminate].
    destruct (search true PAYMENT_SCOPED text) as [m2'|] eqn:Hs2;
      [|discriminate].
    intros [= <-]. apply search_sound in Hs2 as (st2 & _ & Hr2).
    destruct Hr2 as (n1 & _ & n2 & _ & n3 & Hg2 & ->).
    apply reaches_word_group in Hg2 as (c2 & w2 & Hin2 & Hlow2 & Hc2);
      [|done].
    unfold group_text, group. rewrite Hc2. cbn [lookup_group Nat.eqb].
    exists w2. split; [|exact Hlow2]. clear -Hin2.
    unfold PAYMENT_WORDS. cbn in Hin2 |- *. tauto.
Qed.

Lemma payment_token_mapped text pay :
  payment_token text = Some pay ->
  dict_get (Str.lower pay) payment_mapping <> None.
Proof.
  intros (w & Hin & Hlow)%payment_token_word.
  destruct (payment_word_mapped pay w Hin Hlow) as (v & -> & _). done.
Qed.

Lemma payment_token_values text pay :
  payment_token text = Some pay -> In (normalize_payment pay) payment_values.
Proof.
  intros (w & Hin & Hlow)%payment_token_word.
  destruct (payment_word_mapped pay w Hin Hlow) as (v & Hv & Hval).
  unfold normalize_payment. by rewrite Hv.
Qed.

(** *** Where a match sits in the text *)

Lemma search_from_at ic r s :
  forall pv m, search_from ic r pv s = Some m ->
    exists pre pv' s', s = (pre ++ s')%string /\ match_at ic r pv' s' = Some m.
Proof.
  induction s as [|c t IH]; intros pv m; cbn [search_from].
  - destruct (match_at ic r pv "") eqn:Hm; [|discriminate].
    intros [= <-]. exists EmptyString, pv, EmptyString. by split.
  - destruct (match_at ic r pv (String c t)) eqn:Hm.
    + intros [= <-]. exists EmptyString, pv, (String c t).
      by rewrite append_nil_l.
    + intros Hs. apply IH in Hs as (pre & pv' & s' & -> & Hm').
      exists (String c pre), pv', s'. by rewrite append_cons.
Qed.

(** A successful search starts at a position of the text. *)
Lemma search_at ic r text m :
  search ic r text = Some m ->
  exists pre st, caps st = [] /\ text = (pre ++ rest st)%string
                 /\ reaches ic r st m.
Proof.
  unfold search. intros Hs.
  apply search_from_at in Hs as (pre & pv & s & -> & Hm).
  unfold match_at in Hm. apply mre_sound in Hm as (st' & Hr & [= ->]).
  by exists pre, (MState pv s []).
Qed.

Lemma append_assoc (a b c : string) :
  ((a ++ b) ++ c)%string = (a ++ (b ++ c))%string.
Proof.
  induction a as [|x a IH]; [by rewrite !append_nil_l|].
  by rewrite !append_cons, IH.
Qed.

Lemma eat_span ic lit :
  forall pv s pv' s', eat ic lit pv s = Some (pv', s') ->
    exists c, s = (c ++ s')%string.
Proof.
  induction lit as [|a lit IH]; intros pv s pv' s'; cbn [eat].
  - intros [= _ <-]. exists EmptyString. by rewrite append_nil_l.
  - destruct s as [|b s0]; [discriminate|].
    destruct (char_eq ic a b); [|discriminate].
    intros He. apply IH in He as (c & ->).
    exists (String b c). by rewrite append_cons.
Qed.

(** What a path consumes is a piece of the text. *)
Lemma reaches_span ic r :
  forall st st', reaches ic r st st' ->
    exists w, rest st = (w ++ rest st')%string.
Proof.
  induction r as [|s|p|r1 IH1 r2 IH2|r1 IH1 r2 IH2|r1 IH1|i r1 IH1| |];
    cbn [reaches]; intros st st'.
  - intros ->. exists EmptyString. by rewrite append_nil_l.
  - intros [He _]. by apply eat_span in He.
  - intros (c & Hr & _). exists (String c EmptyString).
    by rewrite append_cons, append_nil_l.
  - intros (mid & H1 & H2). apply IH1 in H1 as (w1 & ->).
    apply IH2 in H2 as (w2 & ->). exists (w1 ++ w2)%string.
    by rewrite append_assoc.
  - intros [H|H]; auto.
  - intros Hrtc. induction Hrtc as [x|x y z Hxy _ (w2 & Hw2)].
    + exists EmptyString. by rewrite append_nil_l.
    + apply IH1 in Hxy as (w1 & ->). exists (w1 ++ w2)%string.
      by rewrite Hw2, append_assoc.
  - intros (st1 & H1 & ->). by apply IH1 in H1.
  - intros [_ ->]. exists EmptyString. by rewrite append_nil_l.
  - intros [_ ->]. exists EmptyString. by rewrite append_nil_l.
Qed.

(** A path from a position of the text ends at a position of the text. *)
Lemma reaches_at ic r st st' pre :
  reaches ic r st st' ->
  exists w, rest st = (w ++ rest st')%string
            /\ (pre ++ rest st)%string = ((pre ++ w) ++ rest st')%string.
Proof.
  intros (w & Hw)%reaches_span. exists w. split; [exact Hw|].
  by rewrite Hw, append_assoc.
Qed.

(** *** Characters of a class in the text *)

Lemma existsb_chars_app p (a b : string) :
  Str.existsb_chars p (a ++ b)
  = Str.existsb_chars p a || Str.existsb_chars p b.
Proof.
  induction a as [|c a IH]; [by rewrite append_nil_l|].
  rewrite append_cons. cbn [Str.existsb_chars]. by rewrite IH, orb_assoc.
Qed.

(** A match of [\d] needs a digit in the text. *)
Lemma reaches_digit ic st st' pre :
  reaches ic digit st st' ->
  Str.existsb_chars Str.is_digit (pre ++ rest st) = true.
Proof.
  intros (c & Hr & Hc & _). rewrite cls_ok_digit in Hc.
  rewrite existsb_chars_app, Hr. cbn [Str.existsb_chars].
  by rewrite Hc, orb_true_r.
Qed.

Lemma guests_phrase_needs_digit text m :
  search true GUESTS_PHRASE text = Some m ->
  Str.existsb_chars Str.is_digit text = true.
Proof.
  intros (pre & st & _ & -> & Hr)%search_at.
  destruct Hr as (m1 & (m0 & (d1 & Hd & _) & ->) & _).
  by apply (reaches_digit true st d1).
Qed.

Lemma for_nights_needs_digit text m :
  search true FOR_NIGHTS text = Some m ->
  Str.existsb_chars Str.is_digit text = true.
Proof.
  intros (pre & st & _ & -> & Hr)%search_at.
  destruct Hr as (m1 & Hf & m2 & Hsp & m3 & (m0 & (d1 & Hd & _) & ->) & _).
  destruct (reaches_at true _ _ _ pre Hf) as (w1 & _ & ->).
  destruct (reaches_at true _ _ _ (pre ++ w1) Hsp) as (w2 & _ & ->).
  by apply (reaches_digit true m2 d1).
Qed.

Lemma rep_digit_needs_digit ic hi st st' pre :
  reaches ic (Rep 1 hi digit) st st' ->
  Str.existsb_chars Str.is_digit (pre ++ rest st) = true.
Proof.
  intros (mid & (d1 & Hd & _) & _). by apply (reaches_digit ic st d1).
Qed.

Lemma range_side_needs_digit st st' pre :
  reaches false RANGE_SIDE st st' ->
  Str.existsb_chars Str.is_digit (pre ++ rest st) = true.
Proof.
  intros [H|H].
  - destruct H as (m1 & Ha & m2 & Hsp & m3 & Hd & _).
    destruct (reaches_at false _ _ _ pre Ha) as (w1 & _ & ->).
    destruct (reaches_at false _ _ _ (pre ++ w1) Hsp) as (w2 & _ & ->).
    by apply (rep_digit_needs_digit false 2 m2 m3).
  - destruct H as (m1 & Hd & _).
    by apply (rep_digit_needs_digit false 2 st m1).
Qed.

Lemma date_range_needs_digit text m :
  search false DATE_RANGE text = Some m ->
  Str.existsb_chars Str.is_digit text = true.
Proof.
  intros (pre & st & _ & -> & Hr)%search_at.
  destruct Hr as (m1 & (m0 & Hside & ->) & _).
  by apply (range_side_needs_digit st m0).
Qed.

(** *** Substrings *)

Lemma lower_app (a b : string) :
  Str.lower (a ++ b) = (Str.lower a ++ Str.lower b)%string.
Proof.
  induction a as [|c a IH]; [by rewrite !append_nil_l|].
  rewrite append_cons. cbn [Str.lower Str.map_chars].
  fold (Str.lower (a ++ b)) (Str.lower a). by rewrite IH, append_cons.
Qed.

Lemma drop_prefix_self (w post : string) :
  Str.drop_prefix w (w ++ post) = Some post.
Proof.
  induction w as [|c w IH]; [by rewrite append_nil_l|].
  rewrite append_cons. cbn [Str.drop_prefix].
  by rewrite Ascii.eqb_refl.
Qed.

Lemma drop_prefix_split (w s post : string) :
  Str.drop_prefix w s = Some post -> s = (w ++ post)%string.
Proof.
  revert s. induction w as [|c w IH]; intros s; cbn [Str.drop_prefix].
  - intros [= ->]. by rewrite append_nil_l.
  - destruct s as [|d s]; [discriminate|].
    destruct (Ascii.eqb_spec c d) as [->|]; [|discriminate].
    intros H. rewrite append_cons. f_equal. by apply IH.
Qed.

Lemma contains_cons w c s :
  Str.contains w (String c s) = Str.startswith w (String c s) || Str.contains w s.
Proof. reflexivity. Qed.

Lemma contains_app (pre w post : string) :
  Str.contains w (pre ++ (w ++ post)) = true.
Proof.
  induction pre as [|c pre IH].
  - rewrite append_nil_l.
    assert (Hs : Str.startswith w (w ++ post) = true)
      by (unfold Str.startswith; by rewrite drop_prefix_self).
    destruct (w ++ post)%string; cbn [Str.contains]; by rewrite Hs.
  - rewrite append_cons, contains_cons, IH. apply orb_true_r.
Qed.

Lemma contains_split w s :
  Str.contains w s = true ->
  exists pre post, s = (pre ++ (w ++ post))%string.
Proof.
  induction s as [|c s IH].
  - cbn [Str.contains]. rewrite orb_false_r. unfold Str.startswith.
    destruct (Str.drop_prefix w EmptyString) as [post|] eqn:Hd; [|discriminate].
    intros _. exists EmptyString, post. rewrite append_nil_l.
    by apply drop_prefix_split.
  - rewrite contains_cons. intros [Hs|Hc]%orb_true_iff.
    + unfold Str.startswith in Hs.
      destruct (Str.drop_prefix w (String c s)) as [post|] eqn:Hd;
        [|discriminate].
      exists EmptyString, post. rewrite append_nil_l.
      by apply drop_prefix_split.
    + destruct (IH Hc) as (pre & post & ->).
      exists (String c pre), post. by rewrite append_cons.
Qed.

(** A substring of a substring is a substring. *)
Lemma contains_trans a b s :
  Str.contains a b = true -> Str.contains b s = true ->
  Str.contains a s = true.
Proof.
  intros (p1 & q1 & ->)%contains_split (p2 & q2 & ->)%contains_split.
  replace (p2 ++ ((p1 ++ (a ++ q1)) ++ q2))%string
    with ((p2 ++ p1) ++ (a ++ (q1 ++ q2)))%string
    by (by rewrite !append_assoc).
  apply contains_app.
Qed.

(** A literal matched under [re.I] occurs in the lower-cased text. *)
Lemma reaches_lit_occurs w st st' pre :
  reaches true (Lit w) st st' ->
  Str.contains (Str.lower w) (Str.lower (pre ++ rest st)) = true.
Proof.
  intros [He _]. apply eat_ci_text in He as (c & -> & Hl).
  rewrite !lower_app, Hl. apply contains_app.
Qed.

Lemma reaches_alt_lits_occurs ws st st' pre :
  ws <> [] -> reaches true (AltLits ws) st st' ->
  exists w, In w ws
            /\ Str.contains (Str.lower w) (Str.lower (pre ++ rest st)) = true.
Proof.
  intros Hne (w & Hin & Hr)%reaches_alt_lits; [|exact Hne].
  exists w. split; [exact Hin|]. by apply (reaches_lit_occurs w st st').
Qed.

(** *** A word under [re.I] *)

Lemma wordish_lower pv :
  wordish (option_map Str.lower_char pv) = wordish pv.
Proof.
  destruct pv as [c|]; [|reflexivity]. cbn.
  destruct c as [[] [] [] [] [] [] [] []]; reflexivity.
Qed.

Lemma next_char_lower s :
  next_char (Str.lower s) = option_map Str.lower_char (next_char s).
Proof. by destruct s. Qed.

(** A lower-case literal under [re.I] consumes what the literal would
    consume of the lower-cased text. *)
Lemma eat_ci_drop_prefix w :
  Str.lower w = w ->
  forall pv s,
    match eat true w pv s with
    | Some (pv', after) =>
        Str.drop_prefix w (Str.lower s) = Some (Str.lower after)
        /\ option_map Str.lower_char pv'
           = last_char (option_map Str.lower_char pv) w
    | None => Str.drop_prefix w (Str.lower s) = None
    end.
Proof.
  induction w as [|a w IH]; intros Hl pv s.
  - cbn [eat Str.drop_prefix last_char]. by split.
  - injection Hl as Ha Hw. cbn [eat].
    destruct s as [|b s]; [reflexivity|].
    cbn [Str.lower Str.map_chars Str.drop_prefix]. fold (Str.lower s).
    unfold char_eq. rewrite Ha.
    destruct (Ascii.eqb a (Str.lower_char b)) eqn:Hab; [|reflexivity].
    specialize (IH Hw (Some b) s).
    destruct (eat true w (Some b) s) as [[pv' after]|]; [|exact IH].
    destruct IH as [Hd Hp]. split; [exact Hd|].
    rewrite Hp. cbn [option_map]. apply Ascii.eqb_eq in Hab. subst a.
    by destruct w.
Qed.

Lemma hit_word_ci w pv s :
  Str.lower w = w -> word_edged w = true ->
  is_set (match_at true (Word (Lit w)) pv s)
  = word_here w (option_map Str.lower_char pv) (Str.lower s).
Proof.
  intros Hl Hw. unfold match_at, Word, word_here. cbn [mre prev rest caps].
  unfold word_edged in Hw. apply andb_true_iff in Hw as [Hfirst Hlast].
  unfold at_boundary. cbn [prev rest].
  pose proof (eat_ci_drop_prefix w Hl pv s) as He.
  rewrite wordish_lower.
  destruct (eat true w pv s) as [[pv' after]|].
  - destruct He as [Hd Hp]. rewrite Hd.
    assert (Hne : w <> EmptyString) by (intros ->; discriminate Hfirst).
    pose proof (drop_prefix_next _ _ _ Hd Hne) as Hn.
    rewrite next_char_lower in Hn.
    assert (Hfirst' : wordish (next_char s) = true)
      by (rewrite <- wordish_lower, Hn; exact Hfirst).
    rewrite Hfirst'.
    assert (Hl' : wordish pv' = true).
    { rewrite <- wordish_lower, Hp. destruct w as [|a w]; [done|]. exact Hlast. }
    cbn [prev rest]. rewrite Hl', next_char_lower, wordish_lower.
    destruct (wordish pv); cbn; [reflexivity|].
    destruct (wordish (next_char after)); reflexivity.
  - rewrite He. destruct (xorb _ _); by rewrite ?andb_false_r.
Qed.

Lemma any_pos_lower P pv s :
  any_pos P (option_map Str.lower_char pv) (Str.lower s)
  = any_pos (fun pv s => P (option_map Str.lower_char pv) (Str.lower s)) pv s.
Proof.
  revert pv. induction s as [|c s IH]; intros pv; [reflexivity|].
  cbn [Str.lower Str.map_chars any_pos]. fold (Str.lower s).
  f_equal. apply (IH (Some c)).
Qed.

Lemma found_ci_any_pos r s :
  found true r s = any_pos (fun pv s => is_set (match_at true r pv s)) None s.
Proof.
  unfold found, search. generalize (@None ascii) as pv.
  induction s as [|c s IH]; intros pv; cbn [search_from any_pos].
  - destruct (match_at true r pv EmptyString); reflexivity.
  - destruct (match_at true r pv (String c s)); cbn; [reflexivity|].
    apply IH.
Qed.

(** [\bw\b] under [re.I] finds the word [w] of the lower-cased text. *)
Lemma found_word_ci w s :
  Str.lower w = w -> word_edged w = true ->
  found true (Word (Lit w)) s = has_word w (Str.lower s).
Proof.
  intros Hl Hw. rewrite found_ci_any_pos. unfold has_word.
  change (@None ascii) with (option_map Str.lower_char None) at 2.
  rewrite any_pos_lower. apply any_pos_ext. intros. by apply hit_word_ci.
Qed.

(** ** Breakfast and payment normalization (C9, C10) *)

Section ExtractorFacts.
Variable nlp : string -> list entity.
Variable search_dates : string -> option (list (string * datetime)).
Variable parse_date : settings -> string -> option datetime.
Variable today : datetime.

Variable utcnow : datetime.

Local Abbreviation extract_entities' :=
  (extract_entities nlp search_dates parse_date today).

Lemma extract_found_dates_frame text e e' :
  extract_found_dates search_dates parse_date today text e = Some e' ->
  same_non_date_fields e' e.
Proof.
  unfold extract_found_dates.
  destruct (map snd (normalize_all today (search_dates text)))
    as [|d0 [|d1 ds]].
  - intros [= <-]. repeat split.
  - destruct (search true FOR_NIGHTS text) as [m|].
    + destruct (Str.int_of _) as [n|]; [|discriminate].
      destruct (add_days d0 n); intros [= <-]. repeat split.
    + destruct (search false TRAILING_DATE text) as [m2|].
      * destruct (parse_date Prefer_future _) as [sc|];
          [|intros [= <-]; repeat split].
        destruct (dt_lt _ d0); intros [= <-]. repeat split.
      * intros [= <-]. repeat split.
  - destruct (dt_lt d1 d0); intros [= <-]. repeat split.
Qed.

Lemma extract_range_frame text e e' :
  extract_range parse_date today text e = Some e' ->
  same_non_date_fields e' e.
Proof.
  unfold extract_range.
  destruct (search false DATE_RANGE text) as [m|];
    [|intros [= <-]; repeat split].
  destruct (x_checkin e); [intros [= <-]; repeat split|].
  destruct (parse_date Default_settings (group_text 1 m)) as [d1|];
    [|intros [= <-]; repeat split].
  destruct (parse_date Default_settings (group_text 2 m)) as [d2|];
    [|intros [= <-]; repeat split].
  cbv zeta. destruct (dt_lt _ _); intros [= <-]. repeat split.
Qed.

(** Whatever the date stages find, the breakfast and payment entries are
    the ones the two stages computed from the text. *)
Lemma extract_entities_non_dates text e :
  Str.truthy text = true ->
  extract_entities' text = Some e ->
  x_breakfast e = extract_breakfast text
  /\ x_payment_method e = extract_payment text.
Proof.
  intros Ht. unfold extract_entities. rewrite Ht. cbn [negb].
  destruct (extract_guests nlp text) as [g|]; [|discriminate].
  destruct (looks_like_name_response text && negb (found true NAME_CUE text)).
  - intros [= <-]. split; reflexivity.
  - destruct (extract_found_dates _ _ _ _ _) as [e1|] eqn:H1; [|discriminate].
    intros H2.
    apply extract_found_dates_frame in H1 as (_ & _ & Hb1 & Hp1).
    apply extract_range_frame in H2 as (_ & _ & Hb2 & Hp2).
    simpl in Hb1, Hp1. split; congruence.
Qed.

(** Without a digit in the text the guests stage cannot raise. *)
Lemma extract_guests_without_digit text :
  Str.existsb_chars Str.is_digit text = false ->
  extract_guests nlp text
  = Some (first_cardinal (ents_with nlp "CARDINAL" text)).
Proof.
  intros Hd. unfold extract_guests.
  destruct (search true GUESTS_PHRASE text) as [m|] eqn:Hs.
  - apply guests_phrase_needs_digit in Hs. congruence.
  - by destruct (negb _).
Qed.

(** The extractor returns when the text has no digit and the date search
    finds nothing: no number is read and no two dates are compared. *)
Lemma extract_entities_returns text :
  normalize_all today (search_dates text) = [] ->
  Str.existsb_chars Str.is_digit text = false ->
  exists e, extract_entities' text = Some e.
Proof.
  intros Hnone Hd. unfold extract_entities.
  destruct (negb (Str.truthy text)); [eauto|].
  rewrite (extract_guests_without_digit text Hd).
  destruct (looks_like_name_response text && negb (found true NAME_CUE text));
    [eauto|].
  unfold extract_found_dates. rewrite Hnone. cbn [map].
  unfold extract_range.
  destruct (search false DATE_RANGE text) as [m|] eqn:Hs; [|eauto].
  apply date_range_needs_digit in Hs. congruence.
Qed.

End ExtractorFacts.

Section Normalization.
Variable nlp : string -> list entity.
Variable parse_date : settings -> string -> option datetime.
Variable today : datetime.


End Normalization.

(** ** The breakfast fallback (C10) *)

(** The fallback of the breakfast stage. *)
Lemma extract_breakfast_fallback text :
  found true (Word (Lit "breakfast")) text = true ->
  no_preference_cue text = true ->
  extract_breakfast text = Some "Unspecified".
Proof.
  intros Hword Hcue.
  unfold extract_breakfast, breakfast_token. rewrite Hword.
  unfold no_preference_cue in Hcue.
  repeat (apply andb_true_iff in Hcue as [Hcue ?]).
  repeat match goal with
         | H : negb _ = true |- _ => apply negb_true_iff in H
         end.
  destruct (search true BREAKFAST_TOKEN text); [discriminate|].
  repeat match goal with
         | H : found _ _ text = false |- _ => rewrite H; clear H
         end.
  reflexivity.
Qed.

(** A word that has a cue in it cannot occur where no cue occurs. *)
Lemma cue_word_absent w text :
  existsb (fun cue => Str.contains cue (Str.lower w)) breakfast_cues = true ->
  none_occurs breakfast_cues text = true ->
  Str.contains (Str.lower w) (Str.lower text) = false.
Proof.
  intros Hcue Hnone.
  destruct (Str.contains (Str.lower w) (Str.lower text)) eqn:Hc;
    [|reflexivity].
  apply existsb_exists in Hcue as (cue & Hin & Hcw).
  unfold none_occurs in Hnone. rewrite forallb_forall in Hnone.
  specialize (Hnone cue Hin).
  by rewrite (contains_trans _ _ _ Hcw Hc) in Hnone.
Qed.

Lemma cue_words_absent ws text st st' pre :
  ws <> [] ->
  forallb (fun w => existsb (fun cue => Str.contains cue (Str.lower w))
                      breakfast_cues) ws = true ->
  none_occurs breakfast_cues text = true ->
  text = (pre ++ rest st)%string ->
  reaches true (AltLits ws) st st' -> False.
Proof.
  intros Hne Hall Hnone -> Hr.
  destruct (reaches_alt_lits_occurs ws st st' pre Hne Hr) as (w & Hin & Hc).
  rewrite forallb_forall in Hall.
  by rewrite (cue_word_absent w _ (Hall w Hin) Hnone) in Hc.
Qed.

Lemma cue_literal_absent w text st st' pre :
  existsb (fun cue => Str.contains cue (Str.lower w)) breakfast_cues = true ->
  none_occurs breakfast_cues text = true ->
  text = (pre ++ rest st)%string ->
  reaches true (Lit w) st st' -> False.
Proof.
  intros Hcue Hnone -> Hr.
  pose proof (reaches_lit_occurs w st st' pre Hr) as Hc.
  by rewrite (cue_word_absent w _ Hcue Hnone) in Hc.
Qed.

Lemma not_found ic r text :
  (forall m, search ic r text = Some m -> False) -> found ic r text = false.
Proof.
  unfold found. destruct (search ic r text) as [m|]; [|reflexivity].
  intros H. destruct (H m eq_refl).
Qed.

(** Where none of the cue words occurs, every cue pattern of the breakfast
    stage fails. *)
Lemma no_cue_word_no_cue text :
  none_occurs breakfast_cues text = true -> no_preference_cue text = true.
Proof.
  intros Hnone. unfold no_preference_cue.
  assert (H1 : search true BREAKFAST_TOKEN text = None).
  { destruct (search true BREAKFAST_TOKEN text) as [m|] eqn:Hs; [|reflexivity].
    exfalso. apply search_at in Hs as (pre & st & _ & Ht & Hr).
    destruct Hr as (m1 & Hl & m2 & Hsp & m3 & (m0 & Ha & _) & _).
    destruct (reaches_at true _ _ _ pre Hl) as (w1 & _ & E1).
    rewrite <- Ht in E1.
    destruct (reaches_at true _ _ _ (pre ++ w1) Hsp) as (w2 & _ & E2).
    rewrite <- E1 in E2.
    eapply cue_words_absent; [| |exact Hnone|exact E2|exact Ha];
      [done | reflexivity]. }
  rewrite H1. cbn [is_set negb andb].
  rewrite !not_found; [reflexivity|..];
    intros m (pre & st & _ & Ht & Hr)%search_at;
    first
      [ eapply cue_literal_absent; [|exact Hnone|exact Ht|exact Hr];
        reflexivity
      | destruct Hr as [(m1 & Hl & _)|[Hl|Hl]];
        (eapply cue_literal_absent; [|exact Hnone|exact Ht|exact Hl];
         reflexivity)
      | destruct Hr as (m1 & Ha & _);
        eapply cue_words_absent; [| |exact Hnone|exact Ht|exact Ha];
        [done | reflexivity] ].
Qed.

(** A non-empty breakfast entry replaces the stored one and is recorded
    as changed. *)
Lemma merge_sets_breakfast e b v :
  x_breakfast e = Some v -> Str.truthy v = true ->
  breakfast (fst (merge_extracted e b)) = Some v
  /\ In "breakfast" (snd (merge_extracted e b)).
Proof.
  intros Hb Hv. unfold merge_extracted, merge_field. rewrite Hb.
  cbn [truthy_str]. rewrite Hv.
  destruct (truthy_str (x_name e)), (truthy_num (x_guests e)),
    (is_set (option_map as_stored (x_checkin e))),
    (is_set (option_map as_stored (x_checkout e))),
    (truthy_num (x_nights e)), (truthy_str (x_payment_method e));
    (split; [reflexivity | simpl; tauto]).
Qed.

(** C10, as stated, fails: "american" and "with" are cues of the breakfast
    stage that the claim does not list.  Each of the two utterances has
    the standalone word "breakfast" and none of the listed cues, and
    extraction yields "American" for the one and "Included" for the
    other. *)
Lemma breakfast_cue_outside_the_list :
  has_word "breakfast" (Str.lower "breakfast american please") = true
  /\ none_occurs claimed_breakfast_cues "breakfast american please" = true
  /\ (exists e,
        extract_entities nlp_none search_dates_none parse_date_none
          clock_example "breakfast american please" = Some e
        /\ x_breakfast e = Some "American")
  /\ has_word "breakfast" (Str.lower "breakfast with jam") = true
  /\ none_occurs claimed_breakfast_cues "breakfast with jam" = true
  /\ (exists e,
        extract_entities nlp_none search_dates_none parse_date_none
          clock_example "breakfast with jam" = Some e
        /\ x_breakfast e = Some "Included")
  /\ ~ breakfast_fallback_as_claimed.
Proof.
  split; [reflexivity|]. split; [reflexivity|].
  split; [eexists; split; [vm_compute; reflexivity | reflexivity]|].
  split; [reflexivity|]. split; [reflexivity|].
  split; [eexists; split; [vm_compute; reflexivity | reflexivity]|].
  intros H.
  specialize (H nlp_none search_dates_none parse_date_none clock_example
                "breakfast american please" _ eq_refl eq_refl eq_refl).
  discriminate H.
Qed.

Section Fallback.
Variable nlp : string -> list entity.
Variable search_dates : string -> option (list (string * datetime)).
Variable parse_date : settings -> string -> option datetime.
Variable today : datetime.
Variable utcnow : datetime.

Local Abbreviation extract_entities' :=
  (extract_entities nlp search_dates parse_date today).

(** C10, amended.  For an ASCII text that contains the standalone word
    "breakfast" (in any case) and in which none of yes, no, include, with,
    continental, american, buffet, full, english occurs anywhere (in any
    case): the breakfast stage yields "Unspecified"; every mapping the
    extractor returns has breakfast "Unspecified", and merging it sets the
    draft's breakfast to "Unspecified" whatever was stored before and
    records the change; the extractor does return when the text has no
    digit and the date search finds nothing; and a turn with this text as
    its stripped utterance either ends in an exception, with the table as
    the draft lookup left it, or stores the post-merge draft with
    breakfast "Unspecified" and "breakfast" among the changed fields. *)
Theorem breakfast_fallback_unspecified (text : string) :
  ascii_text text = true ->
  has_word "breakfast" (Str.lower text) = true ->
  none_occurs breakfast_cues text = true ->
  extract_breakfast text = Some "Unspecified"
  /\ (forall e, extract_entities' text = Some e ->
        x_breakfast e = Some "Unspecified"
        /\ forall b,
             breakfast (fst (merge_extracted e b)) = Some "Unspecified"
             /\ In "breakfast" (snd (merge_extracted e b)))
  /\ (normalize_all today (search_dates text) = [] ->
      Str.existsb_chars Str.is_digit text = false ->
      exists e, extract_entities' text = Some e)
  /\ (forall message sid db,
        Str.strip (or_empty message) = text ->
        let turn :=
          merge_turn nlp search_dates parse_date today utcnow text sid db in
        turn = (snd (get_or_create_pending utcnow sid db), None)
        \/ exists db1 b changed,
             turn = (db1, Some (b, changed))
             /\ breakfast b = Some "Unspecified" /\ In "breakfast" changed
             /\ db1 !! id b = Some b).
Proof.
  intros _ Hhas Hnone.
  assert (Hword : found true (Word (Lit "breakfast")) text = true)
    by (by rewrite found_word_ci).
  pose proof (extract_breakfast_fallback text Hword
                (no_cue_word_no_cue text Hnone)) as Hstage.
  assert (Ht : Str.truthy text = true).
  { destruct text; [discriminate Hword | reflexivity]. }
  assert (Hx : forall e, extract_entities' text = Some e ->
                         x_breakfast e = Some "Unspecified").
  { intros e He. apply extract_entities_non_dates in He as [Hb _]; [|exact Ht].
    by rewrite Hstage in Hb. }
  split; [exact Hstage|]. split; [|split].
  - intros e He. split; [by apply Hx|]. intros b.
    exact (merge_sets_breakfast e b "Unspecified" (Hx e He) eq_refl).
  - apply extract_entities_returns.
  - intros message sid db Hstrip turn.
    assert (Hguard : looks_like_name_response text = false).
    { rewrite <- Hstrip in Hword |- *.
      by apply (directive_word_not_a_name "breakfast"). }
    subst turn.
    destruct (merge_turn_cases nlp search_dates parse_date today utcnow
                text sid db)
      as [[Hg _]|[(_ & -> & _)|(_ & e & He & _ & ->)]].
    + by rewrite Hguard, andb_false_r in Hg.
    + by left.
    + right.
      destruct (merge_sets_breakfast e
                  (fst (get_or_create_pending utcnow sid db)) "Unspecified"
                  (Hx e He) eq_refl) as [Hb Hin].
      destruct (merge_extracted e _) as [b' ch]. cbn [fst snd] in *.
      exists (commit b' (snd (get_or_create_pending utcnow sid db))), b', ch.
      repeat split; try assumption. apply lookup_commit.
Qed.
End Fallback.

Lemma breakfast_fallback_unspecified_witness :
  ascii_text "What about BREAKFAST?" = true
  /\ has_word "breakfast" (Str.lower "What about BREAKFAST?") = true
  /\ none_occurs breakfast_cues "What about BREAKFAST?" = true
  /\ (exists e,
        extract_entities nlp_none search_dates_none parse_date_none
          clock_example "What about BREAKFAST?" = Some e
        /\ x_breakfast e = Some "Unspecified"
        /\ breakfast (fst (merge_extracted e draft_continental))
           = Some "Unspecified")
  /\ (exists db1 b changed,
        merge_turn nlp_none search_dates_none parse_date_none clock_example
          clock_example "What about BREAKFAST?" "s1"
          (commit draft_continental ∅)
        = (db1, Some (b, changed))
        /\ breakfast b = Some "Unspecified" /\ In "breakfast" changed).
Proof.
  split; [reflexivity|]. split; [reflexivity|]. split; [reflexivity|].
  destruct (breakfast_fallback_unspecified nlp_none search_dates_none
              parse_date_none clock_example clock_example
              "What about BREAKFAST?" eq_refl eq_refl eq_refl)
    as (_ & H & Hret & Hturn).
  split.
  - destruct (Hret eq_refl eq_refl) as [e He].
    exists e. split; [exact He|].
    destruct (H e He) as [Hb Hm]. split; [exact Hb | apply Hm].
  - destruct (Hturn (Some "What about BREAKFAST?") "s1"
                (commit draft_continental ∅) eq_refl)
      as [Hexc|(db1 & b & changed & Hrun & Hb & Hin & _)].
    + exfalso. vm_compute in Hexc. discriminate Hexc.
    + exists db1, b, changed. split; [exact Hrun|]. by split.
Defined.

(** ** The date normalizer (C6) *)

Lemma min_by_spec {A : Type} (key : A -> Z) (x : A) (xs : list A) :
  In (min_by key x xs) (x :: xs)
  /\ forall c, In c (x :: xs) -> key (min_by key x xs) <= key c.
Proof.
  unfold min_by. revert x. induction xs as [|a xs IH]; intros x; simpl.
  - split; [by left|]. intros c [<-|[]]. lia.
  - destruct (IH (if key a <? key x then a else x)) as [Hin Hmin].
    split.
    + destruct Hin as [Hin|Hin]; [|by right; right].
      rewrite <- Hin. destruct (key a <? key x); [right; left | left]; done.
    + intros c Hc.
      assert (Hb : key (if key a <? key x then a else x) <= key x
                   /\ key (if key a <? key x then a else x) <= key a).
      { destruct (Z.ltb_spec (key a) (key x)); lia. }
      pose proof (Hmin _ (or_introl eq_refl)) as H0.
      destruct Hc as [<-|[<-|Hc]]; [lia | lia |].
      apply Hmin. by right.
Qed.

Lemma candidates_spec today d c :
  In c (candidates today d)
  <-> exists y, In y (nearby_years today) /\ candidate d y = Some c.
Proof.
  unfold candidates. fold (nearby_years today).
  rewrite <- list_elem_of_In, list_elem_of_omap.
  split; intros (y & Hy & Hc); exists y; split; try assumption;
    by apply list_elem_of_In.
Qed.

(** A candidate is [d] with the year replaced and the microsecond cleared. *)
Lemma candidate_fields d y c :
  candidate d y = Some c ->
  c = mk_datetime y (month d) (day d) (hour d) (minute d) (second d) 0
  /\ valid_date y (month d) (day d) = true.
Proof.
  unfold candidate, make_datetime.
  destruct (valid_date y (month d) (day d)) eqn:Hv; simpl; [|discriminate].
  destruct (valid_time _ _ _ _); [|discriminate].
  intros [= <-]. split; reflexivity.
Qed.

Lemma candidate_same_fields d r y :
  candidate d y = Some r -> forall y', candidate r y' = candidate d y'.
Proof.
  intros H y'. apply candidate_fields in H as [-> _]. reflexivity.
Qed.

(** Normalizing a normalized date changes nothing: the second call under
    "ensure reasonable ordering" returns what it is given. *)
Lemma closest_year_idempotent today d t :
  _closest_year_for_month_day today
    (_closest_year_for_month_day today d t) t
  = _closest_year_for_month_day today d t.
Proof.
  unfold _closest_year_for_month_day.
  destruct (found false EXPLICIT_YEAR t) eqn:Hy; [reflexivity|].
  destruct (candidates today d) as [|c cs] eqn:Hcs.
  - by rewrite Hcs.
  - destruct (min_by_spec (distance today) c cs) as [Hin _].
    rewrite <- Hcs in Hin. apply candidates_spec in Hin as (y & _ & Hc).
    assert (Hsame : candidates today (min_by (distance today) c cs)
                    = candidates today d).
    { unfold candidates. apply list_omap_ext.
      apply Forall2_same_length_lookup_2; [reflexivity|].
      intros i x x' Hx Hx'. rewrite Hx in Hx'. injection Hx' as <-.
      by apply (candidate_same_fields d _ y). }
    by rewrite Hsame, Hcs.
Qed.

(** C6 as stated fails for 29 February when none of the three years is a
    leap year: no candidate is valid and the parsed date comes back. *)
Lemma normalizer_rule_fails_without_candidates :
  ~ normalizer_rule_as_specified clock_example leap_day_2024 "Feb 29".
Proof.
  intros [_ H]. destruct (H eq_refl) as [(y & Hy & Hc) _].
  simpl in Hy. destruct Hy as [<-|[<-|[<-|[]]]]; discriminate Hc.
Qed.

(** C6, amended.  With an explicit year 20dd as a word of its own in the
    matched text, the date is returned unchanged.  Otherwise the candidates
    are the valid dates made of [d]'s month, day, hour, minute and second
    in the years before, of and after the current one; when there is at
    least one, the result is a candidate and no candidate is nearer to the
    current moment; when there is none, [d] is returned unchanged.  The
    nearest candidate can lie in the past. *)
Theorem closest_year_rule (today d : datetime) (t : string) :
  let r := _closest_year_for_month_day today d t in
  (found false EXPLICIT_YEAR t = true -> r = d)
  /\ (found false EXPLICIT_YEAR t = false ->
      ((exists y c, In y (nearby_years today) /\ candidate d y = Some c) ->
       (exists y, In y (nearby_years today) /\ candidate d y = Some r
                  /\ r = mk_datetime y (month d) (day d) (hour d) (minute d)
                           (second d) 0)
       /\ forall y c, In y (nearby_years today) -> candidate d y = Some c ->
            distance today r <= distance today c)
      /\ ((forall y, In y (nearby_years today) -> candidate d y = None) ->
          r = d))
  /\ dt_ltb (_closest_year_for_month_day clock_example
               (mk_datetime 2027 6 10 0 0 0 0) "June 10") clock_example = true.
Proof.
  intros r. subst r. unfold _closest_year_for_month_day.
  split; [|split; [|reflexivity]].
  - intros ->. reflexivity.
  - intros ->. split.
    + intros (y0 & c0 & Hy0 & Hc0).
      assert (Hin0 : In c0 (candidates today d))
        by (apply candidates_spec; eauto).
      destruct (candidates today d) as [|c cs] eqn:Hcs; [destruct Hin0|].
      destruct (min_by_spec (distance today) c cs) as [Hin Hmin].
      rewrite <- Hcs in Hin, Hmin. split.
      * apply candidates_spec in Hin as (y & Hy & Hc).
        exists y. repeat split; try assumption.
        by apply candidate_fields in Hc as [-> _].
      * intros y c' Hy Hc'. apply Hmin. apply candidates_spec. eauto.
    + intros Hnone.
      destruct (candidates today d) as [|c cs] eqn:Hcs; [reflexivity|].
      assert (Hin : In c (candidates today d)) by (rewrite Hcs; by left).
      apply candidates_spec in Hin as (y & Hy & Hc).
      rewrite (Hnone y Hy) in Hc. discriminate.
Qed.

Lemma closest_year_rule_witness :
  (found false EXPLICIT_YEAR "10 June 2031" = true
   /\ _closest_year_for_month_day clock_example
        (mk_datetime 2031 6 10 0 0 0 0) "10 June 2031"
      = mk_datetime 2031 6 10 0 0 0 0)
  /\ (found false EXPLICIT_YEAR "June 10" = false
      /\ candidate (mk_datetime 2027 6 10 0 0 0 0) 2026
         = Some (mk_datetime 2026 6 10 0 0 0 0)
      /\ distance clock_example
           (_closest_year_for_month_day clock_example
              (mk_datetime 2027 6 10 0 0 0 0) "June 10")
         <= distance clock_example (mk_datetime 2026 6 10 0 0 0 0))
  /\ ((forall y, In y (nearby_years clock_example) ->
                 candidate leap_day_2024 y = None)
      /\ _closest_year_for_month_day clock_example leap_day_2024 "Feb 29"
         = leap_day_2024).
Proof.
  split; [|split].
  - split; [reflexivity|].
    exact (proj1 (closest_year_rule clock_example
                    (mk_datetime 2031 6 10 0 0 0 0) "10 June 2031") eq_refl).
  - split; [reflexivity|]. split; [reflexivity|].
    destruct (closest_year_rule clock_example
                (mk_datetime 2027 6 10 0 0 0 0) "June 10") as (_ & H & _).
    destruct (H eq_refl) as [Hsome _].
    destruct Hsome as [_ Hmin].
    + exists 2026, (mk_datetime 2026 6 10 0 0 0 0).
      split; [right; left; reflexivity | reflexivity].
    + apply (Hmin 2026); [right; left; reflexivity | reflexivity].
  - assert (Hnone : forall y, In y (nearby_years clock_example) ->
                              candidate leap_day_2024 y = None).
    { intros y [<-|[<-|[<-|[]]]]; reflexivity. }
    split; [exact Hnone|].
    destruct (closest_year_rule clock_example leap_day_2024 "Feb 29")
      as (_ & H & _).
    destruct (H eq_refl) as [_ Hd]. exact (Hd Hnone).
Defined.

(** ** Calendar arithmetic *)

Lemma days_before_year_succ y :
  days_before_year (y + 1) = days_before_year y + 365 + leap_days y.
Proof.
  unfold days_before_year, leap_days, is_leap.
  replace (y + 1 - 1) with y by lia.
  destruct (Z.eqb_spec (y mod 4) 0), (Z.eqb_spec (y mod 100) 0),
    (Z.eqb_spec (y mod 400) 0); cbn [negb andb orb];
    Z.div_mod_to_equations; lia.
Qed.

Lemma leap_days_range y : 0 <= leap_days y <= 1.
Proof. unfold leap_days. destruct (is_leap y); lia. Qed.

Lemma days_before_year_mono y1 y2 :
  y1 <= y2 -> days_before_year y1 + 365 * (y2 - y1) <= days_before_year y2.
Proof.
  intros H. replace y2 with (y1 + Z.of_nat (Z.to_nat (y2 - y1))) by lia.
  generalize (Z.to_nat (y2 - y1)) as k. clear H y2.
  induction k as [|k IH]; [cbn [Z.of_nat]; rewrite Z.add_0_r; lia|].
  replace (y1 + Z.of_nat (S k)) with (y1 + Z.of_nat k + 1) by lia.
  rewrite days_before_year_succ.
  pose proof (leap_days_range (y1 + Z.of_nat k)). lia.
Qed.

Lemma month_cases m :
  1 <= m <= 12 ->
  m = 1 \/ m = 2 \/ m = 3 \/ m = 4 \/ m = 5 \/ m = 6 \/ m = 7 \/ m = 8
  \/ m = 9 \/ m = 10 \/ m = 11 \/ m = 12.
Proof. lia. Qed.

Ltac each_month m H :=
  destruct (month_cases m H) as
    [?|[?|[?|[?|[?|[?|[?|[?|[?|[?|[?|?]]]]]]]]]]]; subst m.

Lemma valid_date_spec y m d :
  valid_date y m d = true
  <-> 1 <= y <= 9999 /\ 1 <= m <= 12 /\ 1 <= d <= days_in_month y m.
Proof.
  unfold valid_date, MINYEAR, MAXYEAR.
  rewrite !andb_true_iff, !Z.leb_le. tauto.
Qed.

(** The day of the year of a valid date. *)
Lemma day_of_year_range y m d :
  1 <= m <= 12 -> 1 <= d <= days_in_month y m ->
  1 <= days_before_month y m + d <= 365 + leap_days y.
Proof.
  intros Hm Hd. unfold days_in_month, days_before_month, leap_days in *.
  each_month m Hm; destruct (is_leap y); simpl in *; lia.
Qed.

(** Within a year, an earlier month ends before a later one starts. *)
Lemma month_order y m1 d1 m2 :
  1 <= m1 <= 12 -> 1 <= m2 <= 12 -> 1 <= d1 <= days_in_month y m1 ->
  m1 < m2 ->
  days_before_month y m1 + d1 <= days_before_month y m2.
Proof.
  intros Hm1 Hm2 Hd Hlt. unfold days_in_month, days_before_month in *.
  each_month m1 Hm1; each_month m2 Hm2; try lia;
    destruct (is_leap y); simpl in *; lia.
Qed.

Lemma ymd2ord_mono y1 m1 d1 y2 m2 d2 :
  valid_date y1 m1 d1 = true -> valid_date y2 m2 d2 = true ->
  date_lt y1 m1 d1 y2 m2 d2 ->
  ymd2ord y1 m1 d1 < ymd2ord y2 m2 d2.
Proof.
  rewrite !valid_date_spec. intros (Hy1 & Hm1 & Hd1) (Hy2 & Hm2 & Hd2) Hlt.
  unfold ymd2ord.
  pose proof (day_of_year_range y1 m1 d1 Hm1 Hd1) as R1.
  pose proof (day_of_year_range y2 m2 d2 Hm2 Hd2) as R2.
  destruct Hlt as [Hy|[-> [Hm|[-> Hd]]]].
  - pose proof (days_before_year_succ y1) as Hs.
    pose proof (days_before_year_mono (y1 + 1) y2 ltac:(lia)). lia.
  - pose proof (month_order y2 m1 d1 m2 Hm1 Hm2 Hd1 Hm). lia.
  - lia.
Qed.

(** The first day of the year numbered by 400-, 100-, 4- and 1-year
    cycles, and whether that year is a leap year. *)
Lemma days_before_year_cycles a b c e :
  0 <= a -> 0 <= b <= 3 -> 0 <= c <= 24 -> 0 <= e <= 3 ->
  days_before_year (a * 400 + 1 + b * 100 + c * 4 + e)
  = 146097 * a + 36524 * b + 1461 * c + 365 * e.
Proof.
  intros Ha Hb Hc He. unfold days_before_year.
  Z.div_mod_to_equations. lia.
Qed.

Lemma is_leap_cycles a b c e :
  0 <= a -> 0 <= b <= 3 -> 0 <= c <= 24 -> 0 <= e <= 3 ->
  is_leap (a * 400 + 1 + b * 100 + c * 4 + e)
  = (e =? 3) && (negb (c =? 24) || (b =? 3)).
Proof.
  intros Ha Hb Hc He. unfold is_leap.
  destruct (Z.eqb_spec e 3), (Z.eqb_spec c 24), (Z.eqb_spec b 3);
    cbn [negb andb orb];
    repeat match goal with
           | |- context [?x =? 0] => destruct (Z.eqb_spec x 0)
           end; cbn [negb andb orb]; try reflexivity;
    exfalso; Z.div_mod_to_equations; lia.
Qed.

Lemma month_day_spec (leapyear : bool) n :
  0 <= n <= 364 ->
  let '(m, d) := month_day leapyear n in
  1 <= m <= 12
  /\ 1 <= d <= DAYS_IN_MONTH m + (if (m =? 2) && leapyear then 1 else 0)
  /\ DAYS_BEFORE_MONTH m + (if (2 <? m) && leapyear then 1 else 0) + d
     = n + 1.
Proof.
  intros Hn. unfold month_day.
  rewrite Z.shiftr_div_pow2 by lia. change (2 ^ 5) with 32.
  assert (Hm : 1 <= (n + 50) / 32 <= 12)
    by (Z.div_mod_to_equations; lia).
  assert (Hq : 32 * ((n + 50) / 32) <= n + 50 < 32 * ((n + 50) / 32) + 32)
    by (Z.div_mod_to_equations; lia).
  revert Hq. generalize dependent ((n + 50) / 32). intros m Hm Hq.
  each_month m Hm; destruct leapyear;
    repeat match goal with
           | |- context [Z.pos ?a - Z.pos ?b] =>
               let v := eval vm_compute in (Z.pos a - Z.pos b) in
               change (Z.pos a - Z.pos b) with v
           end;
    cbv [DAYS_IN_MONTH DAYS_BEFORE_MONTH Z.eqb Z.ltb Z.compare Pos.compare
         Pos.compare_cont Pos.eqb andb];
    match goal with
    | |- context [if ?b then _ else _] =>
        destruct b eqn:Hb;
        [apply Z.ltb_lt in Hb | apply Z.ltb_ge in Hb]
    end;
    repeat match goal with
           | |- context [Z.pos ?a - Z.pos ?b] =>
               let v := eval vm_compute in (Z.pos a - Z.pos b) in
               change (Z.pos a - Z.pos b) with v
           end;
    cbv [DAYS_IN_MONTH DAYS_BEFORE_MONTH Z.eqb Z.ltb Z.compare Pos.compare
         Pos.compare_cont Pos.eqb andb]; lia.
Qed.

Lemma days_in_month_table y m :
  days_in_month y m
  = DAYS_IN_MONTH m + (if (m =? 2) && is_leap y then 1 else 0).
Proof.
  unfold days_in_month. destruct (Z.eqb_spec m 2) as [->|]; simpl.
  - destruct (is_leap y); reflexivity.
  - lia.
Qed.

Lemma ord2ymd_month_day o :
  ord2ymd o
  = let n := o - 1 in
    let a := n / 146097 in
    let r400 := n mod 146097 in
    let b := r400 / 36524 in
    let r100 := r400 mod 36524 in
    let c := r100 / 1461 in
    let r4 := r100 mod 1461 in
    let e := r4 / 365 in
    let r1 := r4 mod 365 in
    let y := a * 400 + 1 + b * 100 + c * 4 + e in
    if (e =? 4) || (b =? 4) then (y - 1, 12, 31)
    else
      (y, fst (month_day ((e =? 3) && (negb (c =? 24) || (b =? 3))) r1),
       snd (month_day ((e =? 3) && (negb (c =? 24) || (b =? 3))) r1)).
Proof.
  unfold ord2ymd, month_day. cbv zeta.
  destruct (_ || _); [reflexivity|].
  destruct (_ <? _); reflexivity.
Qed.

(** [ord2ymd] inverts [ymd2ord] on the ordinals of the years 1 to 9999. *)
Lemma ord2ymd_spec o :
  1 <= o <= MAXORDINAL ->
  valid_date (ord2ymd o).1.1 (ord2ymd o).1.2 (ord2ymd o).2 = true
  /\ ymd2ord (ord2ymd o).1.1 (ord2ymd o).1.2 (ord2ymd o).2 = o.
Proof.
  unfold MAXORDINAL. intros Ho. rewrite ord2ymd_month_day. cbv zeta.
  set (n := o - 1).
  set (a := n / 146097). set (r400 := n mod 146097).
  set (b := r400 / 36524). set (r100 := r400 mod 36524).
  set (c := r100 / 1461). set (r4 := r100 mod 1461).
  set (e := r4 / 365). set (r1 := r4 mod 365).
  assert (E1 : n = 146097 * a + r400 /\ 0 <= r400 < 146097)
    by (subst a r400; Z.div_mod_to_equations; lia).
  assert (E2 : r400 = 36524 * b + r100 /\ 0 <= r100 < 36524)
    by (subst b r100; Z.div_mod_to_equations; lia).
  assert (E3 : r100 = 1461 * c + r4 /\ 0 <= r4 < 1461)
    by (subst c r4; Z.div_mod_to_equations; lia).
  assert (E4 : r4 = 365 * e + r1 /\ 0 <= r1 < 365)
    by (subst e r1; Z.div_mod_to_equations; lia).
  assert (Hn : n = o - 1) by reflexivity.
  clearbody n a r400 b r100 c r4 e r1.
  assert (Ha : 0 <= a <= 24) by lia.
  assert (Hb : 0 <= b <= 4) by lia.
  assert (Hc : 0 <= c <= 24) by lia.
  assert (He : 0 <= e <= 4) by lia.
  destruct (Z.eqb_spec e 4) as [He4|He4]; [|destruct (Z.eqb_spec b 4) as [Hb4|Hb4]];
    cbn [orb fst snd].
  - (* the last day of a leap year, by the 1-year cycle *)
    replace (a * 400 + 1 + b * 100 + c * 4 + e - 1)
      with (a * 400 + 1 + b * 100 + c * 4 + 3) by lia.
    assert (Hb3 : 0 <= b <= 3) by lia.
    assert (Hc23 : 0 <= c <= 23) by lia.
    rewrite valid_date_spec, days_in_month_table. unfold ymd2ord, days_before_month.
    rewrite is_leap_cycles, days_before_year_cycles by lia.
    destruct (Z.eqb_spec c 24); [lia|]. cbn. lia.
  - (* the last day of a 400-year cycle *)
    replace (a * 400 + 1 + b * 100 + c * 4 + e - 1)
      with (a * 400 + 1 + 3 * 100 + 24 * 4 + 3) by lia.
    rewrite valid_date_spec, days_in_month_table. unfold ymd2ord, days_before_month.
    rewrite is_leap_cycles, days_before_year_cycles by lia.
    cbn. lia.
  - assert (Hb3 : 0 <= b <= 3) by lia.
    assert (He3 : 0 <= e <= 3) by lia.
    pose proof (month_day_spec ((e =? 3) && (negb (c =? 24) || (b =? 3))) r1
                  ltac:(lia)) as Hmd.
    destruct (month_day _ r1) as [m d]. cbn [fst snd].
    destruct Hmd as (Hm & Hd & Hsum).
    rewrite <- (is_leap_cycles a b c e) in Hd, Hsum by lia.
    rewrite valid_date_spec, days_in_month_table. unfold ymd2ord, days_before_month.
    rewrite days_before_year_cycles by lia.
    repeat split; try lia.
Qed.

(** With equal times of day, an earlier datetime has an earlier date. *)
Lemma dt_ltb_same_time a b :
  hour a = hour b -> minute a = minute b -> second a = second b ->
  microsecond a = microsecond b ->
  dt_ltb a b = true ->
  date_lt (year a) (month a) (day a) (year b) (month b) (day b).
Proof.
  intros Hh Hmi Hs Hus. unfold dt_ltb, dt_compare, fields, date_lt.
  rewrite Hh, Hmi, Hs, Hus. cbn [lex_compare].
  destruct (Z.compare_spec (year a) (year b)); [|lia|discriminate].
  destruct (Z.compare_spec (month a) (month b)); [|lia|discriminate].
  destruct (Z.compare_spec (day a) (day b)); [|lia|discriminate].
  rewrite !Z.compare_refl. discriminate.
Qed.

(** Adding a number of days: the result is that many days later, at the
    same time of day, and is not before the start when the number is not
    negative. *)
Lemma add_days_spec d n d' :
  valid_day d = true -> add_days d n = Some d' ->
  valid_day d' = true
  /\ days_between d' d = n
  /\ (0 <= n -> dt_leb d d' = true).
Proof.
  intros Hv. unfold add_days.
  destruct (999999999 <? Z.abs n); [discriminate|].
  destruct ((0 <? toordinal d + n) && (toordinal d + n <=? MAXORDINAL))
    eqn:Hr; [|discriminate].
  apply andb_true_iff in Hr as [Hlo Hhi].
  apply Z.ltb_lt in Hlo. apply Z.leb_le in Hhi.
  destruct (ord2ymd_spec (toordinal d + n) ltac:(lia)) as [Hvalid Hord].
  destruct (ord2ymd (toordinal d + n)) as [[y m] dd]. cbn [fst snd] in *.
  intros [= <-].
  assert (Hdays : days_between (mk_datetime_tz y m dd (hour d) (minute d)
                                  (second d) (microsecond d) (utcoffset d)) d
                  = n).
  { unfold days_between, toordinal at 1. cbn [year month day]. lia. }
  split; [exact Hvalid|]. split; [exact Hdays|].
  intros Hn. unfold dt_leb. apply negb_true_iff.
  destruct (dt_ltb _ d) eqn:Hlt; [|reflexivity].
  apply dt_ltb_same_time in Hlt; try reflexivity.
  apply ymd2ord_mono in Hlt; [|exact Hvalid|exact Hv].
  cbn [year month day] in Hlt. unfold toordinal in Hhi, Hlo, Hord. lia.
Qed.

Lemma add_days_dates_ok d n d' :
  valid_day d = true -> 1 <= n -> add_days d n = Some d' ->
  dates_ok d d' (Some n) = true.
Proof.
  intros Hv Hn Ha. destruct (add_days_spec d n d' Hv Ha) as (_ & Hd & Hle).
  unfold dates_ok. rewrite Hle by lia. rewrite Hd. simpl.
  apply Z.eqb_eq. lia.
Qed.

(** ** Date ordering and night counts (C1, C3) *)

Lemma lex_compare_opp a b : lex_compare b a = CompOpp (lex_compare a b).
Proof.
  revert b. induction a as [|x a IH]; intros [|y b]; simpl; try reflexivity.
  rewrite (Z.compare_antisym x y).
  destruct (x ?= y); simpl; auto.
Qed.

Lemma dt_ltb_asym a b : dt_ltb a b = true -> dt_ltb b a = false.
Proof.
  unfold dt_ltb, dt_compare. rewrite (lex_compare_opp (fields a) (fields b)).
  destruct (lex_compare (fields a) (fields b)); simpl; congruence.
Qed.

(** The swap of the two-date and range paths puts the dates in order. *)
Lemma swapped_dates_ok d0 d1 :
  let lo := if dt_ltb d1 d0 then d1 else d0 in
  let hi := if dt_ltb d1 d0 then d0 else d1 in
  dates_ok lo hi (Some (Z.max 1 (days_between hi lo))) = true.
Proof.
  simpl. unfold dates_ok. rewrite Z.eqb_refl, andb_true_r. unfold dt_leb.
  destruct (dt_ltb d1 d0) eqn:H.
  - by rewrite (dt_ltb_asym _ _ H).
  - by rewrite H.
Qed.

(** Two values without time zone compare field by field. *)
Lemma dt_lt_naive a b :
  utcoffset a = None -> utcoffset b = None -> dt_lt a b = Some (dt_ltb a b).
Proof. unfold dt_lt. by intros -> ->. Qed.

(** The normalizer builds its candidates without time zone. *)
Lemma closest_year_naive today d t :
  utcoffset d = None ->
  utcoffset (_closest_year_for_month_day today d t) = None.
Proof.
  intros Hd. unfold _closest_year_for_month_day.
  destruct (found false EXPLICIT_YEAR t); [exact Hd|].
  destruct (candidates today d) as [|c cs] eqn:Hcs; [exact Hd|].
  destruct (min_by_spec (distance today) c cs) as [Hin _].
  rewrite <- Hcs in Hin. apply candidates_spec in Hin as (y & _ & Hc).
  apply candidate_fields in Hc as [-> _]. reflexivity.
Qed.

(** The stored form of a date has the fields of the date: the relation
    between two dates and a night count is not changed by storing them. *)
Lemma dates_ok_as_stored ci co n :
  dates_ok (as_stored ci) (as_stored co) n = dates_ok ci co n.
Proof. reflexivity. Qed.

Section Trailing.
Variable nlp : string -> list entity.
Variable search_dates : string -> option (list (string * datetime)).
Variable parse_date : settings -> string -> option datetime.
Variable today : datetime.

(** On the single-date path with a parsed trailing phrase, the check-in is
    the normalized date found and the check-out the normalized trailing
    date, in whatever order they are; the comparison of the two raises
    when one of them carries a time zone and the other does not. *)
Lemma trailing_path_keeps_order text e phrase dt m2 second :
  search_dates text = Some [(phrase, dt)] ->
  search true FOR_NIGHTS text = None ->
  search false TRAILING_DATE text = Some m2 ->
  parse_date Prefer_future (group_text 1 m2) = Some second ->
  extract_found_dates search_dates parse_date today text e
  = match dt_lt (_closest_year_for_month_day today second (group_text 1 m2))
            (_closest_year_for_month_day today dt phrase) with
    | Some _ =>
        Some (set_dates e
                (_closest_year_for_month_day today dt phrase)
                (_closest_year_for_month_day today second (group_text 1 m2))
                (Z.max 1
                   (days_between
                      (_closest_year_for_month_day today second
                         (group_text 1 m2))
                      (_closest_year_for_month_day today dt phrase))))
    | None => None
    end.
Proof.
  intros Hsd Hfn Htr Hpd. unfold extract_found_dates.
  rewrite Hsd, Hfn, Htr, Hpd. cbn [normalize_all map fst snd].
  rewrite closest_year_idempotent.
  destruct (dt_lt _ _) as [[|]|]; reflexivity.
Qed.
End Trailing.

(** C1 at its failing inputs.  On "December 20 to 5" the single-date path
    takes the check-out from the trailing phrase and keeps it although it
    is before the check-in ([trailing_path_keeps_order] is the general
    fact); on "June 10 for 0 nights" the night count is 0 where
    max(1, days between) is 1. *)
Theorem trailing_checkout_before_checkin :
  (exists e,
     extract_entities nlp_none search_dates_dec20 parse_date_day5
       clock_example "December 20 to 5" = Some e
     /\ x_checkin e = Some (mk_datetime 2026 12 20 0 0 0 0)
     /\ x_checkout e = Some (mk_datetime 2026 11 5 0 0 0 0)
     /\ x_nights e = Some 1
     /\ extracted_dates_ok e = false)
  /\ (exists e,
        extract_entities nlp_none search_dates_june10 parse_date_none
          clock_example "June 10 for 0 nights" = Some e
        /\ x_checkin e = Some (mk_datetime 2026 6 10 0 0 0 0)
        /\ x_checkout e = Some (mk_datetime 2026 6 10 0 0 0 0)
        /\ x_nights e = Some 0
        /\ extracted_dates_ok e = false).
Proof.
  split; eexists; (split; [vm_compute; reflexivity|]); repeat split.
Qed.

Lemma all_rows_commit P b db :
  P b = true -> all_rows P db -> all_rows P (commit b db).
Proof.
  intros Hb Hdb k b' H. unfold commit in H.
  destruct (decide (id b = k)) as [Heq|Hne].
  - subst k. rewrite lookup_insert_eq in H. congruence.
  - rewrite lookup_insert_ne in H by done. eauto.
Qed.

Lemma all_rows_empty P : all_rows P ∅.
Proof. intros k b H. rewrite lookup_empty in H. discriminate. Qed.

(** Merging an all-or-none extraction keeps the invariant of the draft. *)
Lemma merge_keeps_date_invariant e b :
  date_invariant b = true ->
  dates_all_or_none e = true ->
  date_invariant (fst (merge_extracted e b)) = true.
Proof.
  intros Hb He. unfold dates_all_or_none in He.
  unfold merge_extracted, merge_field.
  destruct (x_checkin e) as [ci|], (x_checkout e) as [co|];
    try discriminate He.
  - assert (Hn : truthy_num (x_nights e) = true).
    { unfold dates_ok in He. apply andb_true_iff in He as [_ He].
      destruct (x_nights e) as [n|]; [|discriminate].
      apply Z.eqb_eq in He. simpl. apply negb_true_iff, Z.eqb_neq. lia. }
    rewrite Hn. rewrite <- dates_ok_as_stored in He.
    destruct (truthy_str (x_name e)), (truthy_num (x_guests e)),
      (truthy_str (x_breakfast e)), (truthy_str (x_payment_method e));
      exact He.
  - apply negb_true_iff in He. rewrite He.
    destruct (truthy_str (x_name e)), (truthy_num (x_guests e)),
      (truthy_str (x_breakfast e)), (truthy_str (x_payment_method e));
      exact Hb.
Qed.

(** The date stages give an all-or-none extraction whenever the search
    does not come back with exactly one date and the dates carry no time
    zone. *)
Lemma extraction_all_or_none nlp search_dates parse_date today text e :
  List.length (normalize_all today (search_dates text)) <> 1%nat ->
  Forall (fun d => utcoffset (snd d) = None)
    (normalize_all today (search_dates text)) ->
  (forall st s d, parse_date st s = Some d -> utcoffset d = None) ->
  extract_entities nlp search_dates parse_date today text = Some e ->
  dates_all_or_none e = true.
Proof.
  intros Hlen Hnaive Hpd. unfold extract_entities.
  destruct (negb (Str.truthy text)); [intros [= <-]; reflexivity|].
  destruct (extract_guests _ _) as [g|]; [|discriminate].
  destruct (looks_like_name_response text && negb (found true NAME_CUE text));
    [intros [= <-]; reflexivity|].
  unfold extract_found_dates.
  destruct (normalize_all today (search_dates text))
    as [|[t0 d0] [|[t1 d1] ds]]; [| by destruct Hlen |].
  - cbn [map]. unfold extract_range. cbn [x_checkin].
    destruct (search false DATE_RANGE text) as [m|];
      [|intros [= <-]; reflexivity].
    destruct (parse_date Default_settings (group_text 1 m)) as [p1|] eqn:H1;
      [|intros [= <-]; reflexivity].
    destruct (parse_date Default_settings (group_text 2 m)) as [p2|] eqn:H2;
      [|intros [= <-]; reflexivity].
    apply Hpd in H1, H2.
    rewrite dt_lt_naive.
    + intros [= <-]. apply swapped_dates_ok.
    + destruct (negb _); [by apply closest_year_naive | exact H2].
    + destruct (negb _); [by apply closest_year_naive | exact H1].
  - apply Forall_cons in Hnaive as [H0 [H1 _]%Forall_cons].
    cbn [map snd]. cbn [snd] in H0, H1. rewrite (dt_lt_naive _ _ H1 H0).
    unfold extract_range. cbn [x_checkin set_dates].
    destruct (search false DATE_RANGE text); intros [= <-];
      apply swapped_dates_ok.
Qed.

Lemma candidate_valid_day d y c : candidate d y = Some c -> valid_day c = true.
Proof.
  intros H. apply candidate_fields in H as [-> Hv]. exact Hv.
Qed.

Lemma closest_year_valid_day today d t :
  valid_day d = true ->
  valid_day (_closest_year_for_month_day today d t) = true.
Proof.
  intros Hv. unfold _closest_year_for_month_day.
  destruct (found false EXPLICIT_YEAR t); [exact Hv|].
  destruct (candidates today d) as [|c cs] eqn:Hcs; [exact Hv|].
  destruct (min_by_spec (distance today) c cs) as [Hin _].
  rewrite <- Hcs in Hin. apply candidates_spec in Hin as (y & _ & Hc).
  by apply candidate_valid_day in Hc.
Qed.

(** A single date with a "for N nights" phrase, N at least 1, gives a
    consistent stay. *)
Lemma extraction_for_nights nlp search_dates parse_date today text e
  phrase dt m :
  search_dates text = Some [(phrase, dt)] ->
  valid_day dt = true ->
  search true FOR_NIGHTS text = Some m ->
  1 <= Str.int_acc 0 (group_text 1 m) ->
  extract_entities nlp search_dates parse_date today text = Some e ->
  dates_all_or_none e = true.
Proof.
  intros Hsd Hv Hm Hn. unfold extract_entities.
  destruct (negb (Str.truthy text)); [intros [= <-]; reflexivity|].
  destruct (extract_guests _ _) as [g|]; [|discriminate].
  destruct (looks_like_name_response text && negb (found true NAME_CUE text));
    [intros [= <-]; reflexivity|].
  unfold extract_found_dates. rewrite Hsd, Hm. cbn [normalize_all map fst snd].
  destruct (Str.int_of (group_text 1 m)) as [n|] eqn:Hint; [|discriminate].
  apply int_of_value in Hint. subst n.
  destruct (add_days _ _) as [co|] eqn:Ha; [|discriminate].
  unfold extract_range. cbn [x_checkin set_dates].
  assert (Hok : dates_ok (_closest_year_for_month_day today dt phrase) co
                  (Some (Str.int_acc 0 (group_text 1 m))) = true).
  { eapply add_days_dates_ok; [|exact Hn|exact Ha].
    by apply closest_year_valid_day. }
  destruct (search false DATE_RANGE text); intros [= <-]; exact Hok.
Qed.

(** An all-or-none extraction has the property of C1. *)
Lemma all_or_none_dates_ok e :
  dates_all_or_none e = true -> extracted_dates_ok e = true.
Proof.
  unfold dates_all_or_none, extracted_dates_ok.
  destruct (x_checkin e), (x_checkout e); auto.
Qed.

(** C3 as stated fails: a turn that extracts a check-in alone overwrites
    the check-in of a draft whose check-out and nights stay as they were. *)
Lemma checkin_only_merge_breaks_invariant : ~ invariant_kept_by_every_turn.
Proof.
  intros H.
  specialize (H nlp_none search_dates_july1 parse_date_none clock_example
                clock_example (Some "make it July 1") (Some "s1")
                (commit draft_example ∅)).
  assert (Hdb : all_rows date_invariant (commit draft_example ∅))
    by (apply all_rows_commit; [reflexivity | apply all_rows_empty]).
  specialize (H Hdb 1
                (set_checkin_b (Some (mk_datetime 2026 7 1 0 0 0 0))
                   draft_example)).
  discriminate H. vm_compute. reflexivity.
Qed.

Section Invariant.
Variable nlp : string -> list entity.
Variable search_dates : string -> option (list (string * datetime)).
Variable parse_date : settings -> string -> option datetime.
Variable today : datetime.
Variable utcnow : datetime.

Lemma get_or_create_keeps_invariant session db :
  all_rows date_invariant db ->
  date_invariant (fst (get_or_create_pending utcnow session db)) = true
  /\ all_rows date_invariant (snd (get_or_create_pending utcnow session db)).
Proof.
  intros Hdb. unfold get_or_create_pending.
  destruct (find_pending session db) as [p|] eqn:Hf; simpl.
  - apply find_pending_spec in Hf as [[k Hk] _]. eauto.
  - split; [reflexivity|]. by apply all_rows_commit.
Qed.

Lemma respond_keeps_invariant i b changed db :
  date_invariant b = true ->
  all_rows date_invariant db ->
  all_rows date_invariant (fst (respond utcnow i b changed db)).
Proof.
  intros Hb Hdb. unfold respond. destruct i.
  - destruct (compute_missing b); simpl; [|exact Hdb].
    by apply all_rows_commit.
  - simpl. by apply all_rows_commit.
  - destruct (conversational_reply b changed). exact Hdb.
  - destruct (conversational_reply b changed). exact Hdb.
  - destruct (conversational_reply b changed). exact Hdb.
Qed.

(** C3, amended.  If every stored draft satisfies the invariant (check-out
    not before check-in and nights = max(1, days between) once both dates
    are set), then so does every stored draft after a turn of one of
    these kinds:
    - the name guard takes the turn (the draft has no name and the
      message reads as a name), whatever the extractor would do;
    - the extraction, if the extractor returns one, carries either no
      stay data or check-in, check-out and nights together with that same
      relation;
    - the date search finds no date or at least two, and the dates found
      and parsed carry no time zone;
    - the date search finds one valid date and the message has a
      "for N nights" phrase with N at least 1.
    A turn that merges a check-in alone into a draft with dates is none
    of these. *)
Theorem date_invariant_preserved (message session_id : option string)
  (db : DB) :
  let text := Str.strip (or_empty message) in
  let draft := fst (get_or_create_pending utcnow (or_empty session_id) db) in
  all_rows date_invariant db ->
  (mem "name" (compute_missing draft) && Str.truthy text
   && looks_like_name_response text = true
   \/ (forall e,
         extract_entities nlp search_dates parse_date today text = Some e ->
         dates_all_or_none e = true)
   \/ (List.length (normalize_all today (search_dates text)) <> 1%nat
       /\ Forall (fun d => utcoffset (snd d) = None)
            (normalize_all today (search_dates text))
       /\ forall st s d, parse_date st s = Some d -> utcoffset d = None)
   \/ (exists phrase dt m,
         search_dates text = Some [(phrase, dt)]
         /\ valid_day dt = true
         /\ search true FOR_NIGHTS text = Some m
         /\ 1 <= Str.int_acc 0 (group_text 1 m))) ->
  all_rows date_invariant
    (fst (handle_message nlp search_dates parse_date today utcnow
            message session_id db)).
Proof.
  intros text draft Hdb Hturn. unfold handle_message. fold text.
  destruct (negb (truthy_str session_id)); [exact Hdb|].
  unfold merge_turn.
  destruct (get_or_create_keeps_invariant (or_empty session_id) db Hdb)
    as [Hb0 Hdb0].
  subst draft.
  destruct (get_or_create_pending utcnow (or_empty session_id) db)
    as [b0 db0]. cbn [fst snd] in Hb0, Hdb0, Hturn.
  destruct (mem "name" (compute_missing b0) && Str.truthy text
            && looks_like_name_response text).
  - rewrite merge_no_entities.
    apply respond_keeps_invariant; [exact Hb0|].
    apply all_rows_commit; [exact Hb0|].
    apply all_rows_commit; [exact Hb0 | exact Hdb0].
  - destruct (extract_entities nlp search_dates parse_date today text)
      as [e|] eqn:He; [|exact Hdb0].
    destruct (sqlite_int_ok (x_guests e) && sqlite_int_ok (x_nights e));
      [|exact Hdb0].
    assert (Hall : dates_all_or_none e = true).
    { destruct Hturn as [Hg|[Hext|[(Hlen & Hnaive & Hpd)|Hfor]]].
      - discriminate Hg.
      - by apply Hext.
      - by eapply extraction_all_or_none.
      - destruct Hfor as (phrase & dt & m & Hsd & Hv & Hm & Hn).
        by eapply extraction_for_nights. }
    pose proof (merge_keeps_date_invariant e b0 Hb0 Hall) as Hm.
    destruct (merge_extracted e b0) as [b1 ch]. simpl in Hm.
    apply respond_keeps_invariant; [exact Hm|].
    apply all_rows_commit; [exact Hm | exact Hdb0].
Qed.
End Invariant.

(** A turn that finds two dates and merges check-in, check-out and nights
    into a stored draft: "... from June 10 to June 13". *)
Lemma date_invariant_preserved_witness :
  all_rows date_invariant (commit draft_no_guests ∅)
  /\ all_rows date_invariant
       (fst (dialogue_turn
               "I want to book a room for 2 guests from June 10 to June 13"
               (commit draft_no_guests ∅))).
Proof.
  assert (Hdb : all_rows date_invariant (commit draft_no_guests ∅))
    by (apply all_rows_commit; [reflexivity | apply all_rows_empty]).
  split; [exact Hdb|].
  apply (date_invariant_preserved nlp_dialogue search_dates_dialogue
           parse_date_none clock_example clock_example
           (Some "I want to book a room for 2 guests from June 10 to June 13")
           (Some "s1") (commit draft_no_guests ∅) Hdb).
  right. right. left. split; [|split].
  - vm_compute. lia.
  - vm_compute. repeat constructor.
  - intros st s d H. discriminate H.
Defined.

(** * Further properties: the table, the dialogue and the extractor *)

(** ** The table: keys, lookups and the pending draft *)

Lemma max_key_bound (db : DB) k b :
  db !! k = Some b -> k <= foldr Z.max 0 (map fst (map_to_list db)).
Proof.
  intros H. apply elem_of_map_to_list in H.
  induction (map_to_list db) as [|[k' b'] l IH]; [by apply elem_of_nil in H|].
  apply elem_of_cons in H as [[= <- <-]|H]; simpl; [lia|].
  specialize (IH H). lia.
Qed.

Lemma next_id_fresh (db : DB) : db !! next_id db = None.
Proof.
  destruct (db !! next_id db) as [b|] eqn:H; [|reflexivity].
  apply max_key_bound in H. unfold next_id in H. lia.
Qed.

Lemma latest_none rows : latest rows = None -> rows = [].
Proof. destruct rows; [reflexivity | discriminate]. Qed.

Lemma find_pending_none session db :
  find_pending session db = None <->
  forall k b, db !! k = Some b -> is_pending_for session b = false.
Proof.
  unfold find_pending. split.
  - intros H k b Hk. apply latest_none in H.
    destruct (is_pending_for session b) eqn:Hp; [|reflexivity].
    assert (Hin : In b (List.filter (is_pending_for session)
                          (map snd (map_to_list db)))).
    { apply filter_In. split; [|exact Hp].
      apply in_map_iff. exists (k, b). split; [reflexivity|].
      apply list_elem_of_In. by apply elem_of_map_to_list. }
    rewrite H in Hin. destruct Hin.
  - intros H.
    destruct (List.filter (is_pending_for session) (map snd (map_to_list db)))
      as [|b l] eqn:Hf; [reflexivity|].
    assert (Hin : In b (List.filter (is_pending_for session)
                          (map snd (map_to_list db))))
      by (rewrite Hf; by left).
    apply filter_In in Hin as [Hin Hp].
    apply in_map_iff in Hin as [[k b'] [Heq Hin]]. simpl in Heq. subst b'.
    apply list_elem_of_In, elem_of_map_to_list in Hin.
    rewrite (H k b Hin) in Hp. discriminate.
Qed.

Lemma is_pending_for_spec session b :
  is_pending_for session b = true
  <-> session_id b = session /\ confirmed b = false.
Proof.
  unfold is_pending_for. rewrite andb_true_iff, String.eqb_eq, negb_true_iff.
  tauto.
Qed.

(** With one pending draft per session, the lookup finds that draft. *)
Lemma find_pending_unique session db k b :
  one_pending_per_session db ->
  db !! k = Some b -> is_pending_for session b = true ->
  find_pending session db = Some b.
Proof.
  intros Hone Hk Hp.
  destruct (find_pending session db) as [b'|] eqn:Hf.
  - apply find_pending_spec in Hf as ([k' Hk'] & Hs & Hc).
    apply is_pending_for_spec in Hp as [Hs0 Hc0].
    assert (k' = k) by (apply (Hone k' k b' b); congruence).
    subst k'. congruence.
  - rewrite find_pending_none in Hf. rewrite (Hf k b Hk) in Hp. discriminate.
Qed.

Lemma get_or_create_cases utcnow session db :
  (exists p, find_pending session db = Some p
             /\ get_or_create_pending utcnow session db = (p, db))
  \/ (find_pending session db = None
      /\ get_or_create_pending utcnow session db
         = (empty_draft (next_id db) session utcnow,
            commit (empty_draft (next_id db) session utcnow) db)).
Proof.
  unfold get_or_create_pending.
  destruct (find_pending session db) as [p|]; [left; eauto | right; eauto].
Qed.

(** The order of [created_at] values is a strict order. *)
Lemma lex_compare_refl a : lex_compare a a = Eq.
Proof. induction a as [|x a IH]; simpl; [|rewrite Z.compare_refl]; done. Qed.

Lemma lex_compare_lt_trans a :
  forall b c, lex_compare a b = Lt -> lex_compare b c = Lt ->
              lex_compare a c = Lt.
Proof.
  induction a as [|x a IH]; intros [|y b] [|z c]; simpl;
    try discriminate; try reflexivity.
  intros H1 H2.
  destruct (Z.compare_spec x y) as [E1|L1|G1]; try discriminate;
    destruct (Z.compare_spec y z) as [E2|L2|G2]; try discriminate;
    destruct (Z.compare_spec x z) as [E3|L3|G3]; try lia;
    try reflexivity; eauto.
Qed.

Lemma dt_ltb_irrefl a : dt_ltb a a = false.
Proof. unfold dt_ltb, dt_compare. by rewrite lex_compare_refl. Qed.

Lemma dt_ltb_trans a b c :
  dt_ltb a b = true -> dt_ltb b c = true -> dt_ltb a c = true.
Proof.
  unfold dt_ltb, dt_compare. intros H1 H2.
  rewrite (lex_compare_lt_trans (fields a) (fields b) (fields c)); [done| |].
  - by destruct (lex_compare (fields a) (fields b)).
  - by destruct (lex_compare (fields b) (fields c)).
Qed.

Lemma lex_compare_eq a : forall b, lex_compare a b = Eq -> a = b.
Proof.
  induction a as [|x a IH]; intros [|y b]; simpl; try discriminate;
    [reflexivity|].
  destruct (Z.compare_spec x y) as [->|_|_]; try discriminate.
  intros H. by rewrite (IH b H).
Qed.

Lemma dt_ltb_not_after m x b :
  dt_ltb m x = true -> dt_ltb b x = false -> dt_ltb m b = true.
Proof.
  intros Hmx Hbx.
  destruct (lex_compare (fields b) (fields x)) eqn:E.
  - apply lex_compare_eq in E. revert Hmx. unfold dt_ltb, dt_compare.
    by rewrite E.
  - revert Hbx. unfold dt_ltb, dt_compare. by rewrite E.
  - apply (dt_ltb_trans m x b Hmx). unfold dt_ltb, dt_compare.
    by rewrite lex_compare_opp, E.
Qed.

(** No row of the list was created later than the one [latest] picks. *)
Lemma fold_later_max rows :
  forall b r, In r (b :: rows) ->
    dt_ltb (created_at (fold_left later rows b)) (created_at r) = false.
Proof.
  induction rows as [|x rows IH]; intros b r Hr.
  - destruct Hr as [<-|[]]. apply dt_ltb_irrefl.
  - cbn [fold_left].
    set (m := fold_left later rows (later b x)).
    assert (Hmax : dt_ltb (created_at m) (created_at (later b x)) = false)
      by exact (IH (later b x) (later b x) (or_introl eq_refl)).
    assert (Hc : later b x = x
                 /\ dt_ltb (created_at b) (created_at x) = true
                 \/ later b x = b
                    /\ dt_ltb (created_at b) (created_at x) = false)
      by (unfold later; destruct (dt_ltb (created_at b) (created_at x));
          [left | right]; by split).
    destruct Hr as [Hr|[Hr|Hr]]; [| |exact (IH _ _ (or_intror Hr))]; subst r;
      match goal with |- ?t = false => destruct t eqn:Hlt end;
      try reflexivity;
      exfalso; destruct Hc as [[E Hbx]|[E Hbx]]; rewrite E in Hmax.
    + by rewrite (dt_ltb_trans _ _ _ Hlt Hbx) in Hmax.
    + congruence.
    + congruence.
    + by rewrite (dt_ltb_not_after _ _ _ Hlt Hbx) in Hmax.
Qed.

Lemma find_pending_latest session db b k r :
  find_pending session db = Some b ->
  db !! k = Some r -> is_pending_for session r = true ->
  dt_ltb (created_at b) (created_at r) = false.
Proof.
  unfold find_pending. intros Hf Hk Hp.
  assert (Hin : In r (List.filter (is_pending_for session)
                        (map snd (map_to_list db)))).
  { apply filter_In. split; [|exact Hp].
    apply in_map_iff. exists (k, r). split; [reflexivity|].
    apply list_elem_of_In. by apply elem_of_map_to_list. }
  destruct (List.filter (is_pending_for session) (map snd (map_to_list db)))
    as [|x rows]; [discriminate|].
  injection Hf as <-. by apply fold_later_max.
Qed.

(** X1.  Resolving the session's draft. The draft returned is unconfirmed,
    belongs to the session and is stored in the table returned; every row of
    the table given is still there unchanged. Either an unconfirmed draft of
    the session was stored, the table is returned as it was and the draft
    returned is a latest one: no unconfirmed draft of the session has a
    later creation time. Or none was stored and the table gains exactly one
    row, the empty draft of the session, under a key that was free. *)
Theorem get_or_create_pending_spec (utcnow : datetime) (session : string)
  (db : DB) :
  let b := fst (get_or_create_pending utcnow session db) in
  let db0 := snd (get_or_create_pending utcnow session db) in
  session_id b = session /\ confirmed b = false
  /\ (exists k, db0 !! k = Some b)
  /\ (forall k r, db !! k = Some r -> db0 !! k = Some r)
  /\ ((db0 = db
       /\ (exists k, db !! k = Some b)
       /\ forall k r, db !! k = Some r ->
                      session_id r = session -> confirmed r = false ->
                      dt_ltb (created_at b) (created_at r) = false)
      \/ ((forall k r, db !! k = Some r ->
                       session_id r = session -> confirmed r = true)
          /\ db !! id b = None
          /\ b = empty_draft (next_id db) session utcnow
          /\ db0 = <[id b := b]> db)).
Proof.
  unfold get_or_create_pending.
  destruct (find_pending session db) as [p|] eqn:Hf; cbn [fst snd].
  - destruct (find_pending_spec _ _ _ Hf) as (Hk & Hs & Hc).
    split; [exact Hs|]. split; [exact Hc|]. split; [exact Hk|].
    split; [auto|]. left. split; [reflexivity|]. split; [exact Hk|].
    intros k r Hr Hrs Hrc. apply (find_pending_latest session db p k r Hf Hr).
    by apply is_pending_for_spec.
  - pose proof (next_id_fresh db) as Hfresh.
    split; [reflexivity|]. split; [reflexivity|].
    split; [exists (next_id db); apply lookup_commit|].
    split.
    + intros k r Hk. rewrite lookup_commit_ne; [exact Hk|].
      cbn [id]. intros <-. congruence.
    + right. split; [|repeat split; exact Hfresh].
      intros k r Hr Hrs. rewrite find_pending_none in Hf.
      specialize (Hf k r Hr). unfold is_pending_for in Hf.
      rewrite (proj2 (String.eqb_eq _ _) Hrs) in Hf.
      by destruct (confirmed r).
Qed.

(** Replacing a stored row by a row for the same slot keeps the table
    well formed with one pending draft per session. *)
Lemma commit_same_slot db b b' :
  table_ok db -> db !! id b = Some b -> same_slot b b' ->
  table_ok (commit b' db) /\ commit b' db !! id b' = Some b'.
Proof.
  intros [Hwf Hone] Hb (Hid & Hs & Hc).
  split; [|apply lookup_commit]. split; [by apply wf_db_commit|].
  intros k1 k2 b1 b2 H1 H2 Hss Hc1 Hc2.
  destruct (decide (id b' = k1)) as [E1|N1], (decide (id b' = k2)) as [E2|N2];
    [congruence | | |].
  - subst k1. rewrite lookup_commit in H1. injection H1 as <-.
    rewrite lookup_commit_ne in H2 by done.
    rewrite Hid. apply (Hone (id b) k2 b b2); auto. congruence.
  - subst k2. rewrite lookup_commit in H2. injection H2 as <-.
    rewrite lookup_commit_ne in H1 by done.
    rewrite Hid. apply (Hone k1 (id b) b1 b); auto. congruence.
  - rewrite lookup_commit_ne in H1, H2 by done. eauto.
Qed.

Lemma same_slot_refl b : same_slot b b.
Proof. repeat split. auto. Qed.

Lemma same_slot_trans a b c : same_slot a b -> same_slot b c -> same_slot a c.
Proof.
  intros (H1 & H2 & H3) (H4 & H5 & H6). repeat split; try congruence. auto.
Qed.

Lemma same_slot_identity b b' : same_row_identity b b' -> same_slot b b'.
Proof. intros (H1 & H2 & H3 & _). repeat split; congruence. Qed.

Lemma get_or_create_table_ok utcnow session db :
  table_ok db ->
  let b := fst (get_or_create_pending utcnow session db) in
  let db0 := snd (get_or_create_pending utcnow session db) in
  table_ok db0 /\ db0 !! id b = Some b.
Proof.
  intros [Hwf Hone]. unfold get_or_create_pending.
  destruct (find_pending session db) as [p|] eqn:Hf; cbn [fst snd].
  - apply find_pending_spec in Hf as ([k Hk] & _ & _).
    split; [by split|]. by rewrite (Hwf k p Hk).
  - split; [|apply lookup_commit]. split; [by apply wf_db_commit|].
    rewrite find_pending_none in Hf.
    set (new := mk_booking _ _ _ _ _ _ _ _ _ _ _ _).
    pose proof (next_id_fresh db) as Hfresh.
    assert (Hnone : forall k r, commit new db !! k = Some r -> k <> id new ->
                                db !! k = Some r).
    { intros k r H Hne. by rewrite lookup_commit_ne in H. }
    intros k1 k2 b1 b2 H1 H2 Hss Hc1 Hc2.
    destruct (decide (k1 = id new)) as [E1|N1], (decide (k2 = id new)) as [E2|N2];
      [congruence | | |].
    + subst k1. rewrite lookup_commit in H1. injection H1 as <-.
      apply Hnone in H2; [|exact N2]. apply Hf in H2.
      unfold is_pending_for in H2. cbn [session_id] in Hss.
      rewrite <- Hss, String.eqb_refl, Hc2 in H2. discriminate.
    + subst k2. rewrite lookup_commit in H2. injection H2 as <-.
      apply Hnone in H1; [|exact N1]. apply Hf in H1.
      unfold is_pending_for in H1. cbn [session_id] in Hss.
      rewrite Hss, String.eqb_refl, Hc1 in H1. discriminate.
    + apply Hnone in H1, H2; auto. eauto.
Qed.

(** The direct confirm writes a row for the same slot. *)
Lemma confirm_booking_keeps_table_ok bid db :
  table_ok db -> table_ok (fst (confirm_booking bid db)).
Proof.
  intros Hok. unfold confirm_booking, find_by_id.
  destruct (db !! bid) as [b|] eqn:Hb; [|exact Hok].
  destruct (_ || _); [exact Hok|]. cbn [fst].
  assert (Hid : id b = bid) by (destruct Hok as [Hwf _]; by apply Hwf).
  rewrite <- Hid in Hb.
  apply (commit_same_slot db b (set_confirmed true b) Hok Hb).
  repeat split. discriminate.
Qed.

Section Turns.
Variable nlp : string -> list entity.
Variable search_dates : string -> option (list (string * datetime)).
Variable parse_date : settings -> string -> option datetime.
Variable today : datetime.
Variable utcnow : datetime.

Local Abbreviation merge_turn' :=
  (merge_turn nlp search_dates parse_date today utcnow).
Local Abbreviation handle_message' :=
  (handle_message nlp search_dates parse_date today utcnow).

(** The first half of a turn writes under the key of the resolved draft
    only, and what it stores there is the post-merge draft. *)
Lemma merge_turn_shape text session db :
  let b0 := fst (get_or_create_pending utcnow session db) in
  let db0 := snd (get_or_create_pending utcnow session db) in
  (merge_turn' text session db = (db0, None))
  \/ exists b changed,
       merge_turn' text session db = (commit b db0, Some (b, changed))
       /\ same_row_identity b0 b.
Proof.
  unfold merge_turn.
  destruct (get_or_create_pending utcnow session db) as [b0 db0].
  cbn [fst snd].
  destruct (mem "name" (compute_missing b0) && Str.truthy text
            && looks_like_name_response text).
  - right. rewrite merge_no_entities. do 2 eexists. split.
    + unfold commit at 1 2. rewrite insert_insert_eq. reflexivity.
    + repeat split.
  - destruct (extract_entities _ _ _ _ _) as [e|]; [|by left].
    destruct (sqlite_int_ok (x_guests e) && sqlite_int_ok (x_nights e));
      [|by left].
    right. pose proof (merge_extracted_identity e b0) as Hid.
    destruct (merge_extracted e b0) as [b' ch]. simpl in Hid. eauto.
Qed.

(** The intent branch stores nothing, or the draft it was given with the
    confirmed flag and the notes changed. *)
Lemma respond_shape i b changed db :
  fst (respond utcnow i b changed db) = db
  \/ exists b', fst (respond utcnow i b changed db) = commit b' db
                /\ id b' = id b /\ session_id b' = session_id b
                /\ (confirmed b' = false -> confirmed b = false).
Proof.
  unfold respond. destruct i.
  - destruct (compute_missing b); [|by left].
    right. eexists. split; [reflexivity|]. repeat split. discriminate.
  - right. eexists. split; [reflexivity|]. repeat split. auto.
  - destruct (conversational_reply b changed). by left.
  - destruct (conversational_reply b changed). by left.
  - destruct (conversational_reply b changed). by left.
Qed.

(** X3 (frame).  A request writes under one key only: the key of the
    session's resolved draft. *)
Lemma handle_message_frame message session_id db k :
  k <> id (fst (get_or_create_pending utcnow (or_empty session_id) db)) ->
  fst (handle_message' message session_id db) !! k = db !! k.
Proof.
  intros Hk. unfold handle_message.
  destruct (negb (truthy_str session_id)); [reflexivity|].
  set (text := Str.strip (or_empty message)).
  set (sid := or_empty session_id) in *.
  assert (Hdb0 : snd (get_or_create_pending utcnow sid db) !! k = db !! k).
  { destruct (get_or_create_cases utcnow sid db) as [(p & _ & Hg)|[_ Hg]];
      rewrite Hg in Hk |- *; [reflexivity|].
    cbn [fst snd] in *. by rewrite lookup_commit_ne. }
  destruct (merge_turn_shape text sid db) as [Hm|(b & ch & Hm & Hid)];
    rewrite Hm.
  - exact Hdb0.
  - destruct Hid as (Hid & _).
    assert (Hc : commit b (snd (get_or_create_pending utcnow sid db)) !! k
                 = db !! k)
      by (rewrite lookup_commit_ne; [exact Hdb0 | congruence]).
    destruct (respond_shape (detect_intent text) b ch
                (commit b (snd (get_or_create_pending utcnow sid db))))
      as [->|(b' & -> & Hid' & _)]; [exact Hc|].
    rewrite lookup_commit_ne; [exact Hc | congruence].
Qed.

(** X2.  What a request never touches: with every row stored under its own
    key, a confirmed booking and a row of another session are the same after
    the request as before it. *)
Theorem handle_message_keeps_other_rows (message session : option string)
  (db : DB) (k : Z) (r : Booking) :
  wf_db db ->
  db !! k = Some r ->
  confirmed r = true \/ session_id r <> or_empty session ->
  fst (handle_message' message session db) !! k = Some r.
Proof.
  intros Hwf Hr Hother. rewrite handle_message_frame; [exact Hr|].
  intros ->.
  destruct (get_or_create_cases utcnow (or_empty session) db)
    as [(p & Hf & Hg)|[_ Hg]]; rewrite Hg in Hr;
    unfold empty_draft in Hr; cbn [fst id] in Hr.
  - apply find_pending_spec in Hf as ([k0 Hk0] & Hs & Hc).
    rewrite (Hwf _ _ Hk0) in Hr. assert (r = p) by congruence. subst r.
    destruct Hother as [H|H]; congruence.
  - rewrite next_id_fresh in Hr. discriminate.
Qed.

(** X3.  The table invariants are kept by every request that writes, a turn
    of the dialogue or a direct confirm: rows stay under their own keys and
    no session ever has two unconfirmed drafts. *)
Theorem handle_message_keeps_table_ok (message session_id : option string)
  (bid : Z) (db : DB) :
  table_ok db ->
  table_ok (fst (handle_message' message session_id db))
  /\ table_ok (fst (confirm_booking bid db)).
Proof.
  intros Hok. split; [|by apply confirm_booking_keeps_table_ok].
  unfold handle_message.
  destruct (negb (truthy_str session_id)); [exact Hok|].
  set (text := Str.strip (or_empty message)).
  set (sid := or_empty session_id).
  destruct (get_or_create_table_ok utcnow sid db Hok) as [Hok0 Hb0].
  destruct (merge_turn_shape text sid db) as [Hm|(b & ch & Hm & Hid)];
    rewrite Hm; [exact Hok0|].
  destruct (commit_same_slot _ _ b Hok0 Hb0 (same_slot_identity _ _ Hid))
    as [Hok1 Hb1].
  destruct (respond_shape (detect_intent text) b ch
              (commit b (snd (get_or_create_pending utcnow sid db))))
    as [->|(b' & -> & Hs)]; [exact Hok1|].
  by destruct (commit_same_slot _ _ b' Hok1 Hb1 Hs).
Qed.
End Turns.

(** ** The dialogue: what a turn keeps and what follows it *)

Lemma is_set_isoformat (o : option datetime) :
  is_set (option_map isoformat o) = is_set o.
Proof. by destruct o. Qed.

(** No required field is missing exactly when the snapshot is complete. *)
Lemma compute_missing_complete b :
  (List.length (compute_missing b) =? 0)%nat
  = snapshot_complete (booking_to_dict b).
Proof.
  unfold compute_missing, snapshot_complete, booking_to_dict.
  cbn [d_guest_name d_checkin d_checkout d_nights d_guests].
  rewrite !is_set_isoformat.
  destruct (truthy_str (guest_name b)),
    (is_set (checkin b) && (is_set (checkout b) || truthy_num (nights b))),
    (truthy_num (guests b)); reflexivity.
Qed.

Lemma compute_missing_nil b :
  compute_missing b = [] <-> snapshot_complete (booking_to_dict b) = true.
Proof.
  rewrite <- compute_missing_complete.
  destruct (compute_missing b); simpl; split; congruence.
Qed.

(** A property kept by the one assignment a merge step can make is kept
    by the step. *)
Lemma merge_field_keeps {A : Type} (present : option A -> bool) v set field
  acc (P : Booking -> Prop) :
  (forall b, present v = true -> P b -> P (set v b)) ->
  P (fst acc) -> P (fst (merge_field present v set field acc)).
Proof.
  intros Hset HP. unfold merge_field.
  destruct (present v) eqn:Hv; simpl; auto.
Qed.

(** The slots of [b'] are filled wherever those of [b] are. *)
(** The three required slots, once filled, stay filled through a merge. *)
Lemma merge_keeps_slots e b : slots_kept b (fst (merge_extracted e b)).
Proof.
  unfold merge_extracted.
  repeat (apply merge_field_keeps;
          [intros b' Hv (Hn & Hd & Hg); repeat split; cbn;
           try assumption; try (intros _; exact Hv);
           intros H; specialize (Hd H);
           apply andb_true_iff in Hd as [Hci Hco];
           rewrite ?Hci, ?Hv; cbn [andb orb is_set];
           try (apply orb_true_iff in Hco as [Hco|Hco]; rewrite Hco);
           rewrite ?orb_true_r; try reflexivity; try exact Hco
          |]).
  cbn [fst]. repeat split; auto.
Qed.

Lemma missing_incl b b' :
  slots_kept b b' -> incl (compute_missing b') (compute_missing b).
Proof.
  intros (Hn & Hd & Hg). unfold compute_missing.
  destruct (truthy_str (guest_name b)), (truthy_str (guest_name b')),
    (is_set (checkin b) && (is_set (checkout b) || truthy_num (nights b))),
    (is_set (checkin b') && (is_set (checkout b') || truthy_num (nights b'))),
    (truthy_num (guests b)), (truthy_num (guests b'));
    try (specialize (Hn eq_refl)); try (specialize (Hd eq_refl));
    try (specialize (Hg eq_refl)); try discriminate;
    cbn [negb app]; intros x Hx; simpl in *; tauto.
Qed.

Section Dialogue.
Variable nlp : string -> list entity.
Variable search_dates : string -> option (list (string * datetime)).
Variable parse_date : settings -> string -> option datetime.
Variable today : datetime.
Variable utcnow : datetime.

Local Abbreviation merge_turn' :=
  (merge_turn nlp search_dates parse_date today utcnow).
Local Abbreviation handle_message' :=
  (handle_message nlp search_dates parse_date today utcnow).

(** After the first half of a turn on a good table: the table is still
    good, and the post-merge draft is the session's unconfirmed draft,
    stored under its key. *)
Lemma merge_turn_table_ok text sid db db1 b changed :
  table_ok db ->
  merge_turn' text sid db = (db1, Some (b, changed)) ->
  table_ok db1 /\ db1 !! id b = Some b
  /\ session_id b = sid /\ confirmed b = false.
Proof.
  intros Hok Hm.
  destruct (get_or_create_table_ok utcnow sid db Hok) as [Hok0 Hb0].
  destruct (merge_turn_shape nlp search_dates parse_date today utcnow
              text sid db) as [Hn|(b' & ch & Hs & Hid)];
    rewrite Hm in *; [discriminate|].
  injection Hs as -> <- <-.
  destruct (commit_same_slot _ _ b Hok0 Hb0 (same_slot_identity _ _ Hid))
    as [Hok1 Hb1].
  split; [exact Hok1|]. split; [exact Hb1|].
  destruct Hid as (_ & Hsess & Hconf & _). rewrite Hsess, Hconf.
  destruct (get_or_create_pending utcnow sid db) as [b0 db0] eqn:Hg.
  apply (get_or_create_pending_open nlp search_dates) in Hg.
  cbn [fst]. tauto.
Qed.

(** X4.  Cancel is not terminal. On a good table, after a turn that
    classifies as cancel the cancelled draft, with its note, is still the
    session's pending draft: the next request of the session resolves to it
    and creates nothing. *)
Theorem cancelled_draft_stays_pending (message : option string) (sid : string)
  (db db1 : DB) (b : Booking) (changed : list string) (later : datetime) :
  let text := Str.strip (or_empty message) in
  let b' :=
    set_notes (Some (or_empty (notes b) ++ newline ++ "Cancelled by user at "
                     ++ isoformat utcnow)) b in
  let db' := fst (handle_message' message (Some sid) db) in
  table_ok db ->
  Str.truthy sid = true ->
  merge_turn' text sid db = (db1, Some (b, changed)) ->
  detect_intent text = cancel ->
  db' = commit b' db1
  /\ find_pending sid db' = Some b'
  /\ get_or_create_pending later sid db' = (b', db').
Proof.
  intros text b' db' Hok Hsid Hm Hi.
  destruct (merge_turn_table_ok _ _ _ _ _ _ Hok Hm) as (Hok1 & Hb1 & Hs & Hc).
  assert (Hdb' : db' = commit b' db1).
  { subst db'. unfold handle_message. cbn [truthy_str or_empty].
    rewrite Hsid. cbn [negb]. fold text. by rewrite Hm, Hi. }
  destruct (commit_same_slot db1 b b' Hok1 Hb1) as [[_ Hone] Hlk].
  { repeat split. auto. }
  assert (Hf : find_pending sid db' = Some b').
  { rewrite Hdb'. apply (find_pending_unique sid _ (id b') b' Hone Hlk).
    apply is_pending_for_spec. split; [exact Hs | exact Hc]. }
  split; [exact Hdb'|]. split; [exact Hf|].
  unfold get_or_create_pending. by rewrite Hf.
Qed.

(** X5.  A successful confirm. On a good table, a turn that classifies as
    confirm with no required field missing on the post-merge draft stores
    the draft confirmed, with the confirmation note appended, and answers
    with the thanks and completeness true. The session then has no pending
    draft: its next request starts an empty draft under a new key and the
    confirmed booking stays as it is. *)
Theorem confirmed_draft_is_closed (message : option string) (sid : string)
  (db db1 : DB) (b : Booking) (changed : list string) (later : datetime) :
  let text := Str.strip (or_empty message) in
  let bc :=
    set_notes (Some (or_empty (notes b) ++ newline ++ "Confirmed at "
                     ++ isoformat utcnow)) (set_confirmed true b) in
  let db' := commit bc db1 in
  table_ok db ->
  Str.truthy sid = true ->
  merge_turn' text sid db = (db1, Some (b, changed)) ->
  detect_intent text = confirm ->
  compute_missing b = [] ->
  handle_message' message (Some sid) db
  = (db', Turn_response
            ("Thanks " ++ or_empty (guest_name b)
             ++ "! Your booking is confirmed.")
            (booking_to_dict bc) true)
  /\ db' !! id b = Some bc
  /\ find_pending sid db' = None
  /\ get_or_create_pending later sid db'
     = (empty_draft (next_id db') sid later,
        commit (empty_draft (next_id db') sid later) db')
  /\ next_id db' <> id b.
Proof.
  intros text bc db' Hok Hsid Hm Hi Hmiss.
  destruct (merge_turn_table_ok _ _ _ _ _ _ Hok Hm) as (Hok1 & Hb1 & Hs & Hc).
  destruct (commit_same_slot db1 b bc Hok1 Hb1) as [[Hwf Hone] Hlk].
  { repeat split. discriminate. }
  fold db' in Hwf, Hone, Hlk. change (id bc) with (id b) in Hlk.
  assert (Hf : find_pending sid db' = None).
  { apply find_pending_none. intros k r Hr.
    destruct (is_pending_for sid r) eqn:Hp; [|reflexivity].
    apply is_pending_for_spec in Hp as [Hrs Hrc].
    destruct (decide (k = id b)) as [->|Hne].
    - rewrite Hlk in Hr. injection Hr as <-. discriminate Hrc.
    - subst db'. rewrite lookup_commit_ne in Hr by (cbn; congruence).
      destruct Hok1 as [_ Hone1].
      exfalso. apply Hne. apply (Hone1 k (id b) r b); congruence. }
  split.
  { unfold handle_message. cbn [truthy_str or_empty].
    rewrite Hsid. cbn [negb]. fold text. rewrite Hm, Hi.
    unfold respond. rewrite Hmiss. reflexivity. }
  split; [exact Hlk|]. split; [exact Hf|]. split.
  - unfold get_or_create_pending. rewrite Hf. reflexivity.
  - intros Heq. pose proof (next_id_fresh db') as Hfresh.
    rewrite Heq, Hlk in Hfresh. discriminate.
Qed.

(** X6.  Slot filling only goes forward: a required field that the resolved
    draft has is never missing on the post-merge draft. *)
Theorem missing_fields_only_shrink (text sid : string) (db db1 : DB)
  (b : Booking) (changed : list string) :
  merge_turn' text sid db = (db1, Some (b, changed)) ->
  incl (compute_missing b)
    (compute_missing (fst (get_or_create_pending utcnow sid db))).
Proof.
  unfold merge_turn.
  destruct (get_or_create_pending utcnow sid db) as [b0 db0]. cbn [fst].
  destruct (mem "name" (compute_missing b0) && Str.truthy text
            && looks_like_name_response text) eqn:Hg.
  - rewrite merge_no_entities. intros [= _ <- _].
    apply missing_incl. repeat split; auto.
    intros _. apply andb_true_iff in Hg as [Hg _].
    apply andb_true_iff in Hg as [_ Ht]. exact Ht.
  - destruct (extract_entities _ _ _ _ _) as [e|]; [|discriminate].
    destruct (sqlite_int_ok (x_guests e) && sqlite_int_ok (x_nights e));
      [|discriminate].
    pose proof (merge_keeps_slots e b0) as Hk.
    destruct (merge_extracted e b0) as [b' ch]. cbn [fst] in Hk.
    intros [= _ <- _]. by apply missing_incl.
Qed.

(** X7.  The completeness flag. Whenever a request is answered with a reply
    and the utterance is not a cancel, the flag says exactly whether the
    snapshot returned has a name, the dates and the guests. *)
Theorem completeness_flag_matches_snapshot (message session : option string)
  (db db' : DB) (reply : string) (bd : booking_dict) (flag : bool) :
  handle_message' message session db = (db', Turn_response reply bd flag) ->
  detect_intent (Str.strip (or_empty message)) <> cancel ->
  flag = snapshot_complete bd.
Proof.
  unfold handle_message.
  destruct (negb (truthy_str session)); [discriminate|].
  destruct (merge_turn' _ _ db) as [db1 [[b ch]|]]; [|discriminate].
  unfold respond.
  destruct (detect_intent (Str.strip (or_empty message))); intros H Hi;
    try congruence.
  - destruct (compute_missing b) eqn:Hmiss.
    + injection H as _ _ <- <-. symmetry.
      by apply (compute_missing_nil b) in Hmiss.
    + injection H as _ _ <- <-.
      rewrite <- compute_missing_complete, Hmiss. reflexivity.
  - revert H. unfold conversational_reply.
    rewrite compute_missing_complete.
    destruct (snapshot_complete (booking_to_dict b)) eqn:Hc;
      [destruct (existsb _ ch)|]; intros [= _ _ <- <-]; by rewrite Hc.
  - revert H. unfold conversational_reply.
    rewrite compute_missing_complete.
    destruct (snapshot_complete (booking_to_dict b)) eqn:Hc;
      [destruct (existsb _ ch)|]; intros [= _ _ <- <-]; by rewrite Hc.
  - revert H. unfold conversational_reply.
    rewrite compute_missing_complete.
    destruct (snapshot_complete (booking_to_dict b)) eqn:Hc;
      [destruct (existsb _ ch)|]; intros [= _ _ <- <-]; by rewrite Hc.
Qed.

(** X8.  The uncaught exception of a turn.  For a request whose message,
    when it is a string, and whose session id are ASCII text: the request
    ends in an uncaught exception exactly when the message is a truthy
    JSON value that is not a string, or the request has a session id, the
    name guard does not take the utterance, and either the extractor
    raises or an extracted count does not fit the 64-bit integer column,
    so that the commit of the merge raises.  Neither the name guard nor
    the intent branch raises.  When the request ends in the exception, the
    table is unchanged if the message was not a string, and otherwise as
    the draft lookup left it: the only thing written is the empty draft of
    a session that had none. *)
Theorem exception_leaves_lookup_state (message : option json_value)
  (session : option string) (db : DB) :
  let m := match message_text message with Some m => m | None => None end in
  let text := Str.strip (or_empty m) in
  let b0 := fst (get_or_create_pending utcnow (or_empty session) db) in
  let db0 := snd (get_or_create_pending utcnow (or_empty session) db) in
  let extraction := extract_entities nlp search_dates parse_date today text in
  let result :=
    handle_request nlp search_dates parse_date today utcnow message session
      db in
  ascii_text (or_empty m) = true ->
  ascii_text (or_empty session) = true ->
  (snd result = Unhandled_exception
   <-> message = Some (J_other true)
       \/ (message <> Some (J_other true)
           /\ truthy_str session = true
           /\ mem "name" (compute_missing b0) && Str.truthy text
              && looks_like_name_response text = false
           /\ (extraction = None
               \/ exists e, extraction = Some e
                            /\ sqlite_int_ok (x_guests e)
                               && sqlite_int_ok (x_nights e) = false)))
  /\ (snd result = Unhandled_exception ->
      fst result = if is_set (message_text message) then db0 else db).
Proof.
  intros m text b0 db0 extraction result _ _. subst result.
  unfold handle_request.
  destruct (message_text message) as [m'|] eqn:Hmt.
  2:{ assert (message = Some (J_other true))
        by (by destruct message as [[s|[|]]|]).
      cbn [fst snd is_set]. split; [split; [by left | done] | done]. }
  assert (Hstr : message <> Some (J_other true))
    by (intros ->; discriminate Hmt).
  subst m. cbn [is_set].
  unfold handle_message. fold text.
  destruct (truthy_str session) eqn:Hs; cbn [negb].
  2:{ split; [split|]; cbn [snd]; try discriminate.
      intros [?|(_ & ? & _)]; [contradiction | discriminate]. }
  destruct (merge_turn_cases nlp search_dates parse_date today utcnow
              text (or_empty session) db)
    as [[Hg Hm]|[(Hg & Hm & Hcause)|(Hg & e & He & Hfit & Hm)]];
    fold b0 db0 extraction in Hg, Hm |- *.
  - rewrite Hm.
    destruct (respond_keeps_columns utcnow (detect_intent text)
                (set_guest_name (Some text) b0) []
                (commit (set_guest_name (Some text) b0) db0))
      as (d & r & bd & f & -> & _). cbn [fst snd].
    split; [split|]; try discriminate.
    intros [?|(_ & _ & Hg' & _)]; [contradiction | congruence].
  - rewrite Hm. cbn [fst snd]. split; [|done].
    split; [|done]. intros _. right. split; [exact Hstr|].
    split; [reflexivity|]. split; [exact Hg | exact Hcause].
  - fold extraction in He. rewrite Hm.
    destruct (merge_extracted e b0) as [b' ch].
    destruct (respond_keeps_columns utcnow (detect_intent text) b' ch
                (commit (fst (b', ch)) db0)) as (d & r & bd & f & -> & _).
    cbn [fst snd]. split; [split|]; try discriminate.
    intros [?|(_ & _ & _ & [Hn|(e' & He' & Hfit')])];
      [contradiction | congruence | congruence].
Qed.
End Dialogue.

Section Report.
Variable nlp : string -> list entity.
Variable search_dates : string -> option (list (string * datetime)).
Variable parse_date : settings -> string -> option datetime.
Variable today : datetime.
Variable utcnow : datetime.

(** What the intent branch reports is the row it leaves under the draft's
    key. *)
Lemma respond_reports_stored i b changed db db' reply bd flag :
  db !! id b = Some b ->
  respond utcnow i b changed db = (db', Turn_response reply bd flag) ->
  exists b', db' !! d_id bd = Some b' /\ booking_to_dict b' = bd.
Proof.
  intros Hb. unfold respond. destruct i.
  - destruct (compute_missing b).
    + intros [= <- _ <- _]. eexists. split; [apply lookup_commit|reflexivity].
    + intros [= <- _ <- _]. exists b. by split.
  - intros [= <- _ <- _]. eexists. split; [apply lookup_commit|reflexivity].
  - destruct (conversational_reply b changed).
    intros [= <- _ <- _]. exists b. by split.
  - destruct (conversational_reply b changed).
    intros [= <- _ <- _]. exists b. by split.
  - destruct (conversational_reply b changed).
    intros [= <- _ <- _]. exists b. by split.
Qed.

(** X9.  The snapshot reported is the row stored. Whenever a turn of the
    dialogue or a direct confirm answers with a snapshot of the booking,
    fetching the booking by the id on the snapshot right afterwards returns
    that same snapshot and changes nothing. *)
Theorem reported_snapshot_is_stored (message session : option string)
  (bid : Z) (db db' : DB) (reply : string) (bd : booking_dict) (flag : bool) :
  handle_message nlp search_dates parse_date today utcnow message session db
  = (db', Turn_response reply bd flag)
  \/ confirm_booking bid db = (db', Turn_response reply bd flag) ->
  get_booking (d_id bd) db' = (db', Booking_response bd).
Proof.
  intros H.
  assert (Hs : exists b', db' !! d_id bd = Some b' /\ booking_to_dict b' = bd).
  { destruct H as [H|H].
    - revert H. unfold handle_message.
      destruct (negb (truthy_str session)); [discriminate|].
      destruct (merge_turn nlp search_dates parse_date today utcnow
                  (Str.strip (or_empty message)) (or_empty session) db)
        as [db1 [[b ch]|]] eqn:Hm; [|discriminate].
      apply merge_turn_stored in Hm as [_ Hb].
      by apply respond_reports_stored.
    - revert H. unfold confirm_booking, find_by_id.
      destruct (db !! bid) as [b|]; [|discriminate].
      destruct (_ || _); [discriminate|].
      intros [= <- _ <- _]. eexists. split; [apply lookup_commit|reflexivity]. }
  destruct Hs as (b' & Hlk & <-).
  unfold get_booking, find_by_id. by rewrite Hlk.
Qed.
End Report.

(** The draft resolved for a session sits under its own key. *)
Lemma get_or_create_stored utcnow session db :
  wf_db db ->
  snd (get_or_create_pending utcnow session db)
    !! id (fst (get_or_create_pending utcnow session db))
  = Some (fst (get_or_create_pending utcnow session db)).
Proof.
  intros Hwf.
  destruct (get_or_create_cases utcnow session db) as [(p & Hf & ->)|[_ ->]];
    cbn [fst snd]; [|apply lookup_commit].
  apply find_pending_spec in Hf as ([k Hk] & _).
  by rewrite (Hwf _ _ Hk).
Qed.

Lemma commit_stored b db : db !! id b = Some b -> commit b db = db.
Proof. apply insert_id. Qed.

Section Blank.
Variable nlp : string -> list entity.
Variable search_dates : string -> option (list (string * datetime)).
Variable parse_date : settings -> string -> option datetime.
Variable today : datetime.
Variable utcnow : datetime.

(** X10.  A blank message. With every row stored under its own key, a
    request with a session id whose message is absent, empty or only
    whitespace consults neither the pipeline nor the date library, leaves
    the session's draft as it was (creating the empty draft if the session
    had none), and answers with the conversational prompt for that draft and
    no changed field. *)
Theorem blank_message_changes_nothing (message session : option string)
  (db : DB) :
  let b0 := fst (get_or_create_pending utcnow (or_empty session) db) in
  let db0 := snd (get_or_create_pending utcnow (or_empty session) db) in
  wf_db db ->
  truthy_str session = true ->
  Str.truthy (Str.strip (or_empty message)) = false ->
  handle_message nlp search_dates parse_date today utcnow message session db
  = (db0,
     Turn_response (fst (conversational_reply b0 [])) (booking_to_dict b0)
       (snd (conversational_reply b0 [])))
  /\ db0 !! id b0 = Some b0.
Proof.
  intros b0 db0 Hwf Hs Hblank.
  pose proof (get_or_create_stored utcnow (or_empty session) db Hwf) as Hb0.
  fold b0 db0 in Hb0. split; [|exact Hb0].
  unfold handle_message, merge_turn. rewrite Hs. cbn [negb].
  destruct (Str.strip (or_empty message)) as [|c t] eqn:Ht; [|discriminate].
  fold b0 db0.
  destruct (get_or_create_pending utcnow (or_empty session) db) as [b db1].
  cbn [fst snd] in b0, db0, Hb0. subst b0 db0.
  cbn [Str.truthy andb]. rewrite andb_false_r. cbn [andb].
  unfold extract_entities. cbn [Str.truthy negb].
  change (sqlite_int_ok (x_guests no_entities)
          && sqlite_int_ok (x_nights no_entities)) with true. cbn iota.
  rewrite merge_no_entities, (commit_stored _ _ Hb0).
  change (detect_intent EmptyString) with unknown. unfold respond.
  by destruct (conversational_reply b []).
Qed.
End Blank.

(** ** Case and the nearest year *)

(** ** The classifier and the normalizer: case, idempotence, fields *)

Lemma detect_intent_lower text :
  detect_intent (Str.lower text) = detect_intent text.
Proof.
  unfold detect_intent, _match_any_word.
  rewrite !strip_blank, lower_blank, !truthy_lower, !lower_idempotent.
  reflexivity.
Qed.

(** X11.  The classifier ignores case: two utterances that differ only in
    the case of their letters get the same intent. *)
Theorem detect_intent_ignores_case (a b : string) :
  Str.lower a = Str.lower b -> detect_intent a = detect_intent b.
Proof.
  intros H. rewrite <- (detect_intent_lower a), <- (detect_intent_lower b).
  by rewrite H.
Qed.

Lemma detect_intent_ignores_case_witness :
  Str.lower "Cancel My BOOKING" = Str.lower "cancel my booking"
  /\ detect_intent "Cancel My BOOKING" = detect_intent "cancel my booking".
Proof.
  split; [reflexivity|].
  apply (detect_intent_ignores_case "Cancel My BOOKING" "cancel my booking").
  reflexivity.
Defined.

Lemma min_by_in {A : Type} (key : A -> Z) x xs : In (min_by key x xs) (x :: xs).
Proof. apply min_by_spec. Qed.

(** X12.  The normalizer moves a date by whole years only and to a fixed
    point: the result has the month, day, hour, minute and second of the
    date given, its year is the given one or one of the three around the
    current year, and normalizing it again returns it. *)
Theorem normalizer_changes_year_only (today d : datetime) (t : string) :
  let r := _closest_year_for_month_day today d t in
  month r = month d /\ day r = day d /\ hour r = hour d
  /\ minute r = minute d /\ second r = second d
  /\ (r = d \/ (In (year r) (nearby_years today) /\ microsecond r = 0))
  /\ _closest_year_for_month_day today r t = r.
Proof.
  intros r.
  assert (Hr : r = d \/ exists y, In y (nearby_years today)
                                  /\ candidate d y = Some r).
  { subst r. unfold _closest_year_for_month_day.
    destruct (found false EXPLICIT_YEAR t); [by left|].
    destruct (candidates today d) as [|c cs] eqn:Hcs; [by left|].
    right. apply candidates_spec. rewrite Hcs. apply min_by_in. }
  assert (Hidem : _closest_year_for_month_day today r t = r)
    by apply closest_year_idempotent.
  destruct Hr as [->|(y & Hy & Hc)].
  - repeat split; auto.
  - apply candidate_fields in Hc as [Hc _].
    split; [by rewrite Hc|]. split; [by rewrite Hc|].
    split; [by rewrite Hc|]. split; [by rewrite Hc|].
    split; [by rewrite Hc|]. split; [|exact Hidem].
    right. rewrite Hc. cbn [year microsecond]. by split.
Qed.

Lemma time_us_range d :
  valid_time (hour d) (minute d) (second d) (microsecond d) = true ->
  0 <= time_us d < DAY_US.
Proof.
  unfold valid_time, time_us, DAY_US. rewrite !andb_true_iff, !Z.leb_le. lia.
Qed.

(** The same month and day one year later is 365 or 366 days later. *)
Lemma ymd2ord_next_year y m d :
  1 <= m <= 12 ->
  365 <= ymd2ord (y + 1) m d - ymd2ord y m d <= 366.
Proof.
  intros Hm. unfold ymd2ord, days_before_month.
  rewrite days_before_year_succ. unfold leap_days.
  destruct (Z.ltb_spec 2 m); destruct (is_leap y), (is_leap (y + 1));
    cbn [andb]; lia.
Qed.

(** A month and day other than 29 February exists in every year. *)
Lemma valid_date_any_year y y' m d :
  valid_date y m d = true -> (m =? 2) && (d =? 29) = false ->
  1 <= y' <= 9999 -> valid_date y' m d = true.
Proof.
  rewrite !valid_date_spec. intros (Hy & Hm & Hd) Hfeb Hy'.
  split; [exact Hy'|]. split; [exact Hm|].
  unfold days_in_month in *.
  destruct (Z.eqb_spec m 2) as [->|Hne]; cbn [andb] in *.
  - apply Z.eqb_neq in Hfeb.
    destruct (is_leap y), (is_leap y'); cbn in *; lia.
  - exact Hd.
Qed.

Lemma candidate_exists d y :
  valid_datetime d = true -> (month d =? 2) && (day d =? 29) = false ->
  1 <= y <= 9999 ->
  candidate d y
  = Some (mk_datetime y (month d) (day d) (hour d) (minute d) (second d) 0)
  /\ valid_date y (month d) (day d) = true.
Proof.
  unfold valid_datetime. intros [Hd Ht]%andb_true_iff Hfeb Hy.
  pose proof (valid_date_any_year _ y _ _ Hd Hfeb Hy) as Hv.
  split; [|exact Hv]. unfold candidate, make_datetime. rewrite Hv.
  assert (Ht0 : valid_time (hour d) (minute d) (second d) 0 = true).
  { revert Ht. unfold valid_time. rewrite !andb_true_iff, !Z.leb_le. lia. }
  by rewrite Ht0.
Qed.

(** X13.  The nearest year is near. For a valid clock reading in the years 2
    to 9998 and a valid date other than 29 February whose text names no
    year, the normalized date is at most 183 days away from now. *)
Theorem nearest_year_within_half_a_year (today d : datetime) (t : string) :
  valid_datetime today = true -> 2 <= year today <= 9998 ->
  valid_datetime d = true -> (month d =? 2) && (day d =? 29) = false ->
  found false EXPLICIT_YEAR t = false ->
  distance today (_closest_year_for_month_day today d t) <= 183 * DAY_US.
Proof.
  intros Htoday Hyear Hd Hfeb Hexp.
  unfold _closest_year_for_month_day. rewrite Hexp.
  set (y := year today) in *.
  destruct (candidate_exists d (y - 1) Hd Hfeb ltac:(lia)) as [E0 V0].
  destruct (candidate_exists d y Hd Hfeb ltac:(lia)) as [E1 V1].
  destruct (candidate_exists d (y + 1) Hd Hfeb ltac:(lia)) as [E2 V2].
  unfold candidates. fold y. cbn [omap list_omap]. rewrite E0, E1, E2.
  cbn [omap list_omap].
  set (c0 := mk_datetime (y - 1) _ _ _ _ _ _).
  set (c1 := mk_datetime y _ _ _ _ _ _).
  set (c2 := mk_datetime (y + 1) _ _ _ _ _ _).
  destruct (min_by_spec (distance today) c0 [c1; c2]) as [_ Hmin].
  pose proof (Hmin c0 ltac:(by left)) as M0.
  pose proof (Hmin c1 ltac:(by right; left)) as M1.
  pose proof (Hmin c2 ltac:(by right; right; left)) as M2.
  clear Hmin. revert M0 M1 M2.
  generalize (distance today (min_by (distance today) c0 [c1; c2])).
  intros r. unfold distance, diff_us, toordinal.
  subst c0 c1 c2. cbn [year month day mk_datetime]. fold y.
  assert (Ht : time_us (mk_datetime (y - 1) (month d) (day d) (hour d)
                          (minute d) (second d) 0)
               = time_us (mk_datetime y (month d) (day d) (hour d)
                            (minute d) (second d) 0)
               /\ time_us (mk_datetime (y + 1) (month d) (day d) (hour d)
                             (minute d) (second d) 0)
                  = time_us (mk_datetime y (month d) (day d) (hour d)
                               (minute d) (second d) 0)) by done.
  destruct Ht as [-> ->].
  assert (Rc : 0 <= time_us (mk_datetime y (month d) (day d) (hour d)
                               (minute d) (second d) 0) < DAY_US).
  { apply time_us_range. cbn. revert Hd. unfold valid_datetime, valid_time.
    rewrite !andb_true_iff, !Z.leb_le. lia. }
  revert Rc. generalize (time_us (mk_datetime y (month d) (day d) (hour d)
                                    (minute d) (second d) 0)).
  intros tc Rc.
  assert (Rt : 0 <= time_us today < DAY_US).
  { apply time_us_range. revert Htoday. unfold valid_datetime.
    by intros [_ ?]%andb_true_iff. }
  revert Rt. generalize (time_us today). intros tt Rt.
  assert (Vt : valid_date y (month today) (day today) = true).
  { revert Htoday. unfold valid_datetime. by intros [? _]%andb_true_iff. }
  assert (Hm : 1 <= month d <= 12) by (apply valid_date_spec in V1; lia).
  pose proof (ymd2ord_next_year (y - 1) (month d) (day d) Hm) as G0.
  replace (y - 1 + 1) with y in G0 by lia.
  pose proof (ymd2ord_next_year y (month d) (day d) Hm) as G1.
  assert (L0 : ymd2ord (y - 1) (month d) (day d)
               < ymd2ord y (month today) (day today)).
  { apply ymd2ord_mono; [exact V0|exact Vt|]. left. lia. }
  assert (L2 : ymd2ord y (month today) (day today)
               < ymd2ord (y + 1) (month d) (day d)).
  { apply ymd2ord_mono; [exact Vt|exact V2|]. left. lia. }
  revert G0 G1 L0 L2.
  generalize (ymd2ord (y - 1) (month d) (day d)) as o0.
  generalize (ymd2ord (y + 1) (month d) (day d)) as o2.
  generalize (ymd2ord y (month d) (day d)) as o1.
  generalize (ymd2ord y (month today) (day today)) as ot.
  unfold DAY_US in *. intros. lia.
Qed.

(** ** What the patterns capture *)

(** The guests stage raises exactly when no CARDINAL entity gave a count
    other than zero and the guests phrase captured more than 4300
    digits. *)
Lemma extract_guests_raises nlp text :
  extract_guests nlp text = None
  <-> truthy_int (first_cardinal (ents_with nlp "CARDINAL" text)) = false
      /\ exists m, search true GUESTS_PHRASE text = Some m
                   /\ (Str.MAX_STR_DIGITS < String.length (group_text 1 m))%nat.
Proof.
  unfold extract_guests.
  destruct (truthy_int (first_cardinal (ents_with nlp "CARDINAL" text)));
    cbn [negb].
  - split; [discriminate | by intros [? _]].
  - destruct (search true GUESTS_PHRASE text) as [m|] eqn:Hs.
    + destruct (is_number_int _ (guests_phrase_number _ _ Hs)) as [-> _].
      destruct (Str.MAX_STR_DIGITS <? String.length (group_text 1 m))%nat
        eqn:Hl.
      * apply Nat.ltb_lt in Hl. split; [eauto | reflexivity].
      * apply Nat.ltb_ge in Hl. split; [discriminate|].
        intros (_ & m' & [= <-] & Hl'). lia.
    + split; [discriminate|]. by intros (_ & m' & ? & _).
Qed.

(** X14.  The numbers read by [int]. The group captured by the guests phrase
    and by the "for N nights" phrase is a non-empty run of decimal digits.
    [int] raises on it exactly when the run has more than 4300 digits, the
    limit of CPython's conversion; otherwise the number read is the decimal
    value of the run and is not negative. The guests stage as a whole
    raises exactly when no CARDINAL entity gave a count other than zero and
    the guests phrase captured more than 4300 digits. *)
Theorem captured_counts_are_numbers (text : string) (m : mstate) :
  search true GUESTS_PHRASE text = Some m
  \/ search true FOR_NIGHTS text = Some m ->
  is_number (group_text 1 m) = true
  /\ (Str.int_of (group_text 1 m) = None
      <-> (4300 < String.length (group_text 1 m))%nat)
  /\ (forall n, Str.int_of (group_text 1 m) = Some n ->
        n = Str.int_acc 0 (group_text 1 m) /\ 0 <= n)
  /\ forall nlp,
       extract_guests nlp text = None
       <-> truthy_int (first_cardinal (ents_with nlp "CARDINAL" text)) = false
           /\ exists m', search true GUESTS_PHRASE text = Some m'
                         /\ (4300 < String.length (group_text 1 m'))%nat.
Proof.
  intros Hs.
  assert (Hn : is_number (group_text 1 m) = true).
  { destruct Hs as [Hs|Hs];
      [by apply (guests_phrase_number text) | by apply (for_nights_number text)]. }
  split; [exact Hn|]. split; [|split].
  - destruct (is_number_int _ Hn) as [-> _].
    change Str.MAX_STR_DIGITS with 4300%nat.
    destruct (4300 <? String.length (group_text 1 m))%nat eqn:Hl.
    + apply Nat.ltb_lt in Hl. by split.
    + apply Nat.ltb_ge in Hl. split; [discriminate | lia].
  - intros n Hi. split; [by apply int_of_value | by apply int_of_nonneg in Hi].
  - intros nlp. apply extract_guests_raises.
Qed.

Section Canonical.
Variable nlp : string -> list entity.
Variable search_dates : string -> option (list (string * datetime)).
Variable parse_date : settings -> string -> option datetime.
Variable today : datetime.

Lemma extracted_options_values text e :
  extract_entities nlp search_dates parse_date today text = Some e ->
  (forall b, x_breakfast e = Some b -> In b breakfast_values)
  /\ (forall p, x_payment_method e = Some p -> In p payment_values).
Proof.
  intros He. destruct (Str.truthy text) eqn:Ht.
  - destruct (extract_entities_non_dates _ _ _ _ _ _ Ht He) as [Hb Hp].
    rewrite Hb, Hp. unfold extract_breakfast, extract_payment. split.
    + intros b. destruct (breakfast_token text) as [br|] eqn:Hbt;
        [|discriminate].
      destruct (Str.truthy br); [|discriminate]. intros [= <-].
      by apply (breakfast_token_values text).
    + intros p. destruct (payment_token text) as [pay|] eqn:Hpt;
        [|discriminate].
      destruct (Str.truthy pay); [|discriminate]. intros [= <-].
      by apply (payment_token_values text).
  - revert He. unfold extract_entities. rewrite Ht. cbn [negb].
    intros [= <-]. split; intros ?; discriminate.
Qed.

(** X15.  The option values are canonical on ASCII text. For a text of
    ASCII characters, whatever the collaborators, a breakfast entry of the
    extractor is one of Included, No, Continental, Buffet, Full English,
    American and Unspecified, and a payment entry is one of Visa,
    Mastercard, PayPal, Cash, Card, Amex and Crypto: the payment word
    captured is, in lower case, a key of the payment mapping, so that the
    title-casing default is not reached.  (Outside ASCII the
    case-insensitive patterns also match the long s for s and the Kelvin
    sign for k; such a text is not covered.) *)
Theorem extracted_options_are_canonical (text : string) (e : Extracted) :
  ascii_text text = true ->
  extract_entities nlp search_dates parse_date today text = Some e ->
  (forall b, x_breakfast e = Some b -> In b breakfast_values)
  /\ (forall p, x_payment_method e = Some p -> In p payment_values)
  /\ (forall pay, payment_token text = Some pay ->
        dict_get (Str.lower pay) payment_mapping <> None).
Proof.
  intros _ He. destruct (extracted_options_values text e He) as [Hb Hp].
  repeat split; [exact Hb | exact Hp |].
  intros pay Hpay. by apply (payment_token_mapped text).
Qed.
End Canonical.

(** ** The date paths of the extractor *)

(** Two values compare unless exactly one of them carries a time zone. *)
Lemma dt_lt_none a b :
  dt_lt a b = None <-> is_set (utcoffset a) <> is_set (utcoffset b).
Proof.
  unfold dt_lt. destruct (utcoffset a), (utcoffset b); cbn; split;
    congruence.
Qed.

Lemma dt_lt_same_offset a b :
  utcoffset a = utcoffset b -> dt_lt a b = Some (dt_ltb a b).
Proof.
  unfold dt_lt. intros ->. destruct (utcoffset b); [|reflexivity].
  by rewrite Z.eqb_refl.
Qed.

(** The swap puts two values of the same offset in order. *)
Lemma swap_sorts a b swap :
  utcoffset a = utcoffset b ->
  dt_lt b a = Some swap ->
  dt_leb (if swap then b else a) (if swap then a else b) = true.
Proof.
  intros Ho Hlt. rewrite dt_lt_same_offset in Hlt by done.
  injection Hlt as <-.
  pose proof (swapped_dates_ok a b) as Hok. cbn zeta in Hok.
  unfold dates_ok in Hok. by apply andb_true_iff in Hok as [Hle _].
Qed.

(** The explicit-year test of the range fallback is the one the
    normalizer makes itself. *)
Lemma normalize_unless_year today d g :
  (if negb (found false EXPLICIT_YEAR g)
   then _closest_year_for_month_day today d g else d)
  = _closest_year_for_month_day today d g.
Proof.
  unfold _closest_year_for_month_day.
  destruct (found false EXPLICIT_YEAR g); reflexivity.
Qed.

(** A digit is no blank, so stripping keeps the digits of a text. *)
Lemma digit_not_space c : Str.is_digit c = true -> Str.is_space c = false.
Proof.
  unfold Str.is_digit, Str.is_space, Str.in_range.
  intros [H1 H2]%andb_true_iff. apply Z.leb_le in H1, H2.
  rewrite !orb_false_iff, !andb_false_iff, !Z.leb_gt, Z.eqb_neq. lia.
Qed.

Lemma lstrip_keeps_digits s :
  Str.existsb_chars Str.is_digit (Str.lstrip s)
  = Str.existsb_chars Str.is_digit s.
Proof.
  induction s as [|c s IH]; [reflexivity|]. cbn [Str.lstrip].
  destruct (Str.is_space c) eqn:Hc; [|reflexivity].
  rewrite IH. cbn [Str.existsb_chars].
  destruct (Str.is_digit c) eqn:Hd; [|reflexivity].
  apply digit_not_space in Hd. congruence.
Qed.

Lemma rstrip_keeps_digits s :
  Str.existsb_chars Str.is_digit (Str.rstrip s)
  = Str.existsb_chars Str.is_digit s.
Proof.
  induction s as [|c s IH]; [reflexivity|]. rewrite rstrip_cons.
  cbn [Str.existsb_chars]. rewrite <- IH.
  destruct (Str.rstrip s) as [|c' s'] eqn:Hr; [|reflexivity].
  cbn [Str.existsb_chars]. rewrite orb_false_r.
  destruct (Str.is_space c) eqn:Hc; cbn [Str.existsb_chars];
    [|by rewrite orb_false_r].
  destruct (Str.is_digit c) eqn:Hd; [|reflexivity].
  apply digit_not_space in Hd. congruence.
Qed.

Lemma existsb_chars_weaken (p q : ascii -> bool) s :
  (forall c, p c = true -> q c = true) ->
  Str.existsb_chars q s = false -> Str.existsb_chars p s = false.
Proof.
  intros Hpq. induction s as [|c s IH]; [reflexivity|].
  cbn [Str.existsb_chars]. intros [Hc Hs]%orb_false_iff.
  rewrite (IH Hs), orb_false_r.
  destruct (p c) eqn:Hp; [|reflexivity]. apply Hpq in Hp. congruence.
Qed.

(** A text that reads as a name has no digit. *)
Lemma name_response_without_digit text :
  looks_like_name_response text = true ->
  Str.existsb_chars Str.is_digit text = false.
Proof.
  unfold looks_like_name_response.
  destruct (negb (Str.truthy text) || negb (Str.truthy (Str.strip text)));
    [discriminate|].
  rewrite found_class.
  destruct (Str.existsb_chars structured_char (Str.strip text)) eqn:Hs;
    [discriminate|]. intros _.
  apply (existsb_chars_weaken Str.is_digit) in Hs.
  - unfold Str.strip in Hs.
    by rewrite rstrip_keeps_digits, lstrip_keeps_digits in Hs.
  - intros c Hc. unfold structured_char. by rewrite Hc.
Qed.

(** The first day of the calendar has ordinal 1. *)
Lemma ymd2ord_pos y m d : valid_date y m d = true -> 1 <= ymd2ord y m d.
Proof.
  intros Hv. pose proof Hv as (Hy & Hm & Hd)%valid_date_spec.
  destruct (decide (y = 1 /\ m = 1 /\ d = 1)) as [(-> & -> & ->)|Hne].
  - change (ymd2ord 1 1 1) with 1. lia.
  - assert (Hlt : date_lt 1 1 1 y m d) by (unfold date_lt; lia).
    pose proof (ymd2ord_mono 1 1 1 y m d eq_refl Hv Hlt) as Hmono.
    change (ymd2ord 1 1 1) with 1 in Hmono. lia.
Qed.

Section DatePaths.
Variable nlp : string -> list entity.
Variable search_dates : string -> option (list (string * datetime)).
Variable parse_date : settings -> string -> option datetime.
Variable today : datetime.

Local Abbreviation extract_entities' :=
  (extract_entities nlp search_dates parse_date today).
Local Abbreviation normalize := (_closest_year_for_month_day today).

(** X16.  Two dates or more. When the text is not skipped as a bare name
    and the date search finds at least two dates, further dates are
    ignored. The extractor raises exactly when the guests stage raises (a
    guests phrase of more than 4300 digits) or exactly one of the first two
    normalized dates carries a time zone, so that they do not compare.
    When it returns, the check-in and the check-out are the first two
    normalized dates, swapped when the second is less than the first in the
    program's comparison, and nights is max(1, days between); when the two
    have the same UTC offset, or both have none, the check-in is not after
    the check-out. *)
Theorem two_dates_sorted (text t0 t1 : string) (d0 d1 : datetime)
  (more : list (string * datetime)) :
  let n0 := normalize d0 t0 in
  let n1 := normalize d1 t1 in
  Str.truthy text = true ->
  looks_like_name_response text && negb (found true NAME_CUE text) = false ->
  search_dates text = Some ((t0, d0) :: (t1, d1) :: more) ->
  (extract_entities' text = None
   <-> extract_guests nlp text = None
       \/ is_set (utcoffset n1) <> is_set (utcoffset n0))
  /\ forall e, extract_entities' text = Some e ->
       exists swap,
         dt_lt n1 n0 = Some swap
         /\ x_checkin e = Some (if swap then n1 else n0)
         /\ x_checkout e = Some (if swap then n0 else n1)
         /\ x_nights e
            = Some (Z.max 1 (days_between (if swap then n0 else n1)
                               (if swap then n1 else n0)))
         /\ (utcoffset n0 = utcoffset n1 ->
             swap = dt_ltb n1 n0
             /\ dt_leb (if swap then n1 else n0) (if swap then n0 else n1)
                = true).
Proof.
  intros n0 n1 Ht Hskip Hsd.
  unfold extract_entities. rewrite Ht, Hskip. cbn [negb].
  destruct (extract_guests nlp text) as [g|] eqn:Hg.
  2:{ split; [split; [by left | reflexivity] | discriminate]. }
  unfold extract_found_dates. rewrite Hsd.
  cbn [normalize_all map fst snd]. fold n0 n1.
  destruct (dt_lt n1 n0) as [swap|] eqn:Hlt.
  - assert (Hr : forall x,
               extract_range parse_date today text
                 (set_dates x (if swap then n1 else n0)
                    (if swap then n0 else n1)
                    (Z.max 1 (days_between (if swap then n0 else n1)
                                (if swap then n1 else n0))))
               = Some (set_dates x (if swap then n1 else n0)
                         (if swap then n0 else n1)
                         (Z.max 1 (days_between (if swap then n0 else n1)
                                     (if swap then n1 else n0))))).
    { intros x. unfold extract_range. cbn [x_checkin set_dates].
      by destruct (search false DATE_RANGE text). }
    rewrite Hr. split.
    + split; [discriminate|]. intros [?|Hne]; [discriminate|].
      apply dt_lt_none in Hne. congruence.
    + intros e [= <-]. exists swap. split; [reflexivity|].
      cbn [x_checkin x_checkout x_nights set_dates].
      repeat split.
      * rewrite dt_lt_same_offset in Hlt by done. congruence.
      * by apply swap_sorts.
  - split; [|discriminate]. split; [|reflexivity].
    intros _. right. by apply dt_lt_none.
Qed.

(** X17.  The range fallback is all or nothing. When the date search finds
    nothing in a text that is not skipped as a bare name, the extractor
    raises exactly when the guests stage raises or the range pattern
    matches, both sides parse and exactly one of the two normalized sides
    carries a time zone. When it returns: if the range pattern matches and
    both sides parse, the mapping has the two normalized sides, swapped
    when the second is less than the first, with nights = max(1, days
    between), in order when they have the same UTC offset or none; in
    every other case it has no check-in, no check-out and no nights. *)
Theorem range_fallback_all_or_nothing (text : string) :
  let sides :=
    match search false DATE_RANGE text with
    | Some m =>
        match parse_date Default_settings (group_text 1 m),
              parse_date Default_settings (group_text 2 m) with
        | Some d1, Some d2 =>
            Some (normalize d1 (group_text 1 m),
                  normalize d2 (group_text 2 m))
        | _, _ => None
        end
    | None => None
    end in
  Str.truthy text = true ->
  looks_like_name_response text && negb (found true NAME_CUE text) = false ->
  normalize_all today (search_dates text) = [] ->
  (extract_entities' text = None
   <-> extract_guests nlp text = None
       \/ exists n1 n2, sides = Some (n1, n2)
                        /\ is_set (utcoffset n2) <> is_set (utcoffset n1))
  /\ forall e, extract_entities' text = Some e ->
       match sides with
       | Some (n1, n2) =>
           exists swap,
             dt_lt n2 n1 = Some swap
             /\ x_checkin e = Some (if swap then n2 else n1)
             /\ x_checkout e = Some (if swap then n1 else n2)
             /\ x_nights e
                = Some (Z.max 1 (days_between (if swap then n1 else n2)
                                   (if swap then n2 else n1)))
             /\ (utcoffset n1 = utcoffset n2 ->
                 swap = dt_ltb n2 n1
                 /\ dt_leb (if swap then n2 else n1) (if swap then n1 else n2)
                    = true)
       | None =>
           x_checkin e = None /\ x_checkout e = None /\ x_nights e = None
       end.
Proof.
  intros sides Ht Hskip Hnone.
  unfold extract_entities. rewrite Ht, Hskip. cbn [negb].
  destruct (extract_guests nlp text) as [g|] eqn:Hg.
  2:{ split; [split; [by left | reflexivity] | discriminate]. }
  unfold extract_found_dates. rewrite Hnone. cbn [map].
  unfold extract_range. cbn [x_checkin]. subst sides.
  destruct (search false DATE_RANGE text) as [m|].
  2:{ split.
      - split; [discriminate|]. intros [?|(? & ? & ? & _)]; discriminate.
      - intros e [= <-]. repeat split. }
  destruct (parse_date Default_settings (group_text 1 m)) as [d1|].
  2:{ split.
      - split; [discriminate|]. intros [?|(? & ? & ? & _)]; discriminate.
      - intros e [= <-]. repeat split. }
  destruct (parse_date Default_settings (group_text 2 m)) as [d2|].
  2:{ split.
      - split; [discriminate|]. intros [?|(? & ? & ? & _)]; discriminate.
      - intros e [= <-]. repeat split. }
  rewrite !normalize_unless_year. cbv zeta.
  set (n1 := normalize d1 (group_text 1 m)).
  set (n2 := normalize d2 (group_text 2 m)).
  destruct (dt_lt n2 n1) as [swap|] eqn:Hlt.
  - split.
    + split; [discriminate|].
      intros [?|(a & b & [= <- <-] & Hne)]; [discriminate|].
      apply dt_lt_none in Hne. congruence.
    + intros e [= <-]. exists swap. split; [reflexivity|].
      cbn [x_checkin x_checkout x_nights set_dates].
      repeat split.
      * rewrite dt_lt_same_offset in Hlt by done. congruence.
      * by apply swap_sorts.
  - split; [|discriminate]. split; [|reflexivity].
    intros _. right. exists n1, n2. split; [reflexivity|].
    by apply dt_lt_none.
Qed.

(** X18.  "For N nights". When the date search finds one date, on a valid
    day, in a text that is not skipped as a bare name and has a "for N
    nights" phrase: the extractor raises exactly when the guests stage
    raises, or N is written with more than 4300 digits, or N is more than
    999999999 days, or the day N days after the check-in is past the end
    of the calendar. When it returns, the check-in is the normalized date,
    nights is N as written, and the check-out is exactly N days after the
    check-in, at the same time of day and not before it. *)
Theorem for_nights_checkout (text phrase : string) (dt : datetime)
  (m : mstate) :
  let n := Str.int_acc 0 (group_text 1 m) in
  let ci := normalize dt phrase in
  Str.truthy text = true ->
  looks_like_name_response text && negb (found true NAME_CUE text) = false ->
  search_dates text = Some [(phrase, dt)] ->
  valid_day dt = true ->
  search true FOR_NIGHTS text = Some m ->
  (extract_entities' text = None
   <-> extract_guests nlp text = None
       \/ (4300 < String.length (group_text 1 m))%nat
       \/ 999999999 < n
       \/ MAXORDINAL < toordinal ci + n)
  /\ forall e, extract_entities' text = Some e ->
       x_checkin e = Some ci /\ x_nights e = Some n
       /\ exists co,
            x_checkout e = Some co /\ add_days ci n = Some co
            /\ days_between co ci = n /\ time_us co = time_us ci
            /\ dt_leb ci co = true /\ valid_day co = true.
Proof.
  intros n ci Ht Hskip Hsd Hv Hm.
  pose proof (for_nights_number _ _ Hm) as Hnum.
  destruct (is_number_int _ Hnum) as [Hint Hn]. fold n in Hn.
  assert (Hvci : valid_day ci = true) by (by apply closest_year_valid_day).
  assert (Hord : 1 <= toordinal ci) by (apply ymd2ord_pos; exact Hvci).
  unfold extract_entities. rewrite Ht, Hskip. cbn [negb].
  destruct (extract_guests nlp text) as [g|] eqn:Hg.
  2:{ split; [split; [by left | reflexivity] | discriminate]. }
  unfold extract_found_dates. rewrite Hsd, Hm.
  cbn [normalize_all map fst snd]. fold ci. rewrite Hint.
  change Str.MAX_STR_DIGITS with 4300%nat.
  destruct (4300 <? String.length (group_text 1 m))%nat eqn:Hl.
  { apply Nat.ltb_lt in Hl. split; [|discriminate].
    split; [intros _; right; by left | reflexivity]. }
  apply Nat.ltb_ge in Hl. fold n.
  destruct (add_days ci n) as [co|] eqn:Ha.
  - unfold extract_range. cbn [x_checkin set_dates].
    destruct (add_days_spec ci n co Hvci Ha) as (Hvco & Hd & Hle).
    assert (Hfit : n <= 999999999 /\ toordinal ci + n <= MAXORDINAL).
    { revert Ha. unfold add_days.
      destruct (999999999 <? Z.abs n) eqn:Hbig; [discriminate|].
      destruct ((0 <? toordinal ci + n) && (toordinal ci + n <=? MAXORDINAL))
        eqn:Hr; [|discriminate].
      apply andb_true_iff in Hr as [_ Hr]. apply Z.leb_le in Hr.
      apply Z.ltb_ge in Hbig. lia. }
    assert (Htime : time_us co = time_us ci).
    { revert Ha. unfold add_days.
      destruct (999999999 <? Z.abs n); [discriminate|].
      destruct ((0 <? toordinal ci + n) && (toordinal ci + n <=? MAXORDINAL));
        [|discriminate].
      destruct (ord2ymd (toordinal ci + n)) as [[y mo] d].
      intros Heq. injection Heq as <-. reflexivity. }
    split.
    + split; [by destruct (search false DATE_RANGE text)|].
      intros [?|[?|[?|?]]]; [discriminate | lia | lia | lia].
    + intros e He.
      assert (e = set_dates
                    (mk_extracted (extract_name nlp text) g
                       (extract_breakfast text) (extract_payment text)
                       None None None) ci co n)
        by (destruct (search false DATE_RANGE text); congruence).
      subst e. cbn [x_checkin x_checkout x_nights set_dates].
      split; [reflexivity|]. split; [reflexivity|].
      exists co. repeat split; auto.
  - split; [|discriminate]. split; [|reflexivity]. intros _.
    right. right. revert Ha. unfold add_days.
    destruct (999999999 <? Z.abs n) eqn:Hbig.
    + apply Z.ltb_lt in Hbig. intros _. left. lia.
    + destruct ((0 <? toordinal ci + n) && (toordinal ci + n <=? MAXORDINAL))
        eqn:Hr; [by destruct (ord2ymd _) as [[? ?] ?]|].
      intros _. right. apply andb_false_iff in Hr as [Hr|Hr].
      * apply Z.ltb_ge in Hr. lia.
      * apply Z.leb_gt in Hr. lia.
Qed.

(** X19.  A name reply is not searched for dates. When the text looks like a
    name and has no name cue, the extractor returns without consulting the
    date library: the mapping has no check-in, no check-out and no nights,
    and it is the same whatever the date library and the clock are. *)
Theorem name_reply_skips_dates (text : string) :
  looks_like_name_response text = true ->
  found true NAME_CUE text = false ->
  exists e,
    extract_entities' text = Some e
    /\ x_checkin e = None /\ x_checkout e = None /\ x_nights e = None
    /\ forall search_dates' parse_date' today',
         extract_entities nlp search_dates' parse_date' today' text = Some e.
Proof.
  intros Hname Hcue.
  assert (Ht : Str.truthy text = true).
  { revert Hname. unfold looks_like_name_response.
    by destruct (Str.truthy text). }
  unfold extract_entities. rewrite Ht, Hname, Hcue. cbn [negb andb].
  rewrite (extract_guests_without_digit nlp text
             (name_response_without_digit text Hname)).
  eexists. repeat split.
Qed.
End DatePaths.

(** ** Stored values *)

Lemma mem_In s l : mem s l = true <-> In s l.
Proof.
  unfold mem. rewrite existsb_exists. split.
  - intros (x & Hin & Heq). apply String.eqb_eq in Heq. by subst.
  - intros Hin. exists s. split; [exact Hin|apply String.eqb_refl].
Qed.

Lemma filter_digits_all c :
  all_chars Str.is_digit (Str.filter_chars Str.is_digit c) = true.
Proof.
  induction c as [|a c IH]; [reflexivity|]. cbn [Str.filter_chars].
  destruct (Str.is_digit a) eqn:Ha; [|exact IH].
  cbn [all_chars]. by rewrite Ha, IH.
Qed.

Lemma first_cardinal_nonneg cs v : first_cardinal cs = Some v -> 0 <= v.
Proof.
  induction cs as [|c cs IH]; [discriminate|]. cbn [first_cardinal].
  destruct (Str.int_of _) as [val|] eqn:Hi; [|exact IH].
  intros [= <-]. by apply int_of_nonneg in Hi.
Qed.

Section Values.
Variable nlp : string -> list entity.
Variable search_dates : string -> option (list (string * datetime)).
Variable parse_date : settings -> string -> option datetime.
Variable today : datetime.
Variable utcnow : datetime.

Lemma extract_guests_nonneg text g :
  extract_guests nlp text = Some g -> when_set (Z.leb 0) g = true.
Proof.
  unfold extract_guests.
  destruct (first_cardinal (ents_with nlp "CARDINAL" text)) as [v|] eqn:Hc.
  - apply first_cardinal_nonneg in Hc.
    destruct (negb (truthy_int (Some v))); [|intros [= <-]; cbn; lia].
    destruct (search true GUESTS_PHRASE text) as [m|] eqn:Hs;
      [|intros [= <-]; cbn; lia].
    destruct (Str.int_of _) as [n|] eqn:Hi; [|discriminate].
    intros [= <-]. apply int_of_nonneg in Hi. cbn. lia.
  - cbn [truthy_int negb].
    destruct (search true GUESTS_PHRASE text) as [m|] eqn:Hs;
      [|by intros [= <-]].
    destruct (Str.int_of _) as [n|] eqn:Hi; [|discriminate].
    intros [= <-]. apply int_of_nonneg in Hi. cbn. lia.
Qed.

Lemma extract_found_dates_nights text e e' :
  when_set (Z.leb 0) (x_nights e) = true ->
  extract_found_dates search_dates parse_date today text e = Some e' ->
  when_set (Z.leb 0) (x_nights e') = true.
Proof.
  intros He. unfold extract_found_dates.
  destruct (map snd (normalize_all today (search_dates text)))
    as [|d0 [|d1 ds]].
  - by intros [= <-].
  - destruct (search true FOR_NIGHTS text) as [m|] eqn:Hs.
    + destruct (Str.int_of _) as [n|] eqn:Hi; [|discriminate].
      destruct (add_days d0 _); intros [= <-]. cbn.
      apply int_of_nonneg in Hi. lia.
    + destruct (search false TRAILING_DATE text) as [m2|].
      * destruct (parse_date Prefer_future _); [|by intros [= <-]].
        destruct (dt_lt _ d0); intros [= <-]. cbn. lia.
      * by intros [= <-].
  - destruct (dt_lt d1 d0); intros [= <-]. cbn. lia.
Qed.

Lemma extract_range_nights text e e' :
  when_set (Z.leb 0) (x_nights e) = true ->
  extract_range parse_date today text e = Some e' ->
  when_set (Z.leb 0) (x_nights e') = true.
Proof.
  intros He. unfold extract_range.
  destruct (search false DATE_RANGE text) as [m|]; [|by intros [= <-]].
  destruct (x_checkin e); [by intros [= <-]|].
  destruct (parse_date Default_settings (group_text 1 m));
    [|by intros [= <-]].
  destruct (parse_date Default_settings (group_text 2 m));
    [|by intros [= <-]].
  cbv zeta. destruct (dt_lt _ _); intros [= <-]. cbn. lia.
Qed.

(** What the extractor returns is fit to store. *)
Lemma extract_entities_values text e :
  extract_entities nlp search_dates parse_date today text = Some e ->
  extracted_values_ok e = true.
Proof.
  intros He.
  destruct (extracted_options_values nlp search_dates parse_date today text e He)
    as [Hb Hp].
  assert (Hg : when_set (Z.leb 0) (x_guests e) = true
               /\ when_set (Z.leb 0) (x_nights e) = true).
  { revert He. unfold extract_entities.
    destruct (negb (Str.truthy text)); [by intros [= <-]|].
    destruct (extract_guests nlp text) as [g|] eqn:Hgs; [|discriminate].
    apply extract_guests_nonneg in Hgs.
    destruct (looks_like_name_response text && negb (found true NAME_CUE text)).
    - intros [= <-]. split; [exact Hgs|done].
    - destruct (extract_found_dates _ _ _ _ _) as [e1|] eqn:H1; [|discriminate].
      intros H2.
      pose proof (extract_found_dates_frame _ _ _ _ _ _ H1) as (_ & Hg1 & _).
      pose proof (extract_range_frame _ _ _ _ _ H2) as (_ & Hg2 & _).
      split.
      + rewrite Hg2, Hg1. exact Hgs.
      + eapply extract_range_nights; [|exact H2].
        eapply extract_found_dates_nights; [|exact H1]. reflexivity. }
  destruct Hg as [Hg Hn]. unfold extracted_values_ok. rewrite Hg, Hn.
  cbn [andb]. apply andb_true_iff. split.
  - destruct (x_breakfast e) as [v|]; [|done]. cbn [when_set].
    by apply mem_In, Hb.
  - destruct (x_payment_method e) as [v|]; [|done]. cbn [when_set].
    by apply mem_In, Hp.
Qed.

(** Merging storable values into a well-formed draft keeps it well formed:
    a value is only merged when it is truthy. *)
Lemma merge_keeps_values e b :
  extracted_values_ok e = true -> values_ok b = true ->
  values_ok (fst (merge_extracted e b)) = true.
Proof.
  unfold extracted_values_ok. rewrite !andb_true_iff.
  intros [[[Hg Hn] Hb] Hp] Hok. unfold merge_extracted.
  repeat (apply merge_field_keeps;
          [intros b' Hv Hb'; revert Hb'; unfold values_ok;
           rewrite !andb_true_iff; cbn [guest_name guests nights breakfast
             payment_method set_guest_name set_guests set_checkin_b
             set_checkout_b set_nights set_breakfast set_payment_method];
           intros [[[[? ?] ?] ?] ?]; repeat split; try assumption;
           match goal with
           | |- when_set _ ?o = true =>
               destruct o; cbn in *; try done; try lia
           end |]).
  exact Hok.
Qed.

Lemma respond_keeps_values i b changed db :
  values_ok b = true -> all_rows values_ok db ->
  all_rows values_ok (fst (respond utcnow i b changed db)).
Proof.
  intros Hb Hdb. unfold respond. destruct i.
  - destruct (compute_missing b); simpl; [|exact Hdb].
    by apply all_rows_commit.
  - simpl. by apply all_rows_commit.
  - destruct (conversational_reply b changed). exact Hdb.
  - destruct (conversational_reply b changed). exact Hdb.
  - destruct (conversational_reply b changed). exact Hdb.
Qed.

(** X20.  Stored values stay meaningful. If every stored row has a non-empty
    name (when it has one), positive guests and nights counts, and breakfast
    and payment values from the fixed lists, the same holds after any turn
    whose message is ASCII text, whatever the collaborators return, and
    after a direct confirm.  (A message outside ASCII can be stored through
    the title-casing default of the payment mapping: the case-insensitive
    patterns match the long s for s.) *)
Theorem stored_values_stay_well_formed (message session_id : option string)
  (bid : Z) (db : DB) :
  ascii_text (or_empty message) = true ->
  all_rows values_ok db ->
  all_rows values_ok
    (fst (handle_message nlp search_dates parse_date today utcnow
            message session_id db))
  /\ all_rows values_ok (fst (confirm_booking bid db)).
Proof.
  intros _ Hdb. split.
  - unfold handle_message. set (text := Str.strip (or_empty message)).
    destruct (negb (truthy_str session_id)); [exact Hdb|].
    unfold merge_turn.
    assert (Hg : values_ok (fst (get_or_create_pending utcnow
                                   (or_empty session_id) db)) = true
                 /\ all_rows values_ok
                      (snd (get_or_create_pending utcnow
                              (or_empty session_id) db))).
    { unfold get_or_create_pending.
      destruct (find_pending (or_empty session_id) db) as [p|] eqn:Hf; simpl.
      - apply find_pending_spec in Hf as [[k Hk] _]. eauto.
      - split; [reflexivity|]. by apply all_rows_commit. }
    destruct Hg as [Hb0 Hdb0].
    destruct (get_or_create_pending utcnow (or_empty session_id) db)
      as [b0 db0]. simpl in Hb0, Hdb0.
    destruct (mem "name" (compute_missing b0) && Str.truthy text
              && looks_like_name_response text) eqn:Hguard.
    + rewrite merge_no_entities.
      assert (Hb1 : values_ok (set_guest_name (Some text) b0) = true).
      { apply andb_true_iff in Hguard as [[_ Ht]%andb_true_iff _].
        revert Hb0. unfold values_ok. rewrite !andb_true_iff. cbn.
        intros [[[[? ?] ?] ?] ?]. repeat split; assumption. }
      apply respond_keeps_values; [exact Hb1|].
      apply all_rows_commit; [exact Hb1|].
      apply all_rows_commit; [exact Hb1 | exact Hdb0].
    + destruct (extract_entities nlp search_dates parse_date today text)
        as [e|] eqn:He; [|exact Hdb0].
      destruct (sqlite_int_ok (x_guests e) && sqlite_int_ok (x_nights e));
        [|exact Hdb0].
      pose proof (merge_keeps_values e b0 (extract_entities_values _ _ He) Hb0)
        as Hm.
      destruct (merge_extracted e b0) as [b1 ch]. simpl in Hm.
      apply respond_keeps_values; [exact Hm|].
      apply all_rows_commit; [exact Hm | exact Hdb0].
  - unfold confirm_booking, find_by_id.
    destruct (db !! bid) as [b|] eqn:Hb; [|exact Hdb].
    destruct (_ || _); [exact Hdb|]. cbn [fst].
    apply all_rows_commit; [|exact Hdb]. exact (Hdb _ _ Hb).
Qed.
End Values.

(** ** The properties on examples *)

(** A table with one row. *)
Lemma table_ok_single b : table_ok (commit b ∅).
Proof.
  split.
  - apply wf_db_commit, wf_db_empty.
  - intros k1 k2 b1 b2 H1 H2 _ _ _. unfold commit in *.
    destruct (decide (id b = k1)) as [E1|N1];
      [|rewrite lookup_insert_ne, lookup_empty in H1 by done; discriminate].
    destruct (decide (id b = k2)) as [E2|N2];
      [|rewrite lookup_insert_ne, lookup_empty in H2 by done; discriminate].
    congruence.
Qed.

Lemma handle_message_keeps_table_ok_witness :
  table_ok (commit draft_example ∅)
  /\ table_ok
       (fst (handle_message nlp_none search_dates_none parse_date_none
               clock_example clock_example (Some "hello") (Some "s2")
               (commit draft_example ∅)))
  /\ table_ok (fst (confirm_booking 1 (commit draft_example ∅))).
Proof.
  split; [apply table_ok_single|].
  apply (handle_message_keeps_table_ok nlp_none search_dates_none
           parse_date_none clock_example clock_example (Some "hello")
           (Some "s2") 1 (commit draft_example ∅)).
  apply table_ok_single.
Defined.

Lemma handle_message_keeps_other_rows_witness :
  commit draft_example ∅ !! 1 = Some draft_example
  /\ fst (handle_message nlp_none search_dates_none parse_date_none
            clock_example clock_example (Some "I want to book") (Some "s2")
            (commit draft_example ∅)) !! 1
     = Some draft_example.
Proof.
  split; [vm_compute; reflexivity|].
  apply (handle_message_keeps_other_rows nlp_none search_dates_none
           parse_date_none clock_example clock_example
           (Some "I want to book") (Some "s2") (commit draft_example ∅) 1
           draft_example).
  - apply wf_db_commit, wf_db_empty.
  - vm_compute. reflexivity.
  - right. discriminate.
Defined.

Lemma cancelled_draft_stays_pending_witness :
  let cancelled :=
    set_notes (Some ("seen" ++ newline
                     ++ "Cancelled by user at 2026-11-03T10:22:00"))
      draft_example in
  let db' :=
    fst (handle_message nlp_none search_dates_none parse_date_none
           clock_example clock_example (Some "cancel") (Some "s1")
           (commit draft_example ∅)) in
  detect_intent (Str.strip "cancel") = cancel
  /\ find_pending "s1" db' = Some cancelled
  /\ get_or_create_pending clock_example "s1" db' = (cancelled, db').
Proof.
  split; [reflexivity|].
  pose proof (cancelled_draft_stays_pending nlp_none search_dates_none
                parse_date_none clock_example clock_example (Some "cancel")
                "s1" (commit draft_example ∅) (commit draft_example ∅)
                draft_example [] clock_example) as H.
  destruct H as (_ & Hf & Hg).
  - apply table_ok_single.
  - reflexivity.
  - vm_compute. reflexivity.
  - reflexivity.
  - split; [exact Hf | exact Hg].
Defined.

Lemma confirmed_draft_is_closed_witness :
  let db' :=
    fst (handle_message nlp_none search_dates_none parse_date_none
           clock_example clock_example (Some "confirm") (Some "s1")
           (commit draft_example ∅)) in
  compute_missing draft_example = []
  /\ find_pending "s1" db' = None
  /\ get_or_create_pending clock_example "s1" db'
     = (empty_draft (next_id db') "s1" clock_example,
        commit (empty_draft (next_id db') "s1" clock_example) db')
  /\ next_id db' <> 1.
Proof.
  split; [reflexivity|].
  pose proof (confirmed_draft_is_closed nlp_none search_dates_none
                parse_date_none clock_example clock_example (Some "confirm")
                "s1" (commit draft_example ∅) (commit draft_example ∅)
                draft_example [] clock_example) as H.
  destruct H as (Heq & _ & Hf & Hg & Hn).
  - apply table_ok_single.
  - reflexivity.
  - vm_compute. reflexivity.
  - reflexivity.
  - reflexivity.
  - cbv zeta. rewrite Heq. cbn [fst]. split; [exact Hf|].
    split; [exact Hg | exact Hn].
Defined.

Lemma missing_fields_only_shrink_witness :
  compute_missing draft_no_guests = ["number of guests"]
  /\ incl (compute_missing (set_guests (Some 2) draft_no_guests))
       (compute_missing
          (fst (get_or_create_pending clock_example "s1"
                  (commit draft_no_guests ∅)))).
Proof.
  split; [reflexivity|].
  apply (missing_fields_only_shrink nlp_none search_dates_none
           parse_date_none clock_example clock_example "2 guests please"
           "s1" (commit draft_no_guests ∅)
           (commit (set_guests (Some 2) draft_no_guests)
              (commit draft_no_guests ∅))
           (set_guests (Some 2) draft_no_guests) ["guests"]).
  vm_compute. reflexivity.
Defined.

Lemma completeness_flag_matches_snapshot_witness :
  snapshot_complete (booking_to_dict draft_no_guests) = false
  /\ false = snapshot_complete (booking_to_dict draft_no_guests).
Proof.
  split; [reflexivity|].
  apply (completeness_flag_matches_snapshot nlp_none search_dates_none
           parse_date_none clock_example clock_example
           (Some "confirm please") (Some "s1") (commit draft_no_guests ∅)
           (commit draft_no_guests ∅)
           "I need a few more details before I can confirm: number of guests. Could you provide them?"
           (booking_to_dict draft_no_guests) false).
  - vm_compute. reflexivity.
  - discriminate.
Defined.

Lemma reported_snapshot_is_stored_witness :
  handle_message nlp_none search_dates_none parse_date_none clock_example
    clock_example (Some "confirm please") (Some "s1")
    (commit draft_no_guests ∅)
  = (commit draft_no_guests ∅,
     Turn_response
       "I need a few more details before I can confirm: number of guests. Could you provide them?"
       (booking_to_dict draft_no_guests) false)
  /\ get_booking 1 (commit draft_no_guests ∅)
     = (commit draft_no_guests ∅,
        Booking_response (booking_to_dict draft_no_guests)).
Proof.
  assert (H : handle_message nlp_none search_dates_none parse_date_none
                clock_example clock_example (Some "confirm please")
                (Some "s1") (commit draft_no_guests ∅)
              = (commit draft_no_guests ∅,
                 Turn_response
                   "I need a few more details before I can confirm: number of guests. Could you provide them?"
                   (booking_to_dict draft_no_guests) false))
    by (vm_compute; reflexivity).
  split; [exact H|].
  exact (reported_snapshot_is_stored nlp_none search_dates_none
           parse_date_none clock_example clock_example
           (Some "confirm please") (Some "s1") 1 (commit draft_no_guests ∅)
           (commit draft_no_guests ∅) _ _ _ (or_introl H)).
Defined.

Lemma blank_message_changes_nothing_witness :
  handle_message nlp_none search_dates_none parse_date_none clock_example
    clock_example (Some "   ") (Some "s1") (commit draft_no_guests ∅)
  = (commit draft_no_guests ∅,
     Turn_response "I still need number of guests. How many guests will stay?"
       (booking_to_dict draft_no_guests) false).
Proof.
  pose proof (blank_message_changes_nothing nlp_none search_dates_none
                parse_date_none clock_example clock_example (Some "   ")
                (Some "s1") (commit draft_no_guests ∅)) as H.
  destruct H as [H _].
  - apply wf_db_commit, wf_db_empty.
  - reflexivity.
  - reflexivity.
  - rewrite H. vm_compute. reflexivity.
Defined.

Lemma exception_leaves_lookup_state_witness :
  snd (handle_request nlp_none search_dates_long_stay parse_date_none
         clock_example clock_example
         (Some (J_string "June 10 for 99999999999 nights")) (Some "s1") ∅)
  = Unhandled_exception
  /\ fst (handle_request nlp_none search_dates_long_stay parse_date_none
            clock_example clock_example
            (Some (J_string "June 10 for 99999999999 nights")) (Some "s1") ∅)
     = snd (get_or_create_pending clock_example "s1" ∅).
Proof.
  destruct (exception_leaves_lookup_state nlp_none search_dates_long_stay
              parse_date_none clock_example clock_example
              (Some (J_string "June 10 for 99999999999 nights")) (Some "s1")
              ∅ eq_refl eq_refl) as [Hiff Hstate].
  assert (H : snd (handle_request nlp_none search_dates_long_stay
                     parse_date_none clock_example clock_example
                     (Some (J_string "June 10 for 99999999999 nights"))
                     (Some "s1") ∅)
              = Unhandled_exception).
  { apply Hiff. right. split; [discriminate|]. split; [reflexivity|].
    split; [vm_compute; reflexivity|]. left. vm_compute. reflexivity. }
  split; [exact H | exact (Hstate H)].
Defined.

Lemma nearest_year_within_half_a_year_witness :
  _closest_year_for_month_day clock_example (mk_datetime 2027 6 10 0 0 0 0)
    "June 10"
  = mk_datetime 2026 6 10 0 0 0 0
  /\ distance clock_example
       (_closest_year_for_month_day clock_example
          (mk_datetime 2027 6 10 0 0 0 0) "June 10")
     <= 183 * DAY_US.
Proof.
  split; [vm_compute; reflexivity|].
  apply (nearest_year_within_half_a_year clock_example
           (mk_datetime 2027 6 10 0 0 0 0) "June 10").
  - reflexivity.
  - cbn. lia.
  - reflexivity.
  - reflexivity.
  - vm_compute. reflexivity.
Defined.

Lemma two_dates_sorted_witness :
  exists e,
    extract_entities nlp_dialogue search_dates_dialogue parse_date_none
      clock_example
      "I want to book a room for 2 guests from June 10 to June 13" = Some e
    /\ x_checkin e = Some (mk_datetime 2026 6 10 0 0 0 0)
    /\ x_checkout e = Some (mk_datetime 2026 6 13 0 0 0 0)
    /\ x_nights e = Some 3.
Proof.
  destruct (two_dates_sorted nlp_dialogue search_dates_dialogue
              parse_date_none clock_example
              "I want to book a room for 2 guests from June 10 to June 13"
              "June 10" "June 13" (mk_datetime 2027 6 10 0 0 0 0)
              (mk_datetime 2027 6 13 0 0 0 0) [])
    as [_ Hall].
  - reflexivity.
  - vm_compute. reflexivity.
  - reflexivity.
  - assert (He : extract_entities nlp_dialogue search_dates_dialogue
                   parse_date_none clock_example
                   "I want to book a room for 2 guests from June 10 to June 13"
                 = Some (mk_extracted None (Some 2) None None
                           (Some (mk_datetime 2026 6 10 0 0 0 0))
                           (Some (mk_datetime 2026 6 13 0 0 0 0)) (Some 3)))
      by (vm_compute; reflexivity).
    destruct (Hall _ He) as (swap & Hlt & Hci & Hco & Hn & _).
    eexists. split; [exact He|]. repeat split.
Defined.

Lemma range_fallback_all_or_nothing_witness :
  exists e,
    extract_entities nlp_none search_dates_none parse_date_january
      clock_example "Jan 15 - Jan 12" = Some e
    /\ x_checkin e = Some (mk_datetime 2027 1 12 0 0 0 0)
    /\ x_checkout e = Some (mk_datetime 2027 1 15 0 0 0 0)
    /\ x_nights e = Some 3.
Proof.
  destruct (range_fallback_all_or_nothing nlp_none search_dates_none
              parse_date_january clock_example "Jan 15 - Jan 12")
    as [_ Hall].
  - reflexivity.
  - vm_compute. reflexivity.
  - reflexivity.
  - assert (He : extract_entities nlp_none search_dates_none
                   parse_date_january clock_example "Jan 15 - Jan 12"
                 = Some (mk_extracted None None None None
                           (Some (mk_datetime 2027 1 12 0 0 0 0))
                           (Some (mk_datetime 2027 1 15 0 0 0 0)) (Some 3)))
      by (vm_compute; reflexivity).
    pose proof (Hall _ He) as Hr.
    eexists. split; [exact He|]. repeat split.
Defined.

Lemma for_nights_checkout_witness :
  search true FOR_NIGHTS "June 10 for 3 nights" = Some for_3_nights_match
  /\ exists e co,
       extract_entities nlp_none search_dates_stay parse_date_none
         clock_example "June 10 for 3 nights" = Some e
       /\ x_checkin e = Some (mk_datetime 2026 6 10 0 0 0 0)
       /\ x_nights e = Some 3
       /\ x_checkout e = Some co
       /\ days_between co (mk_datetime 2026 6 10 0 0 0 0) = 3.
Proof.
  split; [vm_compute; reflexivity|].
  destruct (for_nights_checkout nlp_none search_dates_stay parse_date_none
              clock_example "June 10 for 3 nights" "June 10"
              (mk_datetime 2027 6 10 0 0 0 0) for_3_nights_match)
    as [_ Hall].
  - reflexivity.
  - vm_compute. reflexivity.
  - reflexivity.
  - reflexivity.
  - vm_compute. reflexivity.
  - assert (He : extract_entities nlp_none search_dates_stay parse_date_none
                   clock_example "June 10 for 3 nights"
                 = Some (mk_extracted None None None None
                           (Some (mk_datetime 2026 6 10 0 0 0 0))
                           (Some (mk_datetime 2026 6 13 0 0 0 0)) (Some 3)))
      by (vm_compute; reflexivity).
    destruct (Hall _ He) as (_ & _ & co & Hco & _ & Hd & _).
    injection Hco as <-.
    do 2 eexists. split; [exact He|]. repeat split.
Defined.

Lemma captured_counts_are_numbers_witness :
  search true FOR_NIGHTS "June 10 for 3 nights" = Some for_3_nights_match
  /\ is_number (group_text 1 for_3_nights_match) = true
  /\ Str.int_of (group_text 1 for_3_nights_match) = Some 3.
Proof.
  split; [vm_compute; reflexivity|].
  destruct (captured_counts_are_numbers "June 10 for 3 nights"
              for_3_nights_match) as (Hnum & _ & Hval & _).
  - right. vm_compute. reflexivity.
  - split; [exact Hnum|]. reflexivity.
Defined.

Lemma extracted_options_are_canonical_witness :
  extract_entities nlp_none search_dates_none parse_date_none clock_example
    "breakfast: AMERICAN, payment by American Express"
  = Some (mk_extracted None None (Some "American") (Some "Amex") None None None)
  /\ In "American" breakfast_values /\ In "Amex" payment_values.
Proof.
  split; [vm_compute; reflexivity|].
  destruct (extracted_options_are_canonical nlp_none search_dates_none
              parse_date_none clock_example
              "breakfast: AMERICAN, payment by American Express"
              (mk_extracted None None (Some "American") (Some "Amex") None
                 None None)) as (Hb & Hp & _).
  - reflexivity.
  - vm_compute. reflexivity.
  - split; [apply Hb | apply Hp]; reflexivity.
Defined.

Lemma stored_values_stay_well_formed_witness :
  all_rows values_ok (commit draft_example ∅)
  /\ all_rows values_ok
       (fst (handle_message nlp_none search_dates_none parse_date_none
               clock_example clock_example
               (Some "2 guests, breakfast included") (Some "s1")
               (commit draft_example ∅)))
  /\ all_rows values_ok (fst (confirm_booking 1 (commit draft_example ∅))).
Proof.
  assert (Hdb : all_rows values_ok (commit draft_example ∅))
    by (apply all_rows_commit; [reflexivity | apply all_rows_empty]).
  split; [exact Hdb|].
  exact (stored_values_stay_well_formed nlp_none search_dates_none
           parse_date_none clock_example clock_example
           (Some "2 guests, breakfast included") (Some "s1") 1
           (commit draft_example ∅) eq_refl Hdb).
Defined.

Lemma name_reply_skips_dates_witness :
  exists e,
    extract_entities nlp_none search_dates_dialogue parse_date_none
      clock_example "John Carter" = Some e
    /\ x_checkin e = None /\ x_checkout e = None /\ x_nights e = None.
Proof.
  destruct (name_reply_skips_dates nlp_none search_dates_dialogue
              parse_date_none clock_example "John Carter")
    as (e & He & Hci & Hco & Hn & _).
  - vm_compute. reflexivity.
  - vm_compute. reflexivity.
  - exists e. split; [exact He|]. split; [exact Hci|].
    split; [exact Hco | exact Hn].
Defined.
